(** * qckstrt: gateway request authentication and federation trust

  A shallow embedding of the TypeScript sources

  - [apps/backend/__tests__/integration/utils/test-context.ts]: the CSRF
    token cache ([fetchCsrfToken], [getCsrfToken], [clearCsrfToken]),
    [generateHmacHeader] and [graphqlRequest];
  - the class [HmacRemoteGraphQLDataSource] with [willSendRequest]
    (second part of [apps/backend/__tests__/integration/test-utils.ts]),
    the [Headers] class of the fetch library being a parameter;
  - the class [RegionDomainService] with [syncAll], [syncDataType] and
    the three bulk upsert handlers (second part of
    [apps/backend/src/config/secrets.config.ts]);

  together with the properties the specification states about them.

  Conventions.  JavaScript strings are modelled by [string] (a sequence
  of 8-bit characters, read as the UTF-8 encoding of the text; the model
  is exact for ASCII text, which is what HTTP methods, header names and
  base64 digests are).  [null] and [undefined] are [None].  A thrown
  exception or a rejected promise is the [Thrown] outcome of the
  state-and-exception monad [M].  [await] is sequencing: the embedding
  follows one call from start to end. *)

From Stdlib Require Import ZArith List String Ascii Bool Lia.
From stdpp Require Import base option list gmap strings.

Set Warnings "-register-all".

Local Open Scope Z_scope.

(** ** JavaScript values used by the sources *)

Module Js.

(** The exceptions the modelled code can raise or let through. *)
Inductive Exn : Type :=
| Error (message : string)      (* [throw new Error(message)] *)
| TypeError                     (* property access on null, call of a non-function *)
| SyntaxError                   (* [response.json()] on a body that is not JSON *)
| NetworkError (reason : string) (* [fetch] rejected *).

Inductive Outcome (A : Type) : Type :=
| Returned (a : A)
| Thrown (e : Exn).
Arguments Returned {A} a.
Arguments Thrown {A} e.

(** Truthiness of a [string | null | undefined] value: only a present,
    non-empty string is truthy. *)
Definition truthy (v : option string) : bool :=
  match v with
  | Some (String _ _) => true
  | _ => false
  end.

(** [a || b] on strings: the left operand when truthy, else the right. *)
Definition or_default (v : option string) (d : string) : string :=
  match v with
  | Some (String c s) => String c s
  | _ => d
  end.

(** Text of ASCII characters only. *)
Fixpoint is_ascii (s : string) : bool :=
  match s with
  | EmptyString => true
  | String c r => (N_of_ascii c <? 128)%N && is_ascii r
  end.

(** [String.prototype.toLowerCase].  The model maps [A] to [Z] and leaves
    every other character alone: that is what JavaScript does on ASCII
    text ([is_ascii]); on other text JavaScript maps the other cased
    letters as well.  What is stated about the lower-casing of a string
    that a caller chooses is therefore stated for ASCII strings. *)
Definition lower_char (c : ascii) : ascii :=
  let n := N_of_ascii c in
  if ((65 <=? n) && (n <=? 90))%N then ascii_of_N (n + 32) else c.

Fixpoint toLowerCase (s : string) : string :=
  match s with
  | EmptyString => EmptyString
  | String c r => String (lower_char c) (toLowerCase r)
  end.

(** [hay.startsWith(needle)]. *)
Fixpoint startsWith (needle hay : string) : bool :=
  match needle, hay with
  | EmptyString, _ => true
  | String _ _, EmptyString => false
  | String a n, String b h => if Ascii.eqb a b then startsWith n h else false
  end.

(** [hay.includes(needle)]: the needle starts at some position. *)
Fixpoint includes (needle hay : string) : bool :=
  startsWith needle hay ||
  match hay with
  | EmptyString => false
  | String _ h => includes needle h
  end.

(** Parsed JSON, as [response.json()] or [JSON.parse] produce it.  An
    object is its list of (distinct) keys with their values.  No number
    is inspected by the code, so numbers are kept as integers. *)
Inductive Json : Type :=
| JNull
| JBool (b : bool)
| JNum (n : Z)
| JStr (s : string)
| JArr (items : list Json)
| JObj (fields : list (string * Json)).

(** [o.key] on a parsed value that is not null: [None] is [undefined]. *)
Fixpoint assoc (key : string) (fields : list (string * Json)) : option Json :=
  match fields with
  | [] => None
  | (k, v) :: rest => if String.eqb k key then Some v else assoc key rest
  end.

Definition is_str (s : string) (j : Json) : bool :=
  match j with
  | JStr t => String.eqb s t
  | _ => false
  end.

End Js.

(** ** The state-and-exception monad of an async function

  A computation reads and writes a state [S] (module-level variables
  and the outside world) and either returns or throws; the state
  reached when an exception escapes is kept, as in JavaScript. *)

Definition M (S A : Type) : Type := S -> Js.Outcome A * S.

Definition ret {S A} (a : A) : M S A := fun s => (Js.Returned a, s).

Definition throw {S A} (e : Js.Exn) : M S A := fun s => (Js.Thrown e, s).

Definition bind {S A B} (m : M S A) (k : A -> M S B) : M S B :=
  fun s =>
    match m s with
    | (Js.Returned a, s') => k a s'
    | (Js.Thrown e, s') => (Js.Thrown e, s')
    end.

Definition gets {S A} (f : S -> A) : M S A := fun s => (Js.Returned (f s), s).

Definition modify {S} (f : S -> S) : M S unit := fun s => (Js.Returned tt, f s).

(** [try { m } catch (error) { h error }]. *)
Definition try_catch {S A} (m : M S A) (h : Js.Exn -> M S A) : M S A :=
  fun s =>
    match m s with
    | (Js.Returned a, s') => (Js.Returned a, s')
    | (Js.Thrown e, s') => h e s'
    end.

(** A synchronous step that may throw, run inside an async function. *)
Definition lift {S A} (o : Js.Outcome A) : M S A := fun s => (o, s).

Declare Scope js_scope.
Delimit Scope js_scope with js.
Notation "x <- m ;; k" := (bind m (fun x => k))
  (at level 100, m at next level, right associativity) : js_scope.
Notation "m ;; k" := (bind m (fun _ => k))
  (at level 100, right associativity) : js_scope.

(** ** [node:crypto]: SHA-256, HMAC and the base64 digest encoding

  [crypto.createHmac('sha256', key).update(text).digest('base64')] is
  library code; it is modelled by the functions of FIPS 180-4, RFC 2104
  and RFC 4648 on bytes (numbers in [0, 256)) and 32-bit words (numbers
  in [0, 2^32), additions reduced modulo 2^32). *)

Module NodeCrypto.

Definition is_byte (b : Z) : Prop := 0 <= b < 256.

Definition w32 (x : Z) : Z := x mod 4294967296.

Definition add32 (x y : Z) : Z := w32 (x + y).

Definition rotr (n x : Z) : Z :=
  Z.lor (Z.shiftr x n) (w32 (Z.shiftl x (32 - n))).

Definition not32 (x : Z) : Z := Z.lxor x 4294967295.

Definition Ch (x y z : Z) : Z := Z.lxor (Z.land x y) (Z.land (not32 x) z).

Definition Maj (x y z : Z) : Z :=
  Z.lxor (Z.lxor (Z.land x y) (Z.land x z)) (Z.land y z).

Definition Sigma0 (x : Z) : Z := Z.lxor (Z.lxor (rotr 2 x) (rotr 13 x)) (rotr 22 x).
Definition Sigma1 (x : Z) : Z := Z.lxor (Z.lxor (rotr 6 x) (rotr 11 x)) (rotr 25 x).
Definition sigma0 (x : Z) : Z := Z.lxor (Z.lxor (rotr 7 x) (rotr 18 x)) (Z.shiftr x 3).
Definition sigma1 (x : Z) : Z := Z.lxor (Z.lxor (rotr 17 x) (rotr 19 x)) (Z.shiftr x 10).

(** The round constants and the initial hash value are defined by
    FIPS 180-4 as the first 32 bits of the fractional parts of the cube
    roots of the first 64 primes, and of the square roots of the first 8. *)
Definition is_prime (n : nat) : bool :=
  (1 <? n)%nat && forallb (fun d => negb (n mod d =? 0)%nat) (seq 2 (n - 2)).

Definition first_primes (count : nat) : list Z :=
  map Z.of_nat (take count (List.filter is_prime (seq 2 310))).

(** The largest [r] below [2^bits] with [r^3 <= n], bit by bit. *)
Fixpoint cube_root (bits : nat) (n r : Z) : Z :=
  match bits with
  | O => r
  | S b =>
      let r' := r + 2 ^ Z.of_nat b in
      cube_root b n (if r' * r' * r' <=? n then r' else r)
  end.

Definition frac_cbrt (p : Z) : Z := w32 (cube_root 40 (p * 2 ^ 96) 0).

Definition frac_sqrt (p : Z) : Z := w32 (Z.sqrt (p * 2 ^ 64)).

Definition K256 : list Z := Eval vm_compute in map frac_cbrt (first_primes 64).

Definition H256 : list Z := Eval vm_compute in map frac_sqrt (first_primes 8).

(** Big-endian bytes of a number, [n] of them. *)
Fixpoint be_bytes (n : nat) (x : Z) : list Z :=
  match n with
  | O => []
  | S m => Z.land (Z.shiftr x (8 * Z.of_nat m)) 255 :: be_bytes m x
  end.

Fixpoint be_word (bs : list Z) (acc : Z) : Z :=
  match bs with
  | [] => acc
  | b :: r => be_word r (acc * 256 + b)
  end.

(** Padding: 0x80, zeros up to 56 modulo 64, the bit length on 8 bytes. *)
Definition pad (msg : list Z) : list Z :=
  let len := Z.of_nat (length msg) in
  let zeros := Z.to_nat ((55 - len) mod 64) in
  msg ++ 128 :: repeat 0 zeros ++ be_bytes 8 (8 * len).

(** The sixteen words of a 64-byte block. *)
Fixpoint words (n : nat) (block : list Z) : list Z :=
  match n with
  | O => []
  | S m => be_word (take 4 block) 0 :: words m (drop 4 block)
  end.

(** Message schedule, most recent word first:
    W_t = sigma1 W_{t-2} + W_{t-7} + sigma0 W_{t-15} + W_{t-16}. *)
Fixpoint schedule (n : nat) (rev_ws : list Z) : list Z :=
  match n with
  | O => rev_ws
  | S m =>
      let at_ i := nth i rev_ws 0 in
      let w := add32 (add32 (sigma1 (at_ 1%nat)) (at_ 6%nat))
                     (add32 (sigma0 (at_ 14%nat)) (at_ 15%nat)) in
      schedule m (w :: rev_ws)
  end.

Record Regs : Type := mkRegs { ra : Z; rb : Z; rc : Z; rd : Z; re : Z; rf : Z; rg : Z; rh : Z }.

Definition round (r : Regs) (kw : Z * Z) : Regs :=
  let t1 := add32 (add32 (add32 (rh r) (Sigma1 (re r))) (Ch (re r) (rf r) (rg r)))
                  (add32 (fst kw) (snd kw)) in
  let t2 := add32 (Sigma0 (ra r)) (Maj (ra r) (rb r) (rc r)) in
  mkRegs (add32 t1 t2) (ra r) (rb r) (rc r) (add32 (rd r) t1) (re r) (rf r) (rg r).

Definition regs_of (h : list Z) : Regs :=
  let at_ i := nth i h 0 in
  mkRegs (at_ 0%nat) (at_ 1%nat) (at_ 2%nat) (at_ 3%nat)
         (at_ 4%nat) (at_ 5%nat) (at_ 6%nat) (at_ 7%nat).

Definition list_of (r : Regs) : list Z :=
  [ra r; rb r; rc r; rd r; re r; rf r; rg r; rh r].

Definition compress (h : list Z) (block : list Z) : list Z :=
  let ws := rev (schedule 48 (rev (words 16 block))) in
  let r := fold_left round (combine K256 ws) (regs_of h) in
  map (fun p => add32 (fst p) (snd p)) (combine h (list_of r)).

Fixpoint blocks (n : nat) (h : list Z) (bytes : list Z) : list Z :=
  match n with
  | O => h
  | S m => blocks m (compress h (take 64 bytes)) (drop 64 bytes)
  end.

Definition sha256 (msg : list Z) : list Z :=
  let p := pad msg in
  flat_map (be_bytes 4) (blocks (length p / 64) H256 p).

(** RFC 2104 with block size 64. *)
Definition hmac_sha256 (key msg : list Z) : list Z :=
  let k0 := if (64 <? Z.of_nat (length key)) then sha256 key else key in
  let k := k0 ++ repeat 0 (64 - length k0) in
  let ipad := map (Z.lxor 54) k in
  let opad := map (Z.lxor 92) k in
  sha256 (opad ++ sha256 (ipad ++ msg)).

(** RFC 4648 base64 with padding. *)
Definition b64_char (i : Z) : ascii :=
  ascii_of_N (Z.to_N
    (if i <? 26 then 65 + i
     else if i <? 52 then 97 + (i - 26)
     else if i <? 62 then 48 + (i - 52)
     else if i =? 62 then 43 else 47)).

Definition pad_char : ascii := "="%char.

Fixpoint base64_fuel (n : nat) (bs : list Z) : string :=
  match n with
  | O => EmptyString
  | S m =>
      match bs with
      | [] => EmptyString
      | [a] =>
          String (b64_char (Z.shiftr a 2))
            (String (b64_char (Z.land (Z.shiftl a 4) 63))
               (String pad_char (String pad_char EmptyString)))
      | [a; b] =>
          String (b64_char (Z.shiftr a 2))
            (String (b64_char (Z.land (Z.lor (Z.shiftl a 4) (Z.shiftr b 4)) 63))
               (String (b64_char (Z.land (Z.shiftl b 2) 63))
                  (String pad_char EmptyString)))
      | a :: b :: c :: rest =>
          String (b64_char (Z.shiftr a 2))
            (String (b64_char (Z.land (Z.lor (Z.shiftl a 4) (Z.shiftr b 4)) 63))
               (String (b64_char (Z.land (Z.lor (Z.shiftl b 2) (Z.shiftr c 6)) 63))
                  (String (b64_char (Z.land c 63)) (base64_fuel m rest))))
      end
  end.

Definition base64 (bs : list Z) : string := base64_fuel (length bs) bs.

(** The bytes of a string (its UTF-8 encoding, see the conventions). *)
Fixpoint bytes_of (s : string) : list Z :=
  match s with
  | EmptyString => []
  | String c r => Z.of_N (N_of_ascii c) :: bytes_of r
  end.

(** [createHmac('sha256', key).update(text).digest('base64')]. *)
Definition hmac_sha256_base64 (key text : string) : string :=
  base64 (hmac_sha256 (bytes_of key) (bytes_of text)).

Definition hex_digit (i : Z) : ascii :=
  ascii_of_N (Z.to_N (if i <? 10 then 48 + i else 87 + i)).

Fixpoint hex (bs : list Z) : string :=
  match bs with
  | [] => EmptyString
  | b :: r => String (hex_digit (Z.shiftr b 4)) (String (hex_digit (Z.land b 15)) (hex r))
  end.

End NodeCrypto.

(** ** [utils/test-context.ts]: CSRF token cache, HMAC header, [graphqlRequest] *)

Module TestContext.

Import Js.
Local Open Scope string_scope.
Local Open Scope js_scope.

(** The environment variables the module reads when it is loaded. *)
Record Env : Type := mkEnv {
  env_API_GATEWAY_URL : option string;
  env_GATEWAY_HMAC_SECRET : option string;
  env_GATEWAY_CLIENT_ID : option string
}.

Definition API_GATEWAY_URL (env : Env) : string :=
  or_default (env_API_GATEWAY_URL env) "http://localhost:3000".

Definition API_GATEWAY_PATH : string := "/api".

Definition HMAC_SECRET (env : Env) : string :=
  or_default (env_GATEWAY_HMAC_SECRET env) "integration-test-hmac-secret".

Definition HMAC_CLIENT_ID (env : Env) : string :=
  or_default (env_GATEWAY_CLIENT_ID env) "api-gateway".

(** *** HTTP as [fetch] sees it *)

Inductive Method : Type := GET | POST.

(** The argument of [JSON.stringify({ query, variables })]. *)
Record Payload : Type := mkPayload {
  query : string;
  variables : option Json
}.

Record Request : Type := mkRequest {
  url : string;
  method : Method;
  headers : gmap string string;
  body : option Payload
}.

Record Response : Type := mkResponse {
  status : Z;
  set_cookie : option string;   (* [response.headers.get('set-cookie')] *)
  json_body : option Json       (* what [response.json()] resolves to; [None]: not JSON *)
}.

(** One call of [fetch] and how it settled. *)
Record Exchange : Type := mkExchange {
  sent : Request;
  answer : Outcome Response
}.

Definition is_post (x : Exchange) : bool :=
  match method (sent x) with POST => true | GET => false end.

Record CsrfPair : Type := mkPair {
  token : string;
  cookie : string
}.

(** *** The regular expression [/csrf-token=([^;]+)/] *)

Definition semicolon : ascii := ";"%char.

(** [[^;]+] is greedy: the longest run of characters other than [;]. *)
Fixpoint run_without_semicolon (s : string) : string :=
  match s with
  | EmptyString => EmptyString
  | String c r =>
      if Ascii.eqb c semicolon then EmptyString
      else String c (run_without_semicolon r)
  end.

Fixpoint drop_prefix (needle hay : string) : option string :=
  match needle, hay with
  | EmptyString, _ => Some hay
  | String _ _, EmptyString => None
  | String a n, String b h => if Ascii.eqb a b then drop_prefix n h else None
  end.

(** A match that starts at the first character of [s]; the result is
    capture group 1. *)
Definition csrf_match_here (s : string) : option string :=
  match drop_prefix "csrf-token=" s with
  | Some rest =>
      match run_without_semicolon rest with
      | EmptyString => None
      | String c v => Some (String c v)
      end
  | None => None
  end.

(** [/csrf-token=([^;]+)/.exec(s)]: the leftmost position with a match;
    [None] is [null], otherwise capture group 1. *)
Fixpoint csrf_regex_exec (s : string) : option string :=
  match csrf_match_here s with
  | Some v => Some v
  | None =>
      match s with
      | EmptyString => None
      | String _ r => csrf_regex_exec r
      end
  end.

(** What the regular expression means, stated on the header text: at
    the offset [length pre] stands [csrf-token=] followed by a character
    other than [;]. *)
Definition value_starts_at (pre hdr : string) : Prop :=
  exists c rest, hdr = pre ++ "csrf-token=" ++ String c rest /\ c <> semicolon.

Definition has_cookie_value (hdr : string) : Prop :=
  exists pre, value_starts_at pre hdr.

Fixpoint no_semicolon (s : string) : Prop :=
  match s with
  | EmptyString => True
  | String c r => c <> semicolon /\ no_semicolon r
  end.

Definition value_ends (rest : string) : Prop :=
  rest = EmptyString \/ exists r, rest = String semicolon r.

(** [tok] is the value after the leftmost such offset, up to the next
    [;] or the end of the header. *)
Definition parsed_token (hdr tok : string) : Prop :=
  exists pre rest,
    hdr = pre ++ "csrf-token=" ++ tok ++ rest
    /\ tok <> EmptyString
    /\ no_semicolon tok
    /\ value_ends rest
    /\ forall pre', value_starts_at pre' hdr -> (String.length pre <= String.length pre')%nat.

(** The reading of the specification's "the cookie name can be located":
    the name, with the [=] that ends it, occurs in the header. *)
Definition cookie_name_located (hdr : string) : bool :=
  includes "csrf-token=" hdr.

Definition pair_of_token (tok : string) : CsrfPair :=
  mkPair tok ("csrf-token=" ++ tok).

(** *** [JSON.stringify] on an object literal whose values are strings *)

Definition dquote : ascii := "034"%char.
Definition backslash : ascii := "\"%char.
Definition newline : ascii := "010"%char.

Definition str1 (c : ascii) : string := String c EmptyString.

(** A text between double quotes, as it is. *)
Definition quoted (s : string) : string := String dquote (s ++ str1 dquote).

Definition json_escape_char (c : ascii) : string :=
  let n := Z.of_N (N_of_ascii c) in
  if (n =? 34)%Z then String backslash (str1 dquote)
  else if (n =? 92)%Z then String backslash (str1 backslash)
  else if (n =? 8)%Z then String backslash "b"
  else if (n =? 12)%Z then String backslash "f"
  else if (n =? 10)%Z then String backslash "n"
  else if (n =? 13)%Z then String backslash "r"
  else if (n =? 9)%Z then String backslash "t"
  else if (n <? 32)%Z then
    String backslash ("u00" ++
      String (NodeCrypto.hex_digit (Z.shiftr n 4)) (str1 (NodeCrypto.hex_digit (Z.land n 15))))
  else str1 c.

(** A character that [JSON.stringify] copies as it is. *)
Definition plain (c : ascii) : Prop := json_escape_char c = str1 c.

Fixpoint json_escape (s : string) : string :=
  match s with
  | EmptyString => EmptyString
  | String c r => json_escape_char c ++ json_escape r
  end.

Definition json_quote (s : string) : string :=
  String dquote (json_escape s ++ str1 dquote).

Fixpoint stringify_fields (fields : list (string * string)) : string :=
  match fields with
  | [] => EmptyString
  | [(k, v)] => json_quote k ++ ":" ++ json_quote v
  | (k, v) :: rest => json_quote k ++ ":" ++ json_quote v ++ "," ++ stringify_fields rest
  end.

(** Properties are written in insertion order. *)
Definition JSON_stringify (fields : list (string * string)) : string :=
  "{" ++ stringify_fields fields ++ "}".

(** *** HMAC authentication header *)

(** [generateHmacHeader(method, path, contentType = 'application/json')];
    the default applies when the argument is left out. *)
Definition generateHmacHeader (env : Env) (method path : string)
    (contentType : option string) : string :=
  let contentType := default "application/json" contentType in
  let headers := "@request-target,content-type" in
  let signatureString :=
    toLowerCase method ++ " " ++ path ++ String newline ("content-type: " ++ contentType) in
  let signature := NodeCrypto.hmac_sha256_base64 (HMAC_SECRET env) signatureString in
  let credentials :=
    [ ("username", HMAC_CLIENT_ID env);
      ("algorithm", "hmac-sha256");
      ("headers", headers);
      ("signature", signature) ] in
  "HMAC " ++ JSON_stringify credentials.

(** *** The process: CSRF cache, gateway, and the log of [fetch] calls *)

Section Gateway.

(** The gateway is any deterministic machine that settles each request. *)
Variable G : Type.
Variable respond : G -> Request -> Outcome Response * G.
Variable env : Env.

Record State : Type := mkState {
  csrfToken : option string;     (* [let csrfToken: string | null] *)
  csrfCookie : option string;    (* [let csrfCookie: string | null] *)
  gateway : G;
  calls : list Exchange          (* every [fetch] so far, oldest first *)
}.

Definition fetch (req : Request) : M State Response :=
  fun s =>
    let '(ans, g) := respond (gateway s) req in
    (ans, mkState (csrfToken s) (csrfCookie s) g (calls s ++ [mkExchange req ans])%list).

Definition endpoint : string := API_GATEWAY_URL env ++ API_GATEWAY_PATH.

Definition bootstrap_request : Request :=
  mkRequest endpoint GET {[ "Content-Type" := "application/json" ]} None.

Definition fetchCsrfToken : M State CsrfPair :=
  response <- fetch bootstrap_request ;;
  let setCookie := set_cookie response in
  if negb (truthy setCookie) then
    throw (Error "No set-cookie header in response - CSRF token not received")
  else
    match csrf_regex_exec (default EmptyString setCookie) with
    | None => throw (Error "csrf-token cookie not found in response")
    | Some token => ret (pair_of_token token)
    end.

Definition set_cache (p : CsrfPair) (s : State) : State :=
  mkState (Some (token p)) (Some (cookie p)) (gateway s) (calls s).

(** [if (!csrfToken || !csrfCookie) { ...fetch and store... }
     return { token: csrfToken, cookie: csrfCookie }]:
    the pair returned is the cached one when both variables are truthy,
    and the one just stored otherwise. *)
Definition getCsrfToken : M State CsrfPair :=
  cached <- gets (fun s => (csrfToken s, csrfCookie s)) ;;
  match cached with
  | (Some (String a t), Some (String b c)) => ret (mkPair (String a t) (String b c))
  | _ =>
      result <- fetchCsrfToken ;;
      modify (set_cache result) ;;
      ret result
  end.

(** [csrfToken = null; csrfCookie = null]. *)
Definition cleared (s : State) : State :=
  mkState None None (gateway s) (calls s).

Definition clearCsrfToken : M State unit := modify cleared.

(** The object literal of the POST: later properties win, so the
    caller's [headers] override the three fixed ones. *)
Definition post_headers (csrf : CsrfPair) (extra : option (gmap string string))
    : gmap string string :=
  default ∅ extra ∪
  {[ "Content-Type" := "application/json";
     "Cookie" := cookie csrf;
     "x-csrf-token" := token csrf ]}.

Definition post_request (csrf : CsrfPair) (q : string) (vars : option Json)
    (extra : option (gmap string string)) : Request :=
  mkRequest endpoint POST (post_headers csrf extra) (Some (mkPayload q vars)).

Definition json (r : Response) : M State Json :=
  match json_body r with
  | Some j => ret j
  | None => throw SyntaxError
  end.

(** The condition [errorBody.message?.includes('CSRF')] on the parsed
    body.  Reading [.message] of [null] throws; on any other value that
    is not an object it is [undefined], and so it is on an object without
    that key; [?.] stops at [undefined] and [null], which are falsy.  A
    string answers [includes] by substring, an array by membership of the
    string [CSRF]; a number, a boolean or an object has no such method,
    and calling it throws. *)
Definition message_includes_CSRF (errorBody : Json) : Outcome bool :=
  match errorBody with
  | JNull => Thrown TypeError
  | JObj fields =>
      match assoc "message" fields with
      | None => Returned false
      | Some JNull => Returned false
      | Some (JStr m) => Returned (includes "CSRF" m)
      | Some (JArr items) => Returned (existsb (is_str "CSRF") items)
      | Some _ => Thrown TypeError
      end
  | _ => Returned false
  end.

Definition graphqlRequest (q : string) (vars : option Json)
    (extra : option (gmap string string)) : M State Json :=
  csrf <- getCsrfToken ;;
  response <- fetch (post_request csrf q vars extra) ;;
  if (status response =? 403)%Z then
    errorBody <- json response ;;
    isCsrf <- lift (message_includes_CSRF errorBody) ;;
    if isCsrf : bool then
      clearCsrfToken ;;
      newCsrf <- getCsrfToken ;;
      retryResponse <- fetch (post_request newCsrf q vars extra) ;;
      json retryResponse
    else ret errorBody
  else json response.

(** *** Notions used to state what a call did *)

(** The state right after [fetch req]. *)
Definition after_fetch (s : State) (req : Request) : State :=
  mkState (csrfToken s) (csrfCookie s) (snd (respond (gateway s) req))
    (calls s ++ [mkExchange req (fst (respond (gateway s) req))])%list.

(** Both cache variables are truthy. *)
Definition is_cached (s : State) : bool :=
  truthy (csrfToken s) && truthy (csrfCookie s).

(** What [fetchCsrfToken] makes of the answer to its GET. *)
Definition token_of_answer (a : Outcome Response) : Outcome CsrfPair :=
  match a with
  | Thrown e => Thrown e
  | Returned response =>
      if negb (truthy (set_cookie response)) then
        Thrown (Error "No set-cookie header in response - CSRF token not received")
      else
        match csrf_regex_exec (default EmptyString (set_cookie response)) with
        | None => Thrown (Error "csrf-token cookie not found in response")
        | Some token => Returned (pair_of_token token)
        end
  end.

(** What [response.json()] makes of an answer. *)
Definition body_of (a : Outcome Response) : Outcome Json :=
  match a with
  | Thrown e => Thrown e
  | Returned r =>
      match json_body r with
      | Some j => Returned j
      | None => Thrown SyntaxError
      end
  end.

(** The answers that [graphqlRequest] retries: status 403 with a JSON
    body on which the condition [message?.includes('CSRF')] holds. *)
Definition csrf_class_403 (a : Outcome Response) : bool :=
  match a with
  | Returned r =>
      (status r =? 403)%Z &&
      match json_body r with
      | Some b =>
          match message_includes_CSRF b with
          | Returned true => true
          | _ => false
          end
      | None => false
      end
  | Thrown _ => false
  end.

Definition posts (xs : list Exchange) : list Exchange := List.filter is_post xs.

Definition is_bootstrap (x : Exchange) : Prop := sent x = bootstrap_request.

(** The four ways a call of [graphqlRequest] can go, by the exchanges
    [new] it adds to the log and its outcome [out]: the first bootstrap
    fails; one POST, not retried; one POST, retried, but the bootstrap
    for the fresh pair fails; two POSTs. *)
Inductive Run (q : string) (vars : option Json) (extra : option (gmap string string))
    (new : list Exchange) (out : Outcome Json) : Prop :=
| NoPost (gs : list Exchange) (e : Exn) :
    Forall is_bootstrap gs ->
    new = gs -> out = Thrown e -> Run q vars extra new out
| OnePost (gs : list Exchange) (csrf : CsrfPair) (a1 : Outcome Response) :
    Forall is_bootstrap gs ->
    csrf_class_403 a1 = false ->
    new = (gs ++ [mkExchange (post_request csrf q vars extra) a1])%list ->
    out = body_of a1 \/ out = Thrown TypeError ->
    Run q vars extra new out
| RetryFailed (gs gs2 : list Exchange) (csrf : CsrfPair) (a1 : Outcome Response) (e : Exn) :
    Forall is_bootstrap gs -> Forall is_bootstrap gs2 ->
    csrf_class_403 a1 = true ->
    new = (gs ++ [mkExchange (post_request csrf q vars extra) a1] ++ gs2)%list ->
    out = Thrown e ->
    Run q vars extra new out
| Retried (gs gs2 : list Exchange) (csrf newCsrf : CsrfPair) (a1 a2 : Outcome Response) :
    Forall is_bootstrap gs -> Forall is_bootstrap gs2 ->
    csrf_class_403 a1 = true ->
    new = (gs ++ [mkExchange (post_request csrf q vars extra) a1] ++ gs2
              ++ [mkExchange (post_request newCsrf q vars extra) a2])%list ->
    out = body_of a2 ->
    Run q vars extra new out.

(** [n] calls of [getCsrfToken] in a row, with what each returned. *)
Fixpoint getCsrfToken_times (n : nat) (s : State) : list (Outcome CsrfPair) * State :=
  match n with
  | O => ([], s)
  | S m =>
      let '(o, s1) := getCsrfToken s in
      let '(os, s2) := getCsrfToken_times m s1 in
      (o :: os, s2)
  end.

End Gateway.

Arguments mkState {G}.
Arguments csrfToken {G}.
Arguments csrfCookie {G}.
Arguments gateway {G}.
Arguments calls {G}.
Arguments is_cached {G}.
Arguments set_cache {G}.
Arguments cleared {G}.

(** *** A mocked gateway

    Answers are scripted per method and handed out in order, whatever the
    request says; a script that has run out rejects. *)
Record Mock : Type := mkMock {
  get_script : list (Outcome Response);
  post_script : list (Outcome Response)
}.

Definition mock_respond (g : Mock) (req : Request) : Outcome Response * Mock :=
  match method req with
  | GET =>
      match get_script g with
      | a :: rest => (a, mkMock rest (post_script g))
      | [] => (Thrown (NetworkError "no scripted answer"), g)
      end
  | POST =>
      match post_script g with
      | a :: rest => (a, mkMock (get_script g) rest)
      | [] => (Thrown (NetworkError "no scripted answer"), g)
      end
  end.

(** A scripted answer on which the bootstrap succeeds. *)
Definition good_bootstrap (a : Outcome Response) : bool :=
  match token_of_answer a with
  | Returned _ => true
  | Thrown _ => false
  end.

(** The first [n] scripted answers are there and are good bootstraps. *)
Definition bootstraps_ok (n : nat) (script : list (Outcome Response)) : bool :=
  (n <=? length script)%nat && forallb good_bootstrap (take n script).

(** The bootstrap GETs a call starts with: none if the pair is cached. *)
Definition first_bootstraps {G : Type} (s : State G) : nat :=
  if is_cached s then 0%nat else 1%nat.

(** The exchanges a run added to the log of [s]. *)
Definition new_calls {G : Type} {A : Type} (s : State G) (run : Outcome A * State G)
    : list Exchange :=
  drop (length (calls s)) (calls (snd run)).

Definition methods (xs : list Exchange) : list Method :=
  map (fun x => method (sent x)) xs.

(** *** Sample gateways and states *)

Definition sample_env : Env := mkEnv None None None.

Definition cookie_answer : Outcome Response :=
  Returned (mkResponse 200 (Some "csrf-token=abc123; Path=/") None).

Definition fresh_cookie_answer : Outcome Response :=
  Returned (mkResponse 200 (Some "csrf-token=def456; Path=/; SameSite=Strict") None).

Definition empty_cookie_answer : Outcome Response :=
  Returned (mkResponse 200 (Some "csrf-token=; Path=/") None).

Definition csrf_403 : Response :=
  mkResponse 403 None
    (Some (JObj [("statusCode", JNum 403); ("message", JStr "Invalid CSRF token")])).

Definition forbidden_403 : Response :=
  mkResponse 403 None
    (Some (JObj [("statusCode", JNum 403); ("message", JStr "Forbidden resource")])).

Definition ok_200 : Response :=
  mkResponse 200 None (Some (JObj [("data", JObj [("ping", JStr "pong")])])).

(** A process that has not talked to the gateway yet. *)
Definition cold (g : Mock) : State Mock := mkState None None g [].

(** A process whose cache holds the pair of [abc123]. *)
Definition warm (g : Mock) : State Mock :=
  mkState (Some "abc123") (Some "csrf-token=abc123") g [].

Definition retry_gateway : Mock :=
  mkMock [cookie_answer; fresh_cookie_answer] [Returned csrf_403; Returned ok_200].

Definition forbidden_gateway : Mock :=
  mkMock [cookie_answer] [Returned forbidden_403; Returned ok_200].

(** The retry is answered by a CSRF-class 403 as well. *)
Definition stubborn_gateway : Mock :=
  mkMock [cookie_answer; fresh_cookie_answer]
    [Returned csrf_403; Returned csrf_403; Returned ok_200].

(** The cookie is there, with an empty value. *)
Definition empty_cookie_gateway : Mock :=
  mkMock [empty_cookie_answer] [Returned ok_200].

Definition sample_query : string := "query { ping }".

Definition run_sample (s : State Mock) : Outcome Json * State Mock :=
  graphqlRequest Mock mock_respond sample_env sample_query None None s.

End TestContext.

(** ** [HmacRemoteGraphQLDataSource]: the per-subgraph interceptor *)

Module DataSource.

Import Js.
Local Open Scope string_scope.
Local Open Scope js_scope.

(** [HmacSignerService] lives in [src/common/services/hmac-signer.service],
    which is not among the sources; the interceptor uses its two methods
    only, so a signer is any pair of them.  [signGraphQLRequest] yields a
    header value or nothing. *)
Record HmacSignerService : Type := mkSigner {
  isEnabled : bool;
  signGraphQLRequest : string -> option string
}.

(** Modelled from the spec: the capability check of [HmacSignerService]
    (section 4.1: with the secret empty or unset the signer reports itself
    disabled).  How an enabled signer signs is left to [sign]. *)
Definition configured_signer (secret : option string)
    (sign : string -> option string) : HmacSignerService :=
  mkSigner (truthy secret) sign.

(** [interface GatewayContext { user?: string }]. *)
Record GatewayContext : Type := mkContext {
  user : option string
}.

(** [request.http]: the parts of the outgoing HTTP request.  Header
    names are case-insensitive, so the entries of [headers] are kept
    under the lower-case name. *)
Record Http : Type := mkHttp {
  url : string;
  method : string;
  headers : gmap string string
}.

(** The [GraphQLRequest] handed to [willSendRequest]; [http] is optional. *)
Record GraphQLRequest : Type := mkGraphQLRequest {
  query : option string;
  http : option Http
}.

Definition headers_get (name : string) (h : gmap string string) : option string :=
  h !! toLowerCase name.

(** The request with the headers [hs] in its HTTP part [h]. *)
Definition with_headers (request : GraphQLRequest) (h : Http) (hs : gmap string string)
    : GraphQLRequest :=
  mkGraphQLRequest (query request) (Some (mkHttp (url h) (method h) hs)).

(** The request with [stored] as its header [name], if it has an HTTP
    part. *)
Definition put_header (name stored : string) (request : GraphQLRequest) : GraphQLRequest :=
  match http request with
  | Some h => with_headers request h (<[ toLowerCase name := stored ]> (headers h))
  | None => request
  end.

(** [request.http?.url]. *)
Definition http_url (request : GraphQLRequest) : option string :=
  url <$> http request.

(** [context?.user]. *)
Definition context_user (context : option GatewayContext) : option string :=
  context ≫= user.

(** The value of a header of the request, if it has an HTTP part and the
    header is there. *)
Definition header_of (name : string) (request : GraphQLRequest) : option string :=
  http request ≫= (fun h => headers_get name (headers h)).

Section Headers.

(** The [Headers] class of the request is the fetch library's and is not
    among the sources.  Its [set] validates the value it is given: it
    either stores a value under the name, or rejects the value with a
    [TypeError] and stores nothing.  Which values are rejected (one with
    a line break, for instance) and whether a value is trimmed before it
    is stored are the library's rules and are left open: [accepts value]
    is what is stored, or nothing when the value is rejected.  The two
    names the interceptor passes, [user] and [X-HMAC-Auth], are legal
    header names. *)
Variable accepts : string -> option string.

(** [headers.set(name, value)]. *)
Definition headers_set (name value : string) (h : gmap string string)
    : Outcome (gmap string string) :=
  match accepts value with
  | Some stored => Returned (<[ toLowerCase name := stored ]> h)
  | None => Thrown TypeError
  end.

(** [request.http?.headers.set(name, value)], on the request in place:
    without an HTTP part nothing is called. *)
Definition set_header (name value : string) : M GraphQLRequest unit :=
  fun request =>
    match http request with
    | Some h =>
        match headers_set name value (headers h) with
        | Returned hs => (Returned tt, with_headers request h hs)
        | Thrown e => (Thrown e, request)
        end
    | None => (Returned tt, request)
    end.

(** [willSendRequest({ request, context })]: the state is the request,
    which is updated in place; an exception of [Headers.set] escapes,
    and what was set before it stays set. *)
Definition willSendRequest (hmacSigner : HmacSignerService)
    (context : option GatewayContext) : M GraphQLRequest unit :=
  (if truthy (context_user context)
   then set_header "user" (default EmptyString (context_user context))
   else ret tt) ;;
  request_url <- gets http_url ;;
  if isEnabled hmacSigner && truthy request_url then
    let hmacHeader := signGraphQLRequest hmacSigner (default EmptyString request_url) in
    if truthy hmacHeader
    then set_header "X-HMAC-Auth" (default EmptyString hmacHeader)
    else ret tt
  else ret tt.

(** The two statements of [willSendRequest], each on its own: the user
    header, and the signature. *)
Definition after_user (context : option GatewayContext) : M GraphQLRequest unit :=
  if truthy (context_user context)
  then set_header "user" (default EmptyString (context_user context))
  else ret tt.

Definition signing (hmacSigner : HmacSignerService) : M GraphQLRequest unit :=
  request_url <- gets http_url ;;
  if isEnabled hmacSigner && truthy request_url then
    let hmacHeader := signGraphQLRequest hmacSigner (default EmptyString request_url) in
    if truthy hmacHeader
    then set_header "X-HMAC-Auth" (default EmptyString hmacHeader)
    else ret tt
  else ret tt.

End Headers.

(** *** Sample inputs *)

(** A container that rejects a value with a line feed, a carriage return
    or a NUL character, and stores every other value as given. *)
Definition single_line (value : string) : option string :=
  if includes (String "010"%char EmptyString) value
     || includes (String "013"%char EmptyString) value
     || includes (String "000"%char EmptyString) value
  then None else Some value.

Definition sample_signer : HmacSignerService :=
  mkSigner true (fun url => Some ("HMAC signed " ++ url)).

Definition sample_request : GraphQLRequest :=
  mkGraphQLRequest (Some "{ me { id } }")
    (Some (mkHttp "http://users:3001/graphql" "POST"
             {[ "content-type" := "application/json" ]})).

Definition request_without_http : GraphQLRequest :=
  mkGraphQLRequest (Some "{ me { id } }") None.

Definition request_without_url : GraphQLRequest :=
  mkGraphQLRequest (Some "{ me { id } }") (Some (mkHttp EmptyString "POST" ∅)).

Definition context_u1 : option GatewayContext := Some (mkContext (Some "u-1")).

(** An identity that smuggles a second header line. *)
Definition context_two_lines : option GatewayContext :=
  Some (mkContext (Some ("u-1" ++ String "010"%char "x-admin: 1"))).

End DataSource.

(** ** [RegionDomainService]: syncing civic data

    The calls of [this.logger] and the duration measured for the log line
    do not influence any result and are left out. *)

Module Region.

Import Js.
Local Open Scope string_scope.
Local Open Scope js_scope.

Inductive CivicDataType : Type := PROPOSITIONS | MEETINGS | REPRESENTATIVES.

Record SyncResult : Type := mkSyncResult {
  dataType : CivicDataType;
  itemsProcessed : nat;
  itemsCreated : nat;
  itemsUpdated : nat;
  errors : list string;
  syncedAt : Z
}.

(** What a handler reports: [{ processed, created, updated }]. *)
Record Counts : Type := mkCounts {
  processed : nat;
  created : nat;
  updated : nat
}.

(** The invariant of the data model, on a handler's report and on a
    [SyncResult]. *)
Definition balanced (c : Counts) : Prop :=
  processed c = (created c + updated c)%nat.

Definition counts_add_up (r : SyncResult) : Prop :=
  itemsProcessed r = (itemsCreated r + itemsUpdated r)%nat.

(** The provider's items; optional properties are [option]s, dates are
    timestamps. *)
Record Proposition : Type := mkProposition {
  p_externalId : string;
  p_title : string;
  p_summary : string;
  p_fullText : option string;
  p_status : string;
  p_electionDate : option Z;
  p_sourceUrl : option string
}.

Record Meeting : Type := mkMeeting {
  m_externalId : string;
  m_title : string;
  m_body : string;
  m_scheduledAt : Z;
  m_location : option string;
  m_agendaUrl : option string;
  m_videoUrl : option string
}.

Record Representative : Type := mkRepresentative {
  r_externalId : string;
  r_name : string;
  r_chamber : string;
  r_district : string;
  r_party : string;
  r_photoUrl : option string;
  r_contactInfo : option Json
}.

(** [(error as Error).message]. *)
Definition message_of (e : Exn) : string :=
  match e with
  | Error m => m
  | TypeError => "TypeError"
  | SyntaxError => "SyntaxError"
  | NetworkError m => m
  end.

Section Service.

(** The world outside the service: the region provider, the three
    repositories and the clock.  Every collaborator may change the world
    and may throw. *)
Variable W : Type.

(** A repository, as the service uses it: the [externalId]s of the rows
    that [createQueryBuilder ... where externalId IN (ids) ... getMany()]
    finds, and [upsert(entities, { conflictPaths: ['externalId'] })]. *)
Record Repository (E : Type) : Type := mkRepository {
  getMany : list string -> M W (list string);
  upsert : list E -> M W unit
}.
Arguments getMany {E}.
Arguments upsert {E}.

Variable getSupportedDataTypes : list CivicDataType.
Variable fetchPropositions : M W (list Proposition).
Variable fetchMeetings : M W (list Meeting).
Variable fetchRepresentatives : M W (list Representative).
Variable propositionRepo : Repository Proposition.
Variable meetingRepo : Repository Meeting.
Variable representativeRepo : Repository Representative.
Variable clock : W -> Z * W.

(** [new Date()]: reading the clock never throws. *)
Definition now : M W Z :=
  fun w => let '(t, w') := clock w in (Returned t, w').

(** [new Set(existingRecords.map((r) => r.externalId))]. *)
Definition id_set (ids : list string) : gset string := list_to_set ids.

(** [existingExternalIds.has(id)]. *)
Definition has (s : gset string) (id : string) : bool := bool_decide (id ∈ s).

(** The body shared, word for word, by the three handlers: fetch, query
    the existing ids, upsert all, then count by membership.  [entity]
    is the object literal built from an item. *)
Definition bulk_sync {I : Type} (fetchItems : M W (list I)) (externalId : I -> string)
    (entity : I -> I) (repo : Repository I) : M W Counts :=
  items <- fetchItems ;;
  if (length items =? 0)%nat then ret (mkCounts 0 0 0)
  else
    let externalIds := map externalId items in
    existingRecords <- getMany repo externalIds ;;
    let existingExternalIds := id_set existingRecords in
    let entities := map entity items in
    upsert repo entities ;;
    let created :=
      length (List.filter (fun p => negb (has existingExternalIds (externalId p))) items) in
    let updated :=
      length (List.filter (fun p => has existingExternalIds (externalId p)) items) in
    ret (mkCounts (length items) created updated).

Definition syncPropositions : M W Counts :=
  bulk_sync fetchPropositions p_externalId
    (fun prop => mkProposition (p_externalId prop) (p_title prop) (p_summary prop)
                   (p_fullText prop) (p_status prop) (p_electionDate prop) (p_sourceUrl prop))
    propositionRepo.

Definition syncMeetings : M W Counts :=
  bulk_sync fetchMeetings m_externalId
    (fun meeting => mkMeeting (m_externalId meeting) (m_title meeting) (m_body meeting)
                      (m_scheduledAt meeting) (m_location meeting) (m_agendaUrl meeting)
                      (m_videoUrl meeting))
    meetingRepo.

Definition syncRepresentatives : M W Counts :=
  bulk_sync fetchRepresentatives r_externalId
    (fun rep => mkRepresentative (r_externalId rep) (r_name rep) (r_chamber rep)
                  (r_district rep) (r_party rep) (r_photoUrl rep) (r_contactInfo rep))
    representativeRepo.

(** [syncHandlers[dataType]]. *)
Definition syncHandlers (dataType : CivicDataType) : M W Counts :=
  match dataType with
  | PROPOSITIONS => syncPropositions
  | MEETINGS => syncMeetings
  | REPRESENTATIVES => syncRepresentatives
  end.

Definition syncDataType (dataType : CivicDataType) : M W SyncResult :=
  let handler := syncHandlers dataType in
  counts <- handler ;;
  date <- now ;;
  ret (mkSyncResult dataType (processed counts) (created counts) (updated counts) [] date).

(** The loop of [syncAll] over the supported types, [results] being the
    array built so far. *)
Fixpoint syncAll_loop (types : list CivicDataType) (results : list SyncResult)
    : M W (list SyncResult) :=
  match types with
  | [] => ret results
  | dataType :: rest =>
      result <- try_catch (syncDataType dataType)
                  (fun error =>
                     date <- now ;;
                     ret (mkSyncResult dataType 0 0 0 [message_of error] date)) ;;
      syncAll_loop rest (results ++ [result])%list
  end.

Definition syncAll : M W (list SyncResult) :=
  syncAll_loop getSupportedDataTypes [].

End Service.

Arguments mkRepository {W E}.
Arguments getMany {W E}.
Arguments upsert {W E}.

(** *** A small world to run the service in

    The provider offers three propositions and no meeting; fetching the
    representatives fails.  The proposition table already holds
    [prop-2].  The world is the number of clock readings so far. *)
Definition demo_propositions : list Proposition :=
  [ mkProposition "prop-1" "Parks" "Fund the parks" None "pending" (Some 1730764800) None;
    mkProposition "prop-2" "Roads" "Repair the roads" (Some "Full text") "pending" None None;
    mkProposition "prop-3" "Water" "Water bonds" None "passed" None (Some "https://example.com") ].

Definition demo_repo (E : Type) (existing : list string) : Repository nat E :=
  mkRepository
    (fun ids => ret (List.filter (fun id => existsb (String.eqb id) ids) existing))
    (fun _ => ret tt).

Definition demo_clock (w : nat) : Z * nat := (1700000000 + Z.of_nat w, S w).

Definition demo_syncDataType : CivicDataType -> M nat SyncResult :=
  syncDataType nat (ret demo_propositions) (ret []) (throw (Error "Network error"))
    (demo_repo Proposition ["prop-2"; "prop-9"]) (demo_repo Meeting [])
    (demo_repo Representative []) demo_clock.

Definition demo_syncAll : M nat (list SyncResult) :=
  syncAll nat [PROPOSITIONS; MEETINGS; REPRESENTATIVES]
    (ret demo_propositions) (ret []) (throw (Error "Network error"))
    (demo_repo Proposition ["prop-2"; "prop-9"]) (demo_repo Meeting [])
    (demo_repo Representative []) demo_clock.

End Region.

(** ** [utils/test-context.ts]: the other request functions and the
    assertion helpers *)

Module Requests.

Import Js TestContext.
Local Open Scope string_scope.
Local Open Scope js_scope.

Section Gateway.

Variable G : Type.
Variable respond : G -> Request -> Outcome Response * G.
Variable env : Env.

(** [authenticatedGraphqlRequest(query, variables, accessToken)]. *)
Definition authenticatedGraphqlRequest (q : string) (vars : option Json)
    (accessToken : string) : M (State G) Json :=
  graphqlRequest G respond env q vars
    (Some {[ "Authorization" := "Bearer " ++ accessToken ]}).

(** The object literal of the direct POST; the caller's [headers] come
    last and win. *)
Definition direct_headers (hmacHeader : string) (extra : option (gmap string string))
    : gmap string string :=
  default ∅ extra ∪
  {[ "Content-Type" := "application/json";
     "X-HMAC-Auth" := hmacHeader ]}.

Definition direct_request (serviceUrl q : string) (vars : option Json)
    (extra : option (gmap string string)) : Request :=
  mkRequest (serviceUrl ++ "/graphql") POST
    (direct_headers (generateHmacHeader env "POST" "/graphql" None) extra)
    (Some (mkPayload q vars)).

(** [directServiceRequest(serviceUrl, query, variables, headers)]. *)
Definition directServiceRequest (serviceUrl q : string) (vars : option Json)
    (extra : option (gmap string string)) : M (State G) Json :=
  response <- fetch G respond (direct_request serviceUrl q vars extra) ;;
  json G response.

End Gateway.

(** A pair in double-submit shape: the cookie is [csrf-token=] followed
    by the token. *)
Definition double_submit (p : CsrfPair) : Prop :=
  cookie p = "csrf-token=" ++ token p.

(** The cache, when it holds a pair (both variables truthy), holds one in
    double-submit shape. *)
Definition consistent {G : Type} (s : State G) : Prop :=
  forall c t d u,
    csrfToken s = Some (String c t) -> csrfCookie s = Some (String d u) ->
    String d u = "csrf-token=" ++ String c t.

(** The cache holds the pair [p]: the next [getCsrfToken] answers with
    it. *)
Definition holds {G : Type} (s : State G) (p : CsrfPair) : Prop :=
  csrfToken s = Some (token p) /\ csrfCookie s = Some (cookie p) /\ is_cached s = true.

(** An exchange of a call: a bootstrap GET, or a POST of the given query
    that carries some pair in double-submit shape. *)
Definition call_of (env : Env) (q : string) (vars : option Json)
    (extra : option (gmap string string)) (x : Exchange) : Prop :=
  is_bootstrap env x
  \/ exists p, sent x = post_request env p q vars extra /\ double_submit p.

(** The caller names neither the cookie nor the token header, in any
    spelling. *)
Definition leaves_csrf_headers (extra : option (gmap string string)) : Prop :=
  forall k, toLowerCase k = "cookie" \/ toLowerCase k = "x-csrf-token" ->
            default ∅ extra !! k = None.

(** *** [assertNoErrors] and [assertHasError] *)

Record GraphQLError : Type := mkError {
  message : string
}.

(** [{ data?: T; errors?: Array<{ message: string }> }]. *)
Record Result : Type := mkResult {
  data : option Json;
  errors : option (list GraphQLError)
}.

(** [array.join(sep)] on strings. *)
Fixpoint join (sep : string) (l : list string) : string :=
  match l with
  | [] => EmptyString
  | [x] => x
  | x :: r => x ++ sep ++ join sep r
  end.

Definition assertNoErrors (result : Result) : Outcome unit :=
  match errors result with
  | Some (e :: es) =>
      Thrown (Error ("GraphQL errors: " ++ join ", " (map message (e :: es))))
  | _ => Returned tt
  end.

(** [expectedMessage: string | RegExp].  A regular expression is what its
    [test] answers on a text and how it prints in a template; a pattern
    with the [g] or [y] flag, whose [test] depends on earlier calls, is
    outside this model. *)
Inductive Expected : Type :=
| ExpectString (s : string)
| ExpectRegExp (printed : string) (test : string -> bool).

Definition printed_expected (expected : Expected) : string :=
  match expected with
  | ExpectString s => s
  | ExpectRegExp printed _ => printed
  end.

(** The callback of [result.errors.some(...)]. *)
Definition matches (expected : Expected) (e : GraphQLError) : bool :=
  match expected with
  | ExpectString s => includes s (message e)
  | ExpectRegExp _ test => test (message e)
  end.

Definition assertHasError (result : Result) (expected : Expected) : Outcome unit :=
  match errors result with
  | Some (e :: es) =>
      if existsb (matches expected) (e :: es) then Returned tt
      else
        Thrown (Error ("Expected error matching " ++ quoted (printed_expected expected)
                       ++ " but got: " ++ join ", " (map message (e :: es))))
  | _ =>
      Thrown (Error ("Expected error matching " ++ quoted (printed_expected expected)
                     ++ " but got no errors"))
  end.

(** [result.errors && result.errors.length > 0]. *)
Definition has_errors (result : Result) : Prop :=
  exists e es, errors result = Some (e :: es).

End Requests.

(** ** [RegionDomainService]: the paginated queries

    The repositories are TypeORM's; what the service asks of them is
    taken as given: [findAndCount({ order, skip, take })] yields rows and
    the count of all rows, the query builder of the representatives
    yields [getCount()] and, with [skip] and [take] set, [getMany()],
    both under the optional [chamber] condition. *)

Module RegionQueries.

Import Js.
Local Open Scope js_scope.

(** [{ items, total, hasMore }]. *)
Record Paginated (E : Type) : Type := mkPaginated {
  items : list E;
  total : nat;
  hasMore : bool
}.
Arguments mkPaginated {E}.
Arguments items {E}.
Arguments total {E}.
Arguments hasMore {E}.

(** [array.slice(0, end)] for an integer [end]: a negative [end] counts
    from the end of the array. *)
Definition slice_to {A : Type} (l : list A) (end_ : Z) : list A :=
  if end_ <? 0 then firstn (Z.to_nat (Z.of_nat (length l) + end_)) l
  else firstn (Z.to_nat end_) l.

Section Service.

Variable W : Type.
Variables PropositionEntity MeetingEntity RepresentativeEntity : Type.
Variable proposition_findAndCount : Z -> Z -> M W (list PropositionEntity * nat).
Variable meeting_findAndCount : Z -> Z -> M W (list MeetingEntity * nat).
Variable representative_getCount : option string -> M W nat.
Variable representative_getMany : option string -> Z -> Z -> M W (list RepresentativeEntity).

(** [getPropositions(skip = 0, take = 10)]; the copy
    [{ ...item, status: item.status }] of each row is the row. *)
Definition getPropositions (skip take : option Z) : M W (Paginated PropositionEntity) :=
  let skip := default 0 skip in
  let take := default 10 take in
  found <- proposition_findAndCount skip (take + 1) ;;
  let items := fst found in
  let total := snd found in
  let hasMore := take <? Z.of_nat (length items) in
  let paginatedItems := slice_to items take in
  ret (mkPaginated (map (fun item => item) paginatedItems) total hasMore).

(** [getMeetings(skip = 0, take = 10)]. *)
Definition getMeetings (skip take : option Z) : M W (Paginated MeetingEntity) :=
  let skip := default 0 skip in
  let take := default 10 take in
  found <- meeting_findAndCount skip (take + 1) ;;
  let items := fst found in
  let total := snd found in
  let hasMore := take <? Z.of_nat (length items) in
  let paginatedItems := slice_to items take in
  ret (mkPaginated paginatedItems total hasMore).

(** [getRepresentatives(skip = 0, take = 10, chamber?)]: the condition is
    added [if (chamber)]. *)
Definition getRepresentatives (skip take : option Z) (chamber : option string)
    : M W (Paginated RepresentativeEntity) :=
  let skip := default 0 skip in
  let take := default 10 take in
  let condition := if truthy chamber then chamber else None in
  total <- representative_getCount condition ;;
  items <- representative_getMany condition skip (take + 1) ;;
  let hasMore := take <? Z.of_nat (length items) in
  let paginatedItems := slice_to items take in
  ret (mkPaginated paginatedItems total hasMore).

End Service.

(** A page of at most [take] rows that is full whenever more rows are
    announced. *)
Definition page_within {E : Type} (take : Z) (page : Paginated E) : Prop :=
  Z.of_nat (length (items page)) <= take
  /\ (hasMore page = true -> Z.of_nat (length (items page)) = take).

(** A repository that serves an ordered table: [skip] rows are passed
    over, at most [take] rows follow, and the count is that of the
    table. *)
Definition serves {W E : Type} (findAndCount : Z -> Z -> M W (list E * nat))
    (table : list E) : Prop :=
  forall skip take w, 0 <= skip -> 0 <= take ->
    exists w',
      findAndCount skip take w
      = (Returned (firstn (Z.to_nat take) (skipn (Z.to_nat skip) table), length table), w').

(** *** A table of five rows *)

Definition five_rows : list string := ["a"; "b"; "c"; "d"; "e"]%string.

Definition five_rows_repo (skip take : Z) : M unit (list string * nat) :=
  ret (firstn (Z.to_nat take) (skipn (Z.to_nat skip) five_rows), length five_rows).

End RegionQueries.

(** ** Notions for the interceptor *)

Module DataSourceNotions.

Import Js DataSource.
Local Open Scope string_scope.

(** A header name other than the two the interceptor writes, in any
    spelling. *)
Definition other_header (name : string) : Prop :=
  toLowerCase name <> "user" /\ toLowerCase name <> "x-hmac-auth".

(** The identity of the context, when there is one to forward, is a
    value the [Headers] container accepts. *)
Definition user_accepted (accepts : string -> option string)
    (context : option GatewayContext) : Prop :=
  truthy (context_user context) = true ->
  is_Some (accepts (default EmptyString (context_user context))).

(** A request that arrives with headers of its own, among them a forged
    credential. *)
Definition request_with_inbound_hmac : GraphQLRequest :=
  mkGraphQLRequest (Some "{ me { id } }")
    (Some (mkHttp "http://users:3001/graphql" "POST"
             {[ "content-type" := "application/json";
                "x-hmac-auth" := "HMAC forged";
                "x-request-id" := "r-42" ]})).

End DataSourceNotions.

(** ** Notions for the sync results *)

Module RegionNotions.

Import Region.

(** A record of a sync that went through, or of one that failed: one
    message, no item counted. *)
Definition clean_or_failed (r : SyncResult) : Prop :=
  errors r = []
  \/ exists msg, errors r = [msg]
                 /\ itemsProcessed r = 0%nat /\ itemsCreated r = 0%nat
                 /\ itemsUpdated r = 0%nat.

(** A repository that keeps a table keyed by [externalId], [rows] being
    the ids in it: the query finds, in any order, the rows among the ids
    asked for and leaves the table alone; the upsert adds the ids it is
    given and removes none. *)
Definition keeps_table {W E : Type} (rows : W -> gset string) (externalId : E -> string)
    (repo : Repository W E) : Prop :=
  (forall ids w, exists found,
      getMany repo ids w = (Js.Returned found, w)
      /\ forall id, id ∈ found <-> id ∈ rows w /\ id ∈ ids)
  /\ (forall es w, exists w',
      upsert repo es w = (Js.Returned tt, w')
      /\ rows w' = rows w ∪ list_to_set (map externalId es)).

(** How many of the ids, each as often as it occurs, pass [f]. *)
Definition count_if (f : string -> bool) (ids : list string) : nat :=
  length (List.filter f ids).

(** The report for [ids] against the table [table]. *)
Definition counts_against (table : gset string) (ids : list string) : Counts :=
  mkCounts (length ids)
    (count_if (fun id => negb (bool_decide (id ∈ table))) ids)
    (count_if (fun id => bool_decide (id ∈ table)) ids).

Section Handlers.

Variable W : Type.
Variable fetchPropositions : M W (list Proposition).
Variable fetchMeetings : M W (list Meeting).
Variable fetchRepresentatives : M W (list Representative).
Variable propositionRepo : Repository W Proposition.
Variable meetingRepo : Repository W Meeting.
Variable representativeRepo : Repository W Representative.

(** What a handler needs of the world for a sync of [ids] from [w]: its
    repository keeps the table [rows], and its provider call returns
    items with these ids, reaching [w1]. *)
Definition sync_of (rows : W -> gset string) (dataType : CivicDataType)
    (ids : list string) (w w1 : W) : Prop :=
  match dataType with
  | PROPOSITIONS =>
      keeps_table rows p_externalId propositionRepo
      /\ exists items, fetchPropositions w = (Js.Returned items, w1)
                       /\ map p_externalId items = ids
  | MEETINGS =>
      keeps_table rows m_externalId meetingRepo
      /\ exists items, fetchMeetings w = (Js.Returned items, w1)
                       /\ map m_externalId items = ids
  | REPRESENTATIVES =>
      keeps_table rows r_externalId representativeRepo
      /\ exists items, fetchRepresentatives w = (Js.Returned items, w1)
                       /\ map r_externalId items = ids
  end.

End Handlers.

(** *** A world that is one table *)

Definition table_repo {E : Type} (externalId : E -> string) : Repository (gset string) E :=
  mkRepository
    (fun ids w => (Js.Returned (List.filter (fun id => bool_decide (id ∈ w)) ids), w))
    (fun es w => (Js.Returned tt, w ∪ list_to_set (map externalId es))).

End RegionNotions.

(** ** Numbers and their decimal text *)

Module JsNumbers.

Local Open Scope string_scope.

Definition code (c : ascii) : Z := Z.of_N (N_of_ascii c).

(** White space and line terminators that [parseInt] skips (the ASCII
    ones). *)
Definition is_space (c : ascii) : bool :=
  ((9 <=? code c) && (code c <=? 13))%Z || (code c =? 32)%Z.

Definition is_digit (c : ascii) : bool := ((48 <=? code c) && (code c <=? 57))%Z.

Fixpoint trim_start (s : string) : string :=
  match s with
  | String c r => if is_space c then trim_start r else s
  | EmptyString => s
  end.

(** The value of the longest prefix of decimal digits, after [acc]. *)
Fixpoint digits_value (acc : Z) (s : string) : Z :=
  match s with
  | String c r => if is_digit c then digits_value (10 * acc + (code c - 48)) r else acc
  | EmptyString => acc
  end.

Definition starts_with_digit (s : string) : bool :=
  match s with
  | String c _ => is_digit c
  | EmptyString => false
  end.

(** [Number.parseInt(s, 10)]: leading white space, an optional sign,
    then the longest run of digits, [NaN] ([None]) if there is none.  The
    result is exact below 2^53, where numbers are integers without
    rounding. *)
Definition parseInt10 (s : string) : option Z :=
  let s := trim_start s in
  let '(sign, s) :=
    match s with
    | String "-" r => (-1, r)
    | String "+" r => (1, r)
    | _ => (1, s)
    end%Z in
  if starts_with_digit s then Some (sign * digits_value 0 s)%Z else None.

Fixpoint all_digits (s : string) : Prop :=
  match s with
  | EmptyString => True
  | String c r => is_digit c = true /\ all_digits r
  end.

(** The decimal numeral of a natural number, least significant digit
    last. *)
Definition digit_char (d : N) : ascii := ascii_of_N (48 + d).

Fixpoint numeral_fuel (fuel : nat) (n : N) (tail : string) : string :=
  match fuel with
  | O => tail
  | S f =>
      let tail' := String (digit_char (n mod 10)) tail in
      if (n <? 10)%N then tail' else numeral_fuel f (n / 10) tail'
  end.

Definition numeral (n : N) : string :=
  numeral_fuel (S (N.to_nat (N.log2 n))) n EmptyString.

(** An integer that a JavaScript number holds exactly
    ([Number.isSafeInteger]). *)
Definition safe_integer (n : Z) : Prop := (- 2 ^ 53 < n < 2 ^ 53)%Z.

(** [String(n)], as a template literal prints a number.  The model is
    the decimal numeral, with a minus sign when negative: that is what
    JavaScript prints for a [safe_integer]; from 10^21 on in size
    JavaScript prints an exponent form, which is not modelled.  What is
    stated about the text of a number is therefore stated for safe
    integers. *)
Definition Number_toString (n : Z) : string :=
  if (n <? 0)%Z then "-" ++ numeral (Z.to_N (- n)) else numeral (Z.to_N n).

End JsNumbers.

(** ** [secrets.config.ts]: the secrets configuration *)

Module SecretsConfig.

Import Js JsNumbers.
Local Open Scope string_scope.

Record Env : Type := mkEnv {
  env_SECRETS_PROVIDER : option string;
  env_AWS_REGION : option string;
  env_SECRETS_CACHE_TTL : option string
}.

(** The registered object; [cacheTTLSeconds] is a number, [None] being
    [NaN]. *)
Record Config : Type := mkConfig {
  provider : string;
  region : option string;
  cacheTTLSeconds : option Z
}.

Definition secrets (env : Env) : Config :=
  mkConfig
    (or_default (env_SECRETS_PROVIDER env) "env")
    (env_AWS_REGION env)
    (parseInt10 (or_default (env_SECRETS_CACHE_TTL env) "300")).

End SecretsConfig.

(** ** [test-utils.ts]: polling *)

Module TestUtils.

Import Js JsNumbers.
Local Open Scope string_scope.

(** [{ timeoutMs?, intervalMs? }], in whole milliseconds. *)
Record Options : Type := mkOptions {
  timeoutMs : option Z;
  intervalMs : option Z
}.

Definition not_met (timeoutMs : Z) : Exn :=
  Error ("Condition not met within " ++ Number_toString timeoutMs ++ "ms").

Section WaitFor.

(** The world has a clock, read by [Date.now()]; [setTimeout ms] is the
    world in which a timer of [ms] milliseconds has fired. *)
Variable W : Type.
Variable Date_now : W -> Z.
Variable setTimeout : Z -> W -> W.
Variable condition : M W bool.

(** The [while] loop, one turn per unit of [fuel]; [None] when the fuel
    does not suffice. *)
Fixpoint waitFor_loop (fuel : nat) (startTime timeoutMs intervalMs : Z) (w : W)
    : option (Outcome unit * W) :=
  match fuel with
  | O => None
  | S f =>
      if (Date_now w - startTime <? timeoutMs)%Z then
        match condition w with
        | (Returned true, w1) => Some (Returned tt, w1)
        | (Returned false, w1) =>
            waitFor_loop f startTime timeoutMs intervalMs (setTimeout intervalMs w1)
        | (Thrown e, w1) => Some (Thrown e, w1)
        end
      else Some (Thrown (not_met timeoutMs), w)
  end.

(** [waitFor(condition, options = {})]. *)
Definition waitFor (fuel : nat) (options : Options) (w : W) : option (Outcome unit * W) :=
  let timeoutMs := default 10000%Z (timeoutMs options) in
  let intervalMs := default 500%Z (intervalMs options) in
  let startTime := Date_now w in
  waitFor_loop fuel startTime timeoutMs intervalMs w.

End WaitFor.

(** *** Counting the polls *)

(** The same condition in a world that also counts how often it was
    asked. *)
Definition counted {W : Type} (condition : M W bool) : M (W * nat) bool :=
  fun s =>
    let '(r, w1) := condition (fst s) in (r, (w1, S (snd s))).

Definition waitFor_counted {W : Type} (Date_now : W -> Z) (setTimeout : Z -> W -> W)
    (condition : M W bool) (fuel : nat) (options : Options) (w : W)
    : option (Outcome unit * (W * nat)) :=
  waitFor (W * nat) (fun s => Date_now (fst s))
    (fun ms s => (setTimeout ms (fst s), snd s)) (counted condition)
    fuel options (w, O).

(** The largest number of polls that fit: [timeoutMs / intervalMs],
    rounded up. *)
Definition polls_that_fit (options : Options) : Z :=
  let timeoutMs := default 10000%Z (timeoutMs options) in
  let intervalMs := default 500%Z (intervalMs options) in
  Z.max 0 ((timeoutMs + intervalMs - 1) / intervalMs).

(** A clock that does not run backwards while the condition is
    evaluated, and a timer that does not fire early. *)
Definition clock_advances {W : Type} (Date_now : W -> Z) (setTimeout : Z -> W -> W)
    (condition : M W bool) : Prop :=
  (forall w, Date_now w <= Date_now (snd (condition w)))%Z
  /\ (forall ms w, Date_now w + ms <= Date_now (setTimeout ms w))%Z.

(** *** A world that is its clock *)

Definition never : M Z bool := fun w => (Returned false, w).

Definition sleep (ms : Z) (w : Z) : Z := (w + ms)%Z.

(** A condition that holds from one second on. *)
Definition after_one_second : M Z bool := fun w => (Returned (1000 <=? w)%Z, w).

End TestUtils.

(** * Properties *)

(** ** The monad *)

Lemma bind_returned {S A B} (m : M S A) (k : A -> M S B) s a s' :
  m s = (Js.Returned a, s') -> bind m k s = k a s'.
Proof. intros H. unfold bind. rewrite H. reflexivity. Qed.

Lemma bind_thrown {S A B} (m : M S A) (k : A -> M S B) s e s' :
  m s = (Js.Thrown e, s') -> bind m k s = (Js.Thrown e, s').
Proof. intros H. unfold bind. rewrite H. reflexivity. Qed.

(** A sequence returns only if its first part returned. *)
Lemma bind_inv {S A B} (m : M S A) (k : A -> M S B) s b s2 :
  bind m k s = (Js.Returned b, s2) ->
  exists a s1, m s = (Js.Returned a, s1) /\ k a s1 = (Js.Returned b, s2).
Proof.
  unfold bind. destruct (m s) as [[a | e] s1]; intros H.
  - exists a, s1. split; [reflexivity | exact H].
  - discriminate H.
Qed.

(** ** Region sync: the counts of a [SyncResult] *)

Section RegionFacts.

Import Js Region.

Variable W : Type.
Variable getSupportedDataTypes : list CivicDataType.
Variable fetchPropositions : M W (list Proposition).
Variable fetchMeetings : M W (list Meeting).
Variable fetchRepresentatives : M W (list Representative).
Variable propositionRepo : Repository W Proposition.
Variable meetingRepo : Repository W Meeting.
Variable representativeRepo : Repository W Representative.
Variable clock : W -> Z * W.

Local Abbreviation syncDataType :=
  (syncDataType W fetchPropositions fetchMeetings fetchRepresentatives
     propositionRepo meetingRepo representativeRepo clock).
Local Abbreviation syncAll :=
  (syncAll W getSupportedDataTypes fetchPropositions fetchMeetings fetchRepresentatives
     propositionRepo meetingRepo representativeRepo clock).
Local Abbreviation syncAll_loop :=
  (syncAll_loop W fetchPropositions fetchMeetings fetchRepresentatives
     propositionRepo meetingRepo representativeRepo clock).
Local Abbreviation syncHandlers :=
  (syncHandlers W fetchPropositions fetchMeetings fetchRepresentatives
     propositionRepo meetingRepo representativeRepo).

(** The two filters of a handler split the items. *)
Lemma filter_split_length {I : Type} (f : I -> bool) (items : list I) :
  (length (List.filter (fun p => negb (f p)) items)
   + length (List.filter f items) = length items)%nat.
Proof.
  induction items as [| x items IH]; simpl.
  - reflexivity.
  - destruct (f x); simpl; lia.
Qed.

Lemma bulk_sync_balanced {I : Type} (fetchItems : M W (list I)) externalId entity
    (repo : Repository W I) w c w' :
  bulk_sync W fetchItems externalId entity repo w = (Returned c, w') -> balanced c.
Proof.
  unfold bulk_sync. intros H.
  apply bind_inv in H as (items & w1 & _ & H).
  destruct (length items =? 0)%nat.
  - inversion H; subst. reflexivity.
  - apply bind_inv in H as (existing & w2 & _ & H).
    apply bind_inv in H as (u & w3 & _ & H).
    inversion H; subst. unfold balanced; simpl.
    symmetry. apply filter_split_length.
Qed.

Lemma syncHandlers_balanced dataType w c w' :
  syncHandlers dataType w = (Returned c, w') -> balanced c.
Proof.
  destruct dataType; simpl; apply bulk_sync_balanced.
Qed.

Lemma now_returns w : exists t w', now W clock w = (Returned t, w').
Proof. unfold now. destruct (clock w) as [t w']. eauto. Qed.

Lemma syncDataType_result dataType w r w' :
  syncDataType dataType w = (Returned r, w') ->
  errors r = [] /\ counts_add_up r /\ Region.dataType r = dataType.
Proof.
  unfold Region.syncDataType. intros H.
  apply bind_inv in H as (c & w1 & Hc & H).
  apply bind_inv in H as (t & w2 & _ & H).
  inversion H; subst. simpl. repeat split.
  apply syncHandlers_balanced in Hc. exact Hc.
Qed.

(** One turn of the loop of [syncAll] always yields a result: the one of
    [syncDataType], or the all-zero record of the [catch] block. *)
Lemma syncAll_turn dataType w :
  exists r w',
    try_catch (syncDataType dataType)
      (fun error =>
         bind (now W clock)
           (fun date => ret (mkSyncResult dataType 0 0 0 [message_of error] date))) w
    = (Returned r, w')
    /\ counts_add_up r.
Proof.
  unfold try_catch.
  destruct (syncDataType dataType w) as [[r | e] w1] eqn:E.
  - exists r, w1. split; [reflexivity |]. apply syncDataType_result in E. tauto.
  - destruct (now_returns w1) as (t & w2 & Ht).
    exists (mkSyncResult dataType 0 0 0 [message_of e] t), w2.
    split; [| reflexivity].
    erewrite bind_returned by exact Ht. reflexivity.
Qed.

Lemma syncAll_loop_total types : forall acc w,
  Forall counts_add_up acc ->
  exists rs w',
    syncAll_loop types acc w = (Returned rs, w')
    /\ Forall counts_add_up rs
    /\ length rs = (length acc + length types)%nat.
Proof.
  induction types as [| dataType types IH]; intros acc w Hacc.
  - exists acc, w. simpl. repeat split; [assumption | lia].
  - destruct (syncAll_turn dataType w) as (r & w1 & Hr & Hbal).
    destruct (IH (acc ++ [r]) w1) as (rs & w2 & Hrs & Hall & Hlen).
    { apply Forall_app. split; [assumption | constructor; [assumption | constructor]]. }
    exists rs, w2. repeat split; [| assumption |].
    + simpl. erewrite bind_returned by exact Hr. exact Hrs.
    + rewrite Hlen, length_app. simpl. lia.
Qed.

(** C9.  Every [SyncResult] that [syncDataType] returns, for each of the
    three data types and whatever the provider and the repositories
    answer, has an empty [errors] list and
    [itemsProcessed = itemsCreated + itemsUpdated]; and [syncAll], which
    always returns, yields one record per supported type, each of which
    satisfies the equation (the records of its [catch] block included). *)
Theorem syncDataType_counts_add_up (w : W) :
  (forall dataType r w',
      syncDataType dataType w = (Returned r, w') ->
      errors r = [] /\ itemsProcessed r = (itemsCreated r + itemsUpdated r)%nat)
  /\ (exists rs w',
        syncAll w = (Returned rs, w')
        /\ length rs = length getSupportedDataTypes
        /\ Forall (fun r => errors r = [] ->
                            itemsProcessed r = (itemsCreated r + itemsUpdated r)%nat) rs).
Proof.
  split.
  - intros dataType r w' H. apply syncDataType_result in H. tauto.
  - destruct (syncAll_loop_total getSupportedDataTypes [] w) as (rs & w' & H & Hall & Hlen).
    { constructor. }
    exists rs, w'. repeat split; [exact H | exact Hlen |].
    eapply Forall_impl; [exact Hall |]. intros r Hr _. exact Hr.
Qed.

End RegionFacts.

(** The service run in the small world: three propositions of which one
    exists already; the failing provider call ends up in [errors]. *)
Example demo_sync_propositions :
  Region.demo_syncDataType Region.PROPOSITIONS 0%nat
  = (Js.Returned (Region.mkSyncResult Region.PROPOSITIONS 3 2 1 [] 1700000000), 1%nat).
Proof. vm_compute. reflexivity. Qed.

Example demo_sync_all :
  fst (Region.demo_syncAll 0%nat)
  = Js.Returned
      [ Region.mkSyncResult Region.PROPOSITIONS 3 2 1 [] 1700000000;
        Region.mkSyncResult Region.MEETINGS 0 0 0 [] 1700000001;
        Region.mkSyncResult Region.REPRESENTATIVES 0 0 0 ["Network error"%string] 1700000002 ].
Proof. vm_compute. reflexivity. Qed.

Lemma syncDataType_counts_add_up_witness :
  Region.errors (Region.mkSyncResult Region.PROPOSITIONS 3 2 1 [] 1700000000) = []
  /\ (3 = 2 + 1)%nat.
Proof.
  exact (proj1 (syncDataType_counts_add_up nat
                  [Region.PROPOSITIONS; Region.MEETINGS; Region.REPRESENTATIVES]
                  (ret Region.demo_propositions) (ret [])
                  (throw (Js.Error "Network error"))
                  (Region.demo_repo Region.Proposition ["prop-2"; "prop-9"]%string)
                  (Region.demo_repo Region.Meeting [])
                  (Region.demo_repo Region.Representative [])
                  Region.demo_clock 0%nat)
           Region.PROPOSITIONS _ _ demo_sync_propositions).
Defined.

(** ** The interceptor: which headers [willSendRequest] sets *)

Section DataSourceFacts.

Import Js DataSource.
Local Open Scope string_scope.

Lemma truthy_false_cases (v : option string) :
  truthy v = false <-> v = None \/ v = Some EmptyString.
Proof.
  destruct v as [[| c s] |]; simpl; split; intros H; auto; try discriminate.
  - destruct H as [H | H]; discriminate H.
Qed.

Lemma truthy_true_inv (v : option string) :
  truthy v = true -> exists c s, v = Some (String c s).
Proof. destruct v as [[| c s] |]; simpl; intros H; try discriminate; eauto. Qed.

(** *** Putting a header *)

Lemma put_header_http_None name stored request :
  http request = None -> put_header name stored request = request.
Proof. unfold put_header. intros ->. reflexivity. Qed.

Lemma put_header_is_Some name stored request :
  is_Some (http (put_header name stored request)) <-> is_Some (http request).
Proof.
  unfold put_header. destruct (http request) as [h |] eqn:E; simpl.
  - split; eauto.
  - rewrite E. reflexivity.
Qed.

Lemma put_header_url name stored request :
  http_url (put_header name stored request) = http_url request.
Proof.
  unfold http_url, put_header. destruct (http request) as [h |] eqn:E; simpl.
  - reflexivity.
  - rewrite E. reflexivity.
Qed.

(** A header that was put is readable under any spelling of its name. *)
Lemma header_of_put_same name stored request h :
  http request = Some h ->
  header_of name (put_header name stored request) = Some stored.
Proof.
  intros E. unfold header_of, put_header, headers_get.
  rewrite E. simpl. apply lookup_insert_eq.
Qed.

Lemma header_of_put_other name name' stored request :
  toLowerCase name <> toLowerCase name' ->
  header_of name' (put_header name stored request) = header_of name' request.
Proof.
  intros Hne. unfold header_of, put_header, headers_get.
  destruct (http request) as [h |] eqn:E; simpl.
  - apply lookup_insert_ne. exact Hne.
  - rewrite E. reflexivity.
Qed.

Lemma user_is_not_hmac : toLowerCase "user" <> toLowerCase "X-HMAC-Auth".
Proof. vm_compute. discriminate. Qed.

(** *** [Headers.set] on the request *)

Variable accepts : string -> option string.

Local Abbreviation set_header := (set_header accepts).
Local Abbreviation after_user := (after_user accepts).
Local Abbreviation signing := (signing accepts).
Local Abbreviation willSendRequest := (willSendRequest accepts).

Lemma set_header_http_None name value request :
  http request = None -> set_header name value request = (Returned tt, request).
Proof. unfold DataSource.set_header. intros ->. reflexivity. Qed.

Lemma set_header_stored name value stored request :
  accepts value = Some stored ->
  set_header name value request = (Returned tt, put_header name stored request).
Proof.
  intros Hv. unfold DataSource.set_header, put_header, headers_set. rewrite Hv.
  destruct (http request); reflexivity.
Qed.

Lemma set_header_rejected name value request h :
  http request = Some h -> accepts value = None ->
  set_header name value request = (Thrown TypeError, request).
Proof.
  intros Hh Hv. unfold DataSource.set_header, headers_set. rewrite Hh, Hv. reflexivity.
Qed.

(** The three ways a call of [set] on the request can go. *)
Lemma set_header_cases name value request :
  set_header name value request = (Returned tt, request) /\ http request = None
  \/ (exists stored, accepts value = Some stored
        /\ set_header name value request = (Returned tt, put_header name stored request))
  \/ (accepts value = None /\ is_Some (http request)
        /\ set_header name value request = (Thrown TypeError, request)).
Proof.
  destruct (accepts value) as [stored |] eqn:Hv.
  - right. left. exists stored. split; [reflexivity | apply set_header_stored, Hv].
  - destruct (http request) as [h |] eqn:Hh.
    + right. right. split; [reflexivity |]. split; [eauto |].
      eapply set_header_rejected; eassumption.
    + left. split; [apply set_header_http_None, Hh | reflexivity].
Qed.

(** *** The two statements *)

Lemma willSendRequest_steps signer context request :
  willSendRequest signer context request
  = bind (after_user context) (fun _ => signing signer) request.
Proof. reflexivity. Qed.

Lemma after_user_none context request :
  truthy (context_user context) = false ->
  after_user context request = (Returned tt, request).
Proof. intros H. unfold DataSource.after_user. rewrite H. reflexivity. Qed.

Lemma after_user_some context request c u :
  context_user context = Some (String c u) ->
  after_user context request = set_header "user" (String c u) request.
Proof. intros H. unfold DataSource.after_user. rewrite H. reflexivity. Qed.

(** The user statement returns with the request as it was or with the
    header put, or throws with the request as it was. *)
Lemma after_user_cases context request :
  after_user context request = (Returned tt, request)
  \/ (exists stored, after_user context request
                     = (Returned tt, put_header "user" stored request))
  \/ after_user context request = (Thrown TypeError, request).
Proof.
  unfold DataSource.after_user. destruct (truthy (context_user context)); [| left; reflexivity].
  destruct (set_header_cases "user" (default EmptyString (context_user context)) request)
    as [[H _] | [(stored & _ & H) | (_ & _ & H)]]; eauto.
Qed.

(** Whatever the user statement does, the URL and the [X-HMAC-Auth]
    header are as before. *)
Lemma after_user_frame context request o r1 :
  after_user context request = (o, r1) ->
  http_url r1 = http_url request
  /\ header_of "X-HMAC-Auth" r1 = header_of "X-HMAC-Auth" request.
Proof.
  intros Hrun.
  destruct (after_user_cases context request) as [H | [(stored & H) | H]];
    rewrite H in Hrun; injection Hrun as <- <-.
  - split; reflexivity.
  - split; [apply put_header_url | apply header_of_put_other, user_is_not_hmac].
  - split; reflexivity.
Qed.

Lemma after_user_http_None context request :
  http request = None -> after_user context request = (Returned tt, request).
Proof.
  intros Hnone. unfold DataSource.after_user.
  destruct (truthy (context_user context)); [| reflexivity].
  apply set_header_http_None, Hnone.
Qed.

(** The signing statement does nothing when one of its three guards is
    false, and is one call of [set] otherwise. *)
Lemma signing_unsigned signer request :
  isEnabled signer && truthy (http_url request)
  && truthy (signGraphQLRequest signer (default EmptyString (http_url request))) = false ->
  signing signer request = (Returned tt, request).
Proof.
  unfold DataSource.signing, bind, gets, ret. intros H.
  destruct (isEnabled signer); simpl in *; [| reflexivity].
  destruct (truthy (http_url request)); simpl in *; [| reflexivity].
  rewrite H. reflexivity.
Qed.

Lemma signing_signed signer request :
  isEnabled signer && truthy (http_url request)
  && truthy (signGraphQLRequest signer (default EmptyString (http_url request))) = true ->
  signing signer request
  = set_header "X-HMAC-Auth"
      (default EmptyString (signGraphQLRequest signer (default EmptyString (http_url request))))
      request.
Proof.
  unfold DataSource.signing, bind, gets, ret. intros H.
  destruct (isEnabled signer); simpl in *; [| discriminate H].
  destruct (truthy (http_url request)); simpl in *; [| discriminate H].
  rewrite H. reflexivity.
Qed.

(** Without a signature the interceptor is its user statement. *)
Lemma willSendRequest_unsigned signer context request :
  isEnabled signer && truthy (http_url request)
  && truthy (signGraphQLRequest signer (default EmptyString (http_url request))) = false ->
  willSendRequest signer context request = after_user context request.
Proof.
  intros H. rewrite willSendRequest_steps. unfold bind.
  destruct (after_user context request) as [[[] | e] r1] eqn:E; [| reflexivity].
  apply signing_unsigned.
  destruct (after_user_frame context request _ _ E) as [-> _]. exact H.
Qed.

(** A request without HTTP part comes back as it was. *)
Lemma willSendRequest_without_http signer context request :
  http request = None -> willSendRequest signer context request = (Returned tt, request).
Proof.
  intros Hnone.
  assert (Hurl : http_url request = None) by (unfold http_url; rewrite Hnone; reflexivity).
  rewrite willSendRequest_unsigned
    by (rewrite Hurl; simpl; rewrite andb_false_r; reflexivity).
  apply after_user_http_None, Hnone.
Qed.

(** Whatever the signing statement does, the [user] header is as the
    user statement left it. *)
Lemma signing_user_header signer request o r2 :
  signing signer request = (o, r2) -> header_of "user" r2 = header_of "user" request.
Proof.
  intros Hrun.
  destruct (isEnabled signer && truthy (http_url request)
            && truthy (signGraphQLRequest signer (default EmptyString (http_url request))))
    eqn:Hguard.
  - rewrite (signing_signed _ _ Hguard) in Hrun.
    destruct (set_header_cases "X-HMAC-Auth"
                (default EmptyString
                   (signGraphQLRequest signer (default EmptyString (http_url request))))
                request)
      as [[H _] | [(stored & _ & H) | (_ & _ & H)]];
      rewrite H in Hrun; injection Hrun as <- <-; try reflexivity.
    apply header_of_put_other. vm_compute. discriminate.
  - rewrite (signing_unsigned _ _ Hguard) in Hrun. injection Hrun as <- <-. reflexivity.
Qed.

Lemma willSendRequest_user_header signer context request :
  header_of "user" (snd (willSendRequest signer context request))
  = header_of "user" (snd (after_user context request)).
Proof.
  rewrite willSendRequest_steps. unfold bind.
  destruct (after_user context request) as [[[] | e] r1]; [| reflexivity].
  cbn [snd]. destruct (signing signer r1) as [o r2] eqn:E. cbn [snd].
  eapply signing_user_header. exact E.
Qed.

(** C3.  When the signer reports itself disabled, [willSendRequest]
    leaves the [X-HMAC-Auth] header of every request as it was (absent
    stays absent), whether it returns or [Headers.set] throws on the
    user identity, and its outcome and the request it leaves are the
    same whatever the signing function would have returned: signing is
    skipped. *)
Theorem willSendRequest_disabled_signer_sets_no_hmac
    (signer : HmacSignerService) (request : GraphQLRequest)
    (context : option GatewayContext) :
  isEnabled signer = false ->
  header_of "X-HMAC-Auth" (snd (willSendRequest signer context request))
  = header_of "X-HMAC-Auth" request
  /\ (forall sign' : string -> option string,
        willSendRequest (mkSigner false sign') context request
        = willSendRequest signer context request).
Proof.
  intros Hoff. split.
  - rewrite willSendRequest_unsigned by (rewrite Hoff; reflexivity).
    destruct (after_user context request) as [o r1] eqn:E.
    apply (after_user_frame context request o r1 E).
  - intros sign'.
    rewrite !willSendRequest_unsigned; [reflexivity | |]; simpl; [rewrite Hoff |]; reflexivity.
Qed.

(** With the secret unset or empty the configured signer is disabled. *)
Lemma configured_signer_disabled secret sign :
  secret = None \/ secret = Some EmptyString ->
  isEnabled (configured_signer secret sign) = false.
Proof. intros H. simpl. apply truthy_false_cases. exact H. Qed.

(** C10.  Whatever the signer (enabled or not): a request without HTTP
    part comes back unchanged, with nothing thrown, and has no
    [X-HMAC-Auth] header; a request whose URL is empty keeps its
    [X-HMAC-Auth] header as it was; and so does a request for whose URL
    the signer returns nothing or the empty string. *)
Theorem willSendRequest_no_url_or_no_credential_sets_no_hmac
    (signer : HmacSignerService) (request : GraphQLRequest)
    (context : option GatewayContext) :
  (http request = None ->
     willSendRequest signer context request = (Returned tt, request)
     /\ header_of "X-HMAC-Auth" (snd (willSendRequest signer context request)) = None)
  /\ (http_url request = Some EmptyString ->
        header_of "X-HMAC-Auth" (snd (willSendRequest signer context request))
        = header_of "X-HMAC-Auth" request)
  /\ (truthy (signGraphQLRequest signer (default EmptyString (http_url request))) = false ->
        header_of "X-HMAC-Auth" (snd (willSendRequest signer context request))
        = header_of "X-HMAC-Auth" request).
Proof.
  assert (Hframe : header_of "X-HMAC-Auth" (snd (after_user context request))
                   = header_of "X-HMAC-Auth" request).
  { destruct (after_user context request) as [o r1] eqn:E.
    apply (after_user_frame context request o r1 E). }
  split; [| split].
  - intros Hnone.
    rewrite (willSendRequest_without_http signer context request Hnone).
    split; [reflexivity |].
    unfold header_of. cbn [snd]. rewrite Hnone. reflexivity.
  - intros Hurl.
    rewrite willSendRequest_unsigned
      by (rewrite Hurl; simpl; rewrite andb_false_r; reflexivity).
    exact Hframe.
  - intros Hsig.
    rewrite willSendRequest_unsigned by (rewrite Hsig; apply andb_false_r).
    exact Hframe.
Qed.

(** C8, as amended.  For a request that has an HTTP part, a non-empty
    user identity in the context that the [Headers] container accepts
    ends up in the header [user] as the container stores it (unchanged,
    when the container stores values as given); an identity that the
    container rejects makes the interceptor throw the container's
    [TypeError] with the request as it was, no header set; with no
    context, no identity or the empty identity the header [user] is left
    as it was; and a request without HTTP part comes back unchanged,
    without any header. *)
Theorem willSendRequest_forwards_user
    (signer : HmacSignerService) (request : GraphQLRequest)
    (context : option GatewayContext) :
  (forall h u stored,
     http request = Some h ->
     context_user context = Some u -> u <> EmptyString ->
     accepts u = Some stored ->
     header_of "user" (snd (willSendRequest signer context request)) = Some stored)
  /\ (forall h u,
        http request = Some h ->
        context_user context = Some u -> u <> EmptyString ->
        accepts u = None ->
        willSendRequest signer context request = (Thrown TypeError, request))
  /\ (truthy (context_user context) = false ->
        header_of "user" (snd (willSendRequest signer context request))
        = header_of "user" request)
  /\ (http request = None ->
        willSendRequest signer context request = (Returned tt, request)
        /\ header_of "user" (snd (willSendRequest signer context request)) = None).
Proof.
  split; [| split; [| split]].
  - intros h u stored Hh Hu Hne Hok. rewrite willSendRequest_user_header.
    destruct u as [| c s]; [congruence |].
    rewrite (after_user_some context request c s Hu).
    rewrite (set_header_stored _ _ stored _ Hok). cbn [snd].
    eapply header_of_put_same. exact Hh.
  - intros h u Hh Hu Hne Hno.
    destruct u as [| c s]; [congruence |].
    rewrite willSendRequest_steps.
    apply bind_thrown. rewrite (after_user_some context request c s Hu).
    eapply set_header_rejected; eassumption.
  - intros Hno. rewrite willSendRequest_user_header.
    rewrite (after_user_none context request Hno). reflexivity.
  - intros Hnone.
    rewrite (willSendRequest_without_http signer context request Hnone).
    split; [reflexivity |].
    unfold header_of. cbn [snd]. rewrite Hnone. reflexivity.
Qed.

End DataSourceFacts.

Lemma willSendRequest_disabled_signer_sets_no_hmac_witness :
  DataSource.isEnabled
    (DataSource.configured_signer (Some EmptyString)
       (DataSource.signGraphQLRequest DataSource.sample_signer)) = false
  /\ DataSource.header_of "X-HMAC-Auth"
       (snd (DataSource.willSendRequest DataSource.single_line
               (DataSource.configured_signer (Some EmptyString)
                  (DataSource.signGraphQLRequest DataSource.sample_signer))
               DataSource.context_u1 DataSource.sample_request))
     = DataSource.header_of "X-HMAC-Auth" DataSource.sample_request.
Proof.
  split; [reflexivity |].
  apply (willSendRequest_disabled_signer_sets_no_hmac DataSource.single_line
           (DataSource.configured_signer (Some EmptyString)
              (DataSource.signGraphQLRequest DataSource.sample_signer))
           DataSource.sample_request DataSource.context_u1).
  reflexivity.
Defined.

(** The enabled sample signer does sign the sample request; the same
    request goes out unsigned when the secret is not configured. *)
Example sample_request_signed :
  DataSource.header_of "X-HMAC-Auth"
    (snd (DataSource.willSendRequest DataSource.single_line DataSource.sample_signer
            DataSource.context_u1 DataSource.sample_request))
  = Some "HMAC signed http://users:3001/graphql"%string
  /\ DataSource.header_of "X-HMAC-Auth"
       (snd (DataSource.willSendRequest DataSource.single_line
               (DataSource.configured_signer None
                  (DataSource.signGraphQLRequest DataSource.sample_signer))
               DataSource.context_u1 DataSource.sample_request))
     = None.
Proof. split; vm_compute; reflexivity. Qed.

Lemma willSendRequest_no_url_or_no_credential_sets_no_hmac_witness :
  DataSource.willSendRequest DataSource.single_line DataSource.sample_signer
    DataSource.context_u1 DataSource.request_without_http
  = (Js.Returned tt, DataSource.request_without_http)
  /\ DataSource.header_of "X-HMAC-Auth"
       (snd (DataSource.willSendRequest DataSource.single_line DataSource.sample_signer
               DataSource.context_u1 DataSource.request_without_url))
     = DataSource.header_of "X-HMAC-Auth" DataSource.request_without_url
  /\ DataSource.header_of "X-HMAC-Auth"
       (snd (DataSource.willSendRequest DataSource.single_line
               (DataSource.mkSigner true (fun _ => Some EmptyString))
               DataSource.context_u1 DataSource.sample_request))
     = DataSource.header_of "X-HMAC-Auth" DataSource.sample_request.
Proof.
  split; [| split].
  - apply (proj1 (willSendRequest_no_url_or_no_credential_sets_no_hmac
                    DataSource.single_line DataSource.sample_signer
                    DataSource.request_without_http DataSource.context_u1)).
    reflexivity.
  - apply (proj1 (proj2 (willSendRequest_no_url_or_no_credential_sets_no_hmac
                           DataSource.single_line DataSource.sample_signer
                           DataSource.request_without_url DataSource.context_u1))).
    reflexivity.
  - apply (proj2 (proj2 (willSendRequest_no_url_or_no_credential_sets_no_hmac
                           DataSource.single_line
                           (DataSource.mkSigner true (fun _ => Some EmptyString))
                           DataSource.sample_request DataSource.context_u1))).
    reflexivity.
Defined.

(** C8 as stated fails: the context carries the identity [u-1], the
    request has no HTTP part, and no [user] header comes out. *)
Lemma willSendRequest_user_dropped_without_http :
  DataSource.context_user DataSource.context_u1 = Some "u-1"%string
  /\ DataSource.header_of "user"
       (snd (DataSource.willSendRequest DataSource.single_line DataSource.sample_signer
               DataSource.context_u1 DataSource.request_without_http))
     <> Some "u-1"%string.
Proof. split; [reflexivity |]. vm_compute. discriminate. Qed.

(** It fails as well on a request with an HTTP part when the container
    rejects the identity: here one with a line break, which would
    otherwise add a header line of its own.  [Headers.set] throws, and
    neither [user] nor [X-HMAC-Auth] is set. *)
Example willSendRequest_user_rejected :
  DataSource.willSendRequest DataSource.single_line DataSource.sample_signer
    DataSource.context_two_lines DataSource.sample_request
  = (Js.Thrown Js.TypeError, DataSource.sample_request)
  /\ DataSource.header_of "user" DataSource.sample_request = None
  /\ DataSource.header_of "X-HMAC-Auth" DataSource.sample_request = None.
Proof. vm_compute. repeat split. Qed.

Lemma willSendRequest_forwards_user_witness :
  DataSource.header_of "user"
    (snd (DataSource.willSendRequest DataSource.single_line DataSource.sample_signer
            DataSource.context_u1 DataSource.sample_request))
  = Some "u-1"%string
  /\ DataSource.willSendRequest DataSource.single_line DataSource.sample_signer
       DataSource.context_two_lines DataSource.sample_request
     = (Js.Thrown Js.TypeError, DataSource.sample_request)
  /\ DataSource.header_of "user"
       (snd (DataSource.willSendRequest DataSource.single_line DataSource.sample_signer
               (Some (DataSource.mkContext None)) DataSource.sample_request))
     = DataSource.header_of "user" DataSource.sample_request.
Proof.
  split; [| split].
  - eapply (proj1 (willSendRequest_forwards_user DataSource.single_line
                     DataSource.sample_signer DataSource.sample_request
                     DataSource.context_u1)).
    + reflexivity.
    + reflexivity.
    + discriminate.
    + reflexivity.
  - eapply (proj1 (proj2 (willSendRequest_forwards_user DataSource.single_line
                            DataSource.sample_signer DataSource.sample_request
                            DataSource.context_two_lines))).
    + reflexivity.
    + reflexivity.
    + discriminate.
    + reflexivity.
  - apply (proj1 (proj2 (proj2 (willSendRequest_forwards_user DataSource.single_line
                                  DataSource.sample_signer DataSource.sample_request
                                  (Some (DataSource.mkContext None)))))).
    reflexivity.
Defined.
(** Published test vectors: FIPS 180-4 ("abc"), RFC 4231 test case 2,
  RFC 4648 section 10. *)
Example sha256_abc :
NodeCrypto.hex (NodeCrypto.sha256 (NodeCrypto.bytes_of "abc"))
= "ba7816bf8f01cfea414140de5dae2223b00361a396177a9cb410ff61f20015ad"%string.
Proof. vm_compute. reflexivity. Qed.

Example hmac_rfc4231_case2 :
NodeCrypto.hex (NodeCrypto.hmac_sha256 (NodeCrypto.bytes_of "Jefe")
                  (NodeCrypto.bytes_of "what do ya want for nothing?"))
= "5bdcc146bf60754e6a042426089575c75a003f089d2739839dec58b964ec3843"%string.
Proof. vm_compute. reflexivity. Qed.

(** The key is hashed first when it is longer than a block. *)
Example hmac_long_key :
  NodeCrypto.hmac_sha256_base64
    "kkkkkkkkkkkkkkkkkkkkkkkkkkkkkkkkkkkkkkkkkkkkkkkkkkkkkkkkkkkkkkkkkkkkkkkkkkkkkkkkkkkkkkkkkkkkkkkkkkkk"
    (String.append "post /graphql"
       (String TestContext.newline "content-type: application/json"))
  = "TsHYYyDBbbnkSK35fsMp7s06r7XeJYx3x4SGj2B9pDA="%string.
Proof. vm_compute. reflexivity. Qed.

(** Another secret gives another signature for the same request. *)
Example hmac_other_secret :
  NodeCrypto.hmac_sha256_base64 "wrong"
    (String.append "post /graphql"
       (String TestContext.newline "content-type: application/json"))
  = "KghZ4byopkkL5ukP+/EPcK6BYm41a8lqxBbh2RGk9v4="%string
  /\ NodeCrypto.hmac_sha256_base64 "wrong"
       (String.append "post /graphql"
          (String TestContext.newline "content-type: application/json"))
     <> NodeCrypto.hmac_sha256_base64 "s3cr3t"
          (String.append "post /graphql"
             (String TestContext.newline "content-type: application/json")).
Proof. vm_compute. split; [reflexivity | discriminate]. Qed.

(** [JSON.stringify] escapes the quote, the backslash and the newline. *)
Example json_quote_escapes :
  TestContext.json_quote
    (String "a" (String TestContext.dquote (String TestContext.backslash
       (String TestContext.newline "b"))))
  = String TestContext.dquote
      (String "a" (String TestContext.backslash (String TestContext.dquote
         (String TestContext.backslash (String TestContext.backslash
            (String TestContext.backslash (String "n" (String "b"
               (String TestContext.dquote EmptyString))))))))).
Proof. vm_compute. reflexivity. Qed.

Example base64_rfc4648 :
NodeCrypto.base64 (NodeCrypto.bytes_of "f") = "Zg=="%string
/\ NodeCrypto.base64 (NodeCrypto.bytes_of "fo") = "Zm8="%string
/\ NodeCrypto.base64 (NodeCrypto.bytes_of "foobar") = "Zm9vYmFy"%string.
Proof. vm_compute. auto. Qed.

(** ** The HMAC header *)

Section HmacHeaderFacts.

Import Js NodeCrypto TestContext.
Local Open Scope string_scope.

Lemma append_cons (c : ascii) (s t : string) : String c s ++ t = String c (s ++ t).
Proof. reflexivity. Qed.

Lemma append_assoc (s t u : string) : (s ++ t) ++ u = s ++ (t ++ u).
Proof.
  induction s as [| c s IH].
  - reflexivity.
  - rewrite !append_cons, IH. reflexivity.
Qed.

Lemma land_255_byte (x : Z) : is_byte (Z.land x 255).
Proof.
  change 255%Z with (Z.ones 8). rewrite Z.land_ones by lia.
  unfold is_byte. apply Z.mod_pos_bound. lia.
Qed.

Lemma be_bytes_bytes n x : Forall is_byte (be_bytes n x).
Proof.
  induction n as [| n IH]; simpl.
  - constructor.
  - constructor; [apply land_255_byte | exact IH].
Qed.

Lemma sha256_bytes msg : Forall is_byte (sha256 msg).
Proof.
  unfold sha256. generalize (blocks (length (pad msg) / 64) H256 (pad msg)).
  intros ws. induction ws as [| x ws IH].
  - constructor.
  - change (flat_map (be_bytes 4) (x :: ws))
      with ((be_bytes 4 x ++ flat_map (be_bytes 4) ws)%list).
    apply Forall_app. split; [apply be_bytes_bytes | exact IH].
Qed.

Lemma hmac_sha256_bytes key msg : Forall is_byte (hmac_sha256 key msg).
Proof. unfold hmac_sha256. apply sha256_bytes. Qed.

Lemma json_escape_plain c s :
  plain c -> json_escape (String c s) = String c (json_escape s).
Proof. intros H. simpl. rewrite H. reflexivity. Qed.

Lemma b64_char_plain (i : Z) : (0 <= i < 64)%Z -> plain (b64_char i).
Proof.
  intros Hi.
  assert (Hall : forallb (fun n => String.eqb (json_escape_char (b64_char (Z.of_nat n)))
                                     (str1 (b64_char (Z.of_nat n))))
                   (seq 0 64) = true) by (vm_compute; reflexivity).
  rewrite forallb_forall in Hall.
  specialize (Hall (Z.to_nat i)).
  rewrite Z2Nat.id in Hall by lia.
  apply String.eqb_eq, Hall, in_seq. lia.
Qed.

Lemma pad_char_plain : plain pad_char.
Proof. reflexivity. Qed.

Lemma shiftr_2_sextet a : is_byte a -> (0 <= Z.shiftr a 2 < 64)%Z.
Proof.
  unfold is_byte. intros Ha. rewrite Z.shiftr_div_pow2 by lia.
  change (2 ^ 2)%Z with 4%Z. split.
  - apply Z.div_pos; lia.
  - apply Z.div_lt_upper_bound; lia.
Qed.

Lemma land_63_sextet x : (0 <= Z.land x 63 < 64)%Z.
Proof.
  change 63%Z with (Z.ones 6). rewrite Z.land_ones by lia.
  apply Z.mod_pos_bound. lia.
Qed.

(** A base64 text needs no escaping. *)
Lemma json_escape_base64_fuel n : forall bs,
  Forall is_byte bs -> json_escape (base64_fuel n bs) = base64_fuel n bs.
Proof.
  induction n as [| n IH]; intros bs Hbs; [reflexivity |].
  destruct bs as [| a [| b [| c rest]]]; [reflexivity | | |];
    cbn [base64_fuel];
    repeat match goal with
           | H : Forall is_byte (_ :: _) |- _ => inversion H; subst; clear H
           end;
    repeat (rewrite json_escape_plain
              by first [ apply pad_char_plain
                       | apply b64_char_plain;
                         first [ apply land_63_sextet | apply shiftr_2_sextet; assumption ] ]);
    try reflexivity.
  rewrite IH by assumption. reflexivity.
Qed.

Lemma json_quote_base64 bs :
  Forall is_byte bs -> json_quote (base64 bs) = quoted (base64 bs).
Proof.
  intros H. unfold json_quote, quoted, base64.
  rewrite json_escape_base64_fuel by exact H. reflexivity.
Qed.

(** C2.  For every method (of ASCII characters, as HTTP methods are:
    there the model's lower-casing is the code's), path and content type
    the header is [HMAC ]
    followed by the JSON text of the object with, in this order,
    [username] (the client id), [algorithm] [hmac-sha256], [headers]
    [@request-target,content-type] and [signature], the base64 text of
    HMAC-SHA256 keyed by the secret over
    [<lower-cased method> <path>\ncontent-type: <contentType>]; the
    content type is [application/json] when left out.  With secret
    [s3cr3t], method [POST] and path [/graphql] the signature is the
    base64 HMAC of [post /graphql\ncontent-type: application/json],
    which is [WYUfYq6SfCvO4VbyL/lTAtnZxK6Jobhmg3UPJqlyCX4=]. *)
Theorem generateHmacHeader_format (env : Env) (method path : string)
    (contentType : option string) :
  is_ascii method = true ->
  let base :=
    toLowerCase method ++ " " ++ path
    ++ String newline ("content-type: " ++ default "application/json" contentType) in
  let signature := base64 (hmac_sha256 (bytes_of (HMAC_SECRET env)) (bytes_of base)) in
  generateHmacHeader env method path contentType
  = "HMAC {" ++ quoted "username" ++ ":" ++ json_quote (HMAC_CLIENT_ID env)
    ++ "," ++ quoted "algorithm" ++ ":" ++ quoted "hmac-sha256"
    ++ "," ++ quoted "headers" ++ ":" ++ quoted "@request-target,content-type"
    ++ "," ++ quoted "signature" ++ ":" ++ quoted signature ++ "}"
  /\ generateHmacHeader (mkEnv None (Some "s3cr3t") (Some "api-gateway"))
       "POST" "/graphql" (Some "application/json")
     = "HMAC {" ++ quoted "username" ++ ":" ++ quoted "api-gateway"
       ++ "," ++ quoted "algorithm" ++ ":" ++ quoted "hmac-sha256"
       ++ "," ++ quoted "headers" ++ ":" ++ quoted "@request-target,content-type"
       ++ "," ++ quoted "signature" ++ ":"
       ++ quoted (hmac_sha256_base64 "s3cr3t"
                    ("post /graphql" ++ String newline "content-type: application/json"))
       ++ "}"
  /\ hmac_sha256_base64 "s3cr3t"
       ("post /graphql" ++ String newline "content-type: application/json")
     = "WYUfYq6SfCvO4VbyL/lTAtnZxK6Jobhmg3UPJqlyCX4=".
Proof.
  intros _ base signature. split; [| split].
  - unfold generateHmacHeader, JSON_stringify, stringify_fields, hmac_sha256_base64.
    fold base. fold signature.
    unfold signature at 1. rewrite json_quote_base64 by apply hmac_sha256_bytes.
    fold signature.
    change (json_quote "username") with (quoted "username").
    change (json_quote "algorithm") with (quoted "algorithm").
    change (json_quote "hmac-sha256") with (quoted "hmac-sha256").
    change (json_quote "headers") with (quoted "headers").
    change (json_quote "@request-target,content-type")
      with (quoted "@request-target,content-type").
    change (json_quote "signature") with (quoted "signature").
    rewrite !append_assoc. reflexivity.
  - vm_compute. reflexivity.
  - vm_compute. reflexivity.
Qed.

End HmacHeaderFacts.

Section HmacHeaderWitness.

Import Js NodeCrypto TestContext.
Local Open Scope string_scope.

Lemma generateHmacHeader_format_witness :
  is_ascii "POST" = true
  /\ generateHmacHeader sample_env "POST" "/graphql" None
     = "HMAC {" ++ quoted "username" ++ ":" ++ json_quote (HMAC_CLIENT_ID sample_env)
       ++ "," ++ quoted "algorithm" ++ ":" ++ quoted "hmac-sha256"
       ++ "," ++ quoted "headers" ++ ":" ++ quoted "@request-target,content-type"
       ++ "," ++ quoted "signature" ++ ":"
       ++ quoted (base64 (hmac_sha256 (bytes_of (HMAC_SECRET sample_env))
                            (bytes_of (toLowerCase "POST" ++ " " ++ "/graphql"
                                       ++ String newline
                                            ("content-type: "
                                             ++ default "application/json" None)))))
       ++ "}".
Proof.
  split; [reflexivity |].
  exact (proj1 (generateHmacHeader_format sample_env "POST" "/graphql" None eq_refl)).
Defined.

End HmacHeaderWitness.

(** ** The regular expression that finds the token *)

Section RegexFacts.

Import Js TestContext.
Local Open Scope string_scope.

Lemma drop_prefix_spec needle : forall hay rest,
  drop_prefix needle hay = Some rest <-> hay = needle ++ rest.
Proof.
  induction needle as [| a needle IH]; intros hay rest; simpl.
  - split; [intros [= ->] | intros ->]; reflexivity.
  - destruct hay as [| b hay].
    + split; [discriminate | intros H; discriminate H].
    + destruct (Ascii.eqb_spec a b) as [-> | Hne].
      * rewrite IH. rewrite append_cons. split; [intros -> | intros [= ->]]; reflexivity.
      * rewrite append_cons. split; [discriminate | intros [= <- _]; congruence].
Qed.

Lemma run_without_semicolon_spec s :
  exists rest,
    s = run_without_semicolon s ++ rest
    /\ no_semicolon (run_without_semicolon s)
    /\ value_ends rest.
Proof.
  induction s as [| c s (rest & Hs & Hno & Hend)]; simpl.
  - exists EmptyString. repeat split. left. reflexivity.
  - destruct (Ascii.eqb_spec c semicolon) as [-> | Hne].
    + exists (String semicolon s). repeat split. right. eauto.
    + exists rest. rewrite append_cons, <- Hs. repeat split; assumption.
Qed.

(** The run stops at once exactly when the text is empty or starts with [;]. *)
Lemma run_without_semicolon_empty s :
  run_without_semicolon s = EmptyString <-> value_ends s.
Proof.
  destruct s as [| c s]; simpl.
  - split; [left; reflexivity | reflexivity].
  - destruct (Ascii.eqb_spec c semicolon) as [-> | Hne].
    + split; [right; eauto | reflexivity].
    + split; [discriminate |]. intros [H | (r & H)]; [discriminate H |].
      injection H as -> _. congruence.
Qed.

Lemma csrf_match_here_Some s v :
  csrf_match_here s = Some v ->
  exists rest,
    s = "csrf-token=" ++ v ++ rest
    /\ v <> EmptyString /\ no_semicolon v /\ value_ends rest.
Proof.
  unfold csrf_match_here.
  destruct (drop_prefix "csrf-token=" s) as [after |] eqn:Hpre; [| discriminate].
  apply drop_prefix_spec in Hpre.
  destruct (run_without_semicolon_spec after) as (rest & Hafter & Hno & Hend).
  destruct (run_without_semicolon after) as [| c r] eqn:Hrun; [discriminate |].
  intros [= <-]. exists rest. rewrite Hpre, Hafter at 1.
  repeat split; [discriminate | apply Hno | apply Hno | exact Hend].
Qed.

Lemma csrf_match_here_None s :
  csrf_match_here s = None <-> ~ value_starts_at EmptyString s.
Proof.
  unfold csrf_match_here, value_starts_at. split.
  - intros Hnone (c & rest & Hs & Hc).
    apply (proj2 (drop_prefix_spec "csrf-token=" s (String c rest))) in Hs.
    rewrite Hs in Hnone. simpl in Hnone.
    destruct (Ascii.eqb_spec c semicolon); [congruence | discriminate].
  - intros Hno.
    destruct (drop_prefix "csrf-token=" s) as [after |] eqn:Hpre; [| reflexivity].
    apply drop_prefix_spec in Hpre.
    destruct (run_without_semicolon after) as [| c r] eqn:Hrun; [reflexivity |].
    exfalso. apply Hno.
    destruct after as [| c' after']; [discriminate Hrun |].
    exists c', after'. split; [exact Hpre |].
    intros ->. simpl in Hrun. discriminate Hrun.
Qed.

Lemma csrf_regex_exec_unfold s :
  csrf_regex_exec s
  = match csrf_match_here s with
    | Some v => Some v
    | None =>
        match s with
        | EmptyString => None
        | String _ r => csrf_regex_exec r
        end
    end.
Proof. destruct s; reflexivity. Qed.

Lemma value_starts_at_cons c pre s :
  value_starts_at (String c pre) (String c s) <-> value_starts_at pre s.
Proof.
  unfold value_starts_at. split; intros (d & rest & H & Hd); exists d, rest; split; try assumption.
  - rewrite append_cons in H. injection H as H. exact H.
  - rewrite append_cons, <- H. reflexivity.
Qed.

Lemma value_starts_at_head pre c s :
  value_starts_at pre (String c s) ->
  pre = EmptyString \/ exists p, pre = String c p /\ value_starts_at p s.
Proof.
  destruct pre as [| a p]; [left; reflexivity |].
  intros H. right. exists p.
  assert (a = c) as ->.
  { destruct H as (d & rest & H & _). rewrite append_cons in H. congruence. }
  split; [reflexivity |]. apply value_starts_at_cons in H. exact H.
Qed.

Lemma value_starts_at_nil pre : ~ value_starts_at pre EmptyString.
Proof.
  intros (d & rest & H & _). destruct pre; discriminate H.
Qed.

(** The matcher is correct: it fails exactly on the headers without a
    cookie value, and otherwise yields the leftmost, longest value. *)
Lemma csrf_regex_exec_None s :
  csrf_regex_exec s = None <-> ~ has_cookie_value s.
Proof.
  induction s as [| c s IH]; rewrite csrf_regex_exec_unfold.
  - change (csrf_match_here EmptyString) with (@None string).
    split; [| reflexivity]. intros _ (pre & H). exact (value_starts_at_nil pre H).
  - destruct (csrf_match_here (String c s)) as [v |] eqn:Hhere.
    + split; [discriminate |]. intros Hno. exfalso. apply Hno.
      exists EmptyString.
      apply csrf_match_here_Some in Hhere as (rest & Hs & Hne & Hsemi & _).
      destruct v as [| d r]; [congruence |].
      exists d, (r ++ rest). split; [rewrite Hs; reflexivity | apply Hsemi].
    + rewrite IH. apply csrf_match_here_None in Hhere.
      split; intros Hno (pre & H); apply Hno.
      * destruct (value_starts_at_head _ _ _ H) as [-> | (p & -> & Hp)];
          [contradiction | exists p; exact Hp].
      * exists (String c pre). apply value_starts_at_cons. exact H.
Qed.

Lemma csrf_regex_exec_Some s : forall v,
  csrf_regex_exec s = Some v -> parsed_token s v.
Proof.
  induction s as [| c s IH]; intros v; rewrite csrf_regex_exec_unfold.
  - change (csrf_match_here EmptyString) with (@None string). discriminate.
  - destruct (csrf_match_here (String c s)) as [v' |] eqn:Hhere.
    + intros [= ->].
      apply csrf_match_here_Some in Hhere as (rest & Hs & Hne & Hno & Hend).
      exists EmptyString, rest. repeat split; try assumption.
      intros pre' _. simpl. lia.
    + intros Hrec. apply IH in Hrec as (pre & rest & Hs & Hne & Hno & Hend & Hleft).
      apply csrf_match_here_None in Hhere.
      exists (String c pre), rest. repeat split; try assumption.
      * rewrite append_cons, <- Hs. reflexivity.
      * intros pre' H.
        destruct (value_starts_at_head _ _ _ H) as [-> | (p & -> & Hp)];
          [contradiction |].
        simpl. apply Hleft in Hp. lia.
Qed.

Lemma parsed_token_has_value hdr tok :
  parsed_token hdr tok -> has_cookie_value hdr.
Proof.
  intros (pre & rest & Hs & Hne & Hno & _).
  destruct tok as [| d r]; [congruence |].
  exists pre, d, (r ++ rest). split; [rewrite Hs; reflexivity | apply Hno].
Qed.

Lemma append_same_length (p1 p2 x y : string) :
  p1 ++ x = p2 ++ y -> String.length p1 = String.length p2 -> p1 = p2 /\ x = y.
Proof.
  revert p2. induction p1 as [| a p1 IH]; intros [| b p2] H Hlen; try discriminate Hlen.
  - split; [reflexivity | exact H].
  - rewrite !append_cons in H. injection H as -> H. injection Hlen as Hlen.
    destruct (IH p2 H Hlen) as [-> ->]. split; reflexivity.
Qed.

(** A value is determined by the text it starts. *)
Lemma value_unique (t1 t2 r1 r2 : string) :
  t1 ++ r1 = t2 ++ r2 ->
  no_semicolon t1 -> no_semicolon t2 -> value_ends r1 -> value_ends r2 ->
  t1 = t2.
Proof.
  revert t2. induction t1 as [| a t1 IH]; intros [| b t2] H H1 H2 E1 E2.
  - reflexivity.
  - exfalso. destruct H2 as [Hb _].
    change (r1 = String b (t2 ++ r2)) in H. subst r1.
    destruct E1 as [E1 | (r & E1)]; [discriminate E1 | congruence].
  - exfalso. destruct H1 as [Ha _].
    change (String a (t1 ++ r1) = r2) in H. subst r2.
    destruct E2 as [E2 | (r & E2)]; [discriminate E2 | congruence].
  - rewrite !append_cons in H. injection H as -> H.
    f_equal. apply IH; [exact H | apply H1 | apply H2 | exact E1 | exact E2].
Qed.

Lemma parsed_token_unique hdr t1 t2 :
  parsed_token hdr t1 -> parsed_token hdr t2 -> t1 = t2.
Proof.
  intros (p1 & r1 & Hs1 & Hne1 & Hno1 & He1 & Hleft1)
         (p2 & r2 & Hs2 & Hne2 & Hno2 & He2 & Hleft2).
  assert (Hat : forall p t r, hdr = p ++ "csrf-token=" ++ t ++ r ->
                  t <> EmptyString -> no_semicolon t -> value_starts_at p hdr).
  { intros p [| d t] r Hs Hne Hno; [congruence |].
    exists d, (t ++ r). split; [exact Hs | apply Hno]. }
  pose proof (Hleft1 p2 (Hat _ _ _ Hs2 Hne2 Hno2)) as L1.
  pose proof (Hleft2 p1 (Hat _ _ _ Hs1 Hne1 Hno1)) as L2.
  rewrite Hs1 in Hs2.
  destruct (append_same_length _ _ _ _ Hs2 ltac:(lia)) as [-> Hrest].
  apply (String.app_inj "csrf-token=") in Hrest.
  exact (value_unique _ _ _ _ Hrest Hno1 Hno2 He1 He2).
Qed.

(** The matcher and its reading agree. *)
Lemma csrf_regex_exec_iff s v :
  csrf_regex_exec s = Some v <-> parsed_token s v.
Proof.
  split; [apply csrf_regex_exec_Some |]. intros Hv.
  destruct (csrf_regex_exec s) as [v' |] eqn:E.
  - f_equal. apply csrf_regex_exec_Some in E. exact (parsed_token_unique _ _ _ E Hv).
  - apply csrf_regex_exec_None in E. exfalso. apply E.
    exact (parsed_token_has_value _ _ Hv).
Qed.

Lemma csrf_regex_exec_nonempty s v :
  csrf_regex_exec s = Some v -> exists c r, v = String c r.
Proof.
  intros H. apply csrf_regex_exec_Some in H as (_ & _ & _ & Hne & _).
  destruct v as [| c r]; [congruence | eauto].
Qed.

(** A header without the cookie name has no cookie value; the converse
    fails, see [csrf_regex_exec_empty_value]. *)
Lemma includes_spec needle : forall hay,
  includes needle hay = true <-> exists pre rest, hay = pre ++ needle ++ rest.
Proof.
  assert (Hstart : forall hay, startsWith needle hay = true <-> exists rest, hay = needle ++ rest).
  { induction needle as [| a needle IH]; intros hay; simpl.
    - split; [eauto | reflexivity].
    - destruct hay as [| b hay]; [split; [discriminate | intros (r & H); discriminate H] |].
      destruct (Ascii.eqb_spec a b) as [-> | Hne].
      + rewrite IH. split; intros (r & H); exists r.
        * rewrite append_cons, <- H. reflexivity.
        * rewrite append_cons in H. congruence.
      + split; [discriminate | intros (r & H)]. rewrite append_cons in H. congruence. }
  induction hay as [| c hay IH].
  - simpl. rewrite orb_false_r, Hstart. split.
    + intros (rest & H). exists EmptyString, rest. exact H.
    + intros (pre & rest & H). destruct pre; [eauto | discriminate H].
  - change (includes needle (String c hay))
      with (startsWith needle (String c hay) || includes needle hay).
    rewrite orb_true_iff, Hstart, IH. split.
    + intros [(rest & H) | (pre & rest & H)].
      * exists EmptyString, rest. exact H.
      * exists (String c pre), rest. rewrite append_cons, <- H. reflexivity.
    + intros (pre & rest & H). destruct pre as [| a pre].
      * left. eauto.
      * right. exists pre, rest. rewrite append_cons in H. congruence.
Qed.

Lemma has_cookie_value_located hdr :
  has_cookie_value hdr -> cookie_name_located hdr = true.
Proof.
  intros (pre & c & rest & H & _). apply includes_spec. eauto.
Qed.

Example csrf_regex_exec_scenario :
  csrf_regex_exec "csrf-token=abc123; Path=/" = Some "abc123".
Proof. reflexivity. Qed.

Example csrf_regex_exec_empty_value :
  cookie_name_located "csrf-token=; Path=/" = true
  /\ csrf_regex_exec "csrf-token=; Path=/" = None.
Proof. split; reflexivity. Qed.

Example csrf_regex_exec_skips_empty_value :
  csrf_regex_exec "csrf-token=; Path=/, xcsrf-token=v2; HttpOnly" = Some "v2".
Proof. reflexivity. Qed.

End RegexFacts.

(** ** The CSRF token cache and [graphqlRequest], against any gateway *)

Section GatewayFacts.

Import Js TestContext.
Local Open Scope string_scope.

Variable G : Type.
Variable respond : G -> Request -> Outcome Response * G.
Variable env : Env.

Local Abbreviation State := (State G).
Local Abbreviation fetch := (fetch G respond).
Local Abbreviation fetchCsrfToken := (fetchCsrfToken G respond env).
Local Abbreviation getCsrfToken := (getCsrfToken G respond env).
Local Abbreviation getCsrfToken_times := (getCsrfToken_times G respond env).
Local Abbreviation graphqlRequest := (graphqlRequest G respond env).
Local Abbreviation after_fetch := (after_fetch G respond).
Local Abbreviation bootstrap_request := (bootstrap_request env).
Local Abbreviation post_request := (post_request env).

Lemma fetch_run req (s : State) :
  fetch req s = (fst (respond (gateway s) req), after_fetch s req).
Proof.
  unfold TestContext.fetch, TestContext.after_fetch.
  destruct (respond (gateway s) req) as [ans g]. reflexivity.
Qed.

Lemma fetchCsrfToken_run (s : State) :
  fetchCsrfToken s
  = (token_of_answer (fst (respond (gateway s) bootstrap_request)),
     after_fetch s bootstrap_request).
Proof.
  unfold TestContext.fetchCsrfToken, bind. rewrite fetch_run.
  destruct (fst (respond (gateway s) bootstrap_request)) as [r | e]; simpl; [| reflexivity].
  destruct (truthy (set_cookie r)); simpl; [| reflexivity].
  destruct (csrf_regex_exec _); reflexivity.
Qed.

Lemma token_of_answer_returned r :
  token_of_answer (Returned r)
  = match csrf_regex_exec (default EmptyString (set_cookie r)) with
    | Some tok => Returned (pair_of_token tok)
    | None =>
        Thrown (Error (if truthy (set_cookie r)
                       then "csrf-token cookie not found in response"
                       else "No set-cookie header in response - CSRF token not received"))
    end.
Proof.
  unfold token_of_answer. destruct (set_cookie r) as [[| c h] |]; reflexivity.
Qed.

(** A pair that a bootstrap produced is truthy in both parts. *)
Lemma token_of_answer_truthy a p :
  token_of_answer a = Returned p ->
  exists c t d u, p = mkPair (String c t) (String d u).
Proof.
  unfold token_of_answer. destruct a as [r | e]; [| discriminate].
  destruct (negb (truthy (set_cookie r))); [discriminate |].
  destruct (csrf_regex_exec _) as [tok |] eqn:E; [| discriminate].
  intros [= <-]. apply csrf_regex_exec_nonempty in E as (c & t & ->).
  exists c, t, "c"%char, ("srf-token=" ++ String c t). reflexivity.
Qed.

Lemma getCsrfToken_hit (s : State) c t d u :
  csrfToken s = Some (String c t) -> csrfCookie s = Some (String d u) ->
  getCsrfToken s = (Returned (mkPair (String c t) (String d u)), s).
Proof.
  intros Ht Hc. unfold TestContext.getCsrfToken, bind, gets. rewrite Ht, Hc. reflexivity.
Qed.

Lemma getCsrfToken_miss (s : State) :
  is_cached s = false ->
  getCsrfToken s
  = match token_of_answer (fst (respond (gateway s) bootstrap_request)) with
    | Returned p => (Returned p, set_cache p (after_fetch s bootstrap_request))
    | Thrown e => (Thrown e, after_fetch s bootstrap_request)
    end.
Proof.
  unfold is_cached, TestContext.getCsrfToken, bind, gets. intros Hmiss.
  destruct (csrfToken s) as [[| c t] |], (csrfCookie s) as [[| d u] |];
    try discriminate Hmiss;
    rewrite fetchCsrfToken_run;
    destruct (token_of_answer _); reflexivity.
Qed.

Lemma is_cached_true (s : State) :
  is_cached s = true ->
  exists c t d u, csrfToken s = Some (String c t) /\ csrfCookie s = Some (String d u).
Proof.
  unfold is_cached. intros H. apply andb_prop in H as [H1 H2].
  apply truthy_true_inv in H1 as (c & t & ->).
  apply truthy_true_inv in H2 as (d & u & ->). eauto 6.
Qed.

(** Whatever happens, [getCsrfToken] adds at most one exchange to the
    log, and it is the bootstrap GET. *)
Lemma getCsrfToken_trace (s s1 : State) o :
  getCsrfToken s = (o, s1) ->
  exists gs, calls s1 = (calls s ++ gs)%list
             /\ Forall (is_bootstrap env) gs /\ (length gs <= 1)%nat.
Proof.
  destruct (is_cached s) eqn:Hc.
  - apply is_cached_true in Hc as (c & t & d & u & Ht & Hk).
    rewrite (getCsrfToken_hit s c t d u Ht Hk). intros [= <- <-].
    exists []. rewrite app_nil_r. repeat split; [constructor | simpl; lia].
  - rewrite (getCsrfToken_miss s Hc).
    destruct (token_of_answer _) as [p | e]; intros [= <- <-];
      eexists [_]; (repeat split; [repeat constructor | simpl; lia]).
Qed.

Lemma posts_bootstraps gs : Forall (is_bootstrap env) gs -> posts gs = [].
Proof.
  induction 1 as [| x gs Hx _ IH]; [reflexivity |].
  unfold posts in *. simpl. unfold is_post at 1. rewrite Hx. simpl. exact IH.
Qed.


Lemma json_run (r : Response) (s : State) :
  json G r s = (body_of (Returned r), s).
Proof. unfold json, body_of. destruct (json_body r); reflexivity. Qed.

Lemma calls_after_fetch (s : State) req :
  calls (after_fetch s req)
  = (calls s ++ [mkExchange req (fst (respond (gateway s) req))])%list.
Proof. reflexivity. Qed.

Lemma csrf_class_403_other_status r :
  (status r =? 403)%Z = false -> csrf_class_403 (Returned r) = false.
Proof. intros H. unfold csrf_class_403. rewrite H. reflexivity. Qed.

Lemma message_includes_CSRF_thrown b e :
  message_includes_CSRF b = Thrown e -> e = TypeError.
Proof.
  unfold message_includes_CSRF. destruct b as [| | | | | fields]; try discriminate.
  - intros [= <-]. reflexivity.
  - destruct (assoc "message" fields) as [[| | | | |] |]; try discriminate;
      intros [= <-]; reflexivity.
Qed.

(** Every call of [graphqlRequest] goes one of the four ways. *)
Lemma graphqlRequest_run q vars extra (s : State) :
  exists new,
    calls (snd (graphqlRequest q vars extra s)) = (calls s ++ new)%list
    /\ Run env q vars extra new (fst (graphqlRequest q vars extra s)).
Proof.
  unfold TestContext.graphqlRequest, bind.
  destruct (getCsrfToken s) as [[csrf | e] s1] eqn:E1;
    apply getCsrfToken_trace in E1 as (gs & Hc1 & Hgs & _).
  2: { exists gs. split; [exact Hc1 |]. exact (NoPost env _ _ _ _ _ gs e Hgs eq_refl eq_refl). }
  rewrite fetch_run.
  set (req1 := post_request csrf q vars extra).
  set (a1 := fst (respond (gateway s1) req1)).
  assert (Hc2 : calls (after_fetch s1 req1) = (calls s ++ gs ++ [mkExchange req1 a1])%list).
  { rewrite calls_after_fetch, Hc1, <- app_assoc. reflexivity. }
  assert (Hone : forall out,
             csrf_class_403 a1 = false ->
             out = body_of a1 \/ out = Thrown TypeError ->
             Run env q vars extra (gs ++ [mkExchange req1 a1])%list out).
  { intros out Hclass Hout. exact (OnePost env _ _ _ _ _ gs csrf a1 Hgs Hclass eq_refl Hout). }
  clearbody a1.
  destruct a1 as [r | e].
  2: { eexists. split; [exact Hc2 |]. apply Hone; [reflexivity | left; reflexivity]. }
  destruct (status r =? 403)%Z eqn:E403.
  2: { rewrite json_run. eexists. split; [exact Hc2 |].
       apply Hone; [apply csrf_class_403_other_status; exact E403 | left; reflexivity]. }
  rewrite json_run. unfold body_of at 1 2.
  destruct (json_body r) as [b |] eqn:Eb.
  2: { eexists. split; [exact Hc2 |]. apply Hone.
       - unfold csrf_class_403. rewrite Eb, andb_false_r. reflexivity.
       - left. unfold body_of. rewrite Eb. reflexivity. }
  unfold lift.
  destruct (message_includes_CSRF b) as [[|] | e] eqn:Em.
  3: { apply message_includes_CSRF_thrown in Em as Hte. subst e.
       eexists. split; [exact Hc2 |]. apply Hone.
       - unfold csrf_class_403. rewrite Eb, Em, andb_false_r. reflexivity.
       - right. reflexivity. }
  2: { eexists. split; [exact Hc2 |]. apply Hone.
       - unfold csrf_class_403. rewrite Eb, Em, andb_false_r. reflexivity.
       - left. unfold body_of. rewrite Eb. reflexivity. }
  assert (Hclass : csrf_class_403 (Returned r) = true).
  { unfold csrf_class_403. rewrite E403, Eb, Em. reflexivity. }
  clear Hone. unfold clearCsrfToken, modify.
  set (s2 := cleared (after_fetch s1 req1)).
  destruct (getCsrfToken s2) as [[newCsrf | e] s3] eqn:E3;
    apply getCsrfToken_trace in E3 as (gs2 & Hc3 & Hgs2 & _);
    change (calls s2) with (calls (after_fetch s1 req1)) in Hc3;
    rewrite Hc2 in Hc3.
  2: { exists (gs ++ [mkExchange req1 (Returned r)] ++ gs2)%list.
       split; [simpl; rewrite Hc3, <- !app_assoc; reflexivity |].
       exact (RetryFailed env _ _ _ _ _ gs gs2 csrf (Returned r) e
                Hgs Hgs2 Hclass eq_refl eq_refl). }
  rewrite fetch_run.
  set (req2 := post_request newCsrf q vars extra).
  set (a2 := fst (respond (gateway s3) req2)).
  assert (Hlast : match a2 with
                  | Returned a => json G a (after_fetch s3 req2)
                  | Thrown e => (Thrown e, after_fetch s3 req2)
                  end = (body_of a2, after_fetch s3 req2)).
  { destruct a2; [apply json_run | reflexivity]. }
  cbv beta iota. rewrite Hlast.
  exists (gs ++ [mkExchange req1 (Returned r)] ++ gs2 ++ [mkExchange req2 a2])%list.
  split.
  - cbn [snd]. rewrite calls_after_fetch, Hc3, <- !app_assoc. reflexivity.
  - exact (Retried env _ _ _ _ _ gs gs2 csrf newCsrf (Returned r) a2
             Hgs Hgs2 Hclass eq_refl eq_refl).
Qed.

Lemma posts_app xs ys : posts (xs ++ ys) = (posts xs ++ posts ys)%list.
Proof. apply List.filter_app. Qed.

Lemma endpoint_bootstraps gs :
  Forall (is_bootstrap env) gs -> Forall (fun x => url (sent x) = endpoint env) gs.
Proof. intros H. eapply Forall_impl; [exact H |]. intros x ->. reflexivity. Qed.

Ltac solve_endpoints :=
  repeat lazymatch goal with
    | |- Forall _ (_ ++ _) => apply Forall_app; split
    | |- Forall _ (_ :: _) => constructor; [reflexivity |]
    | |- Forall _ [] => constructor
    | |- Forall _ _ => apply endpoint_bootstraps; assumption
    end.

(** C5.  A call of [graphqlRequest], against any gateway and from any
    state, adds to the log only requests to the gateway endpoint, at most
    two of them POSTs.  When there are two, the first was answered by a
    CSRF-class 403, the second is the last exchange of the call, and the
    outcome is the body of its answer, whatever the status.  A first POST
    answered by anything else than a CSRF-class 403 is the only one. *)
Theorem graphqlRequest_at_most_two_posts q vars extra (s : State) :
  exists new,
    calls (snd (graphqlRequest q vars extra s)) = (calls s ++ new)%list
    /\ Forall (fun x => url (sent x) = endpoint env) new
    /\ (length (posts new) <= 2)%nat
    /\ (forall x1 x2, posts new = [x1; x2] ->
          csrf_class_403 (answer x1) = true
          /\ last new = Some x2
          /\ fst (graphqlRequest q vars extra s) = body_of (answer x2))
    /\ (forall x1 rest, posts new = x1 :: rest ->
          csrf_class_403 (answer x1) = false -> rest = []).
Proof.
  destruct (graphqlRequest_run q vars extra s) as (new & Hcalls & Hrun).
  exists new. split; [exact Hcalls |].
  destruct Hrun as [gs e Hgs -> Hout
                   | gs csrf a1 Hgs Hclass -> Hout
                   | gs gs2 csrf a1 e Hgs Hgs2 Hclass -> Hout
                   | gs gs2 csrf newCsrf a1 a2 Hgs Hgs2 Hclass -> Hout];
    (split; [solve_endpoints |]);
    rewrite ?posts_app, ?(posts_bootstraps gs), ?(posts_bootstraps gs2) by assumption;
    cbn [posts List.filter is_post sent method post_request app length].
  - split; [lia |]. split; intros; discriminate.
  - split; [lia |]. split; [intros; discriminate |].
    intros x1 rest [= <- <-] _. reflexivity.
  - split; [lia |]. split; [intros; discriminate |].
    intros x1 rest [= <- <-]. simpl. congruence.
  - split; [lia |]. split.
    + intros x1 x2 [= <- <-]. split; [exact Hclass |]. split; [| exact Hout].
      etrans; [| apply (last_snoc _ (gs ++ mkExchange (post_request csrf q vars extra) a1 :: gs2))].
      f_equal. rewrite <- app_assoc. reflexivity.
    + intros x1 rest [= <- <-]. simpl. congruence.
Qed.

(** C7, as amended.  When the gateway answers the bootstrap GET, the
    bootstrap throws its [Error] exactly when the [Set-Cookie] header is
    missing or holds nowhere [csrf-token=] followed by a character other
    than [;]; a located name with an empty value fails too.  Otherwise
    it returns the pair whose token is the text after the leftmost such
    [csrf-token=] up to the next [;] or the end of the header, and whose
    cookie is [csrf-token=] followed by the token.  For the header
    [csrf-token=abc123; Path=/] the pair is [abc123] and
    [csrf-token=abc123]. *)
Theorem fetchCsrfToken_outcome (s : State) (r : Response) (g' : G) :
  respond (gateway s) bootstrap_request = (Returned r, g') ->
  let hdr := default EmptyString (set_cookie r) in
  ((exists msg, fst (fetchCsrfToken s) = Thrown (Error msg))
     <-> set_cookie r = None \/ ~ has_cookie_value hdr)
  /\ (forall p, fst (fetchCsrfToken s) = Returned p <->
        parsed_token hdr (token p) /\ cookie p = "csrf-token=" ++ token p)
  /\ (has_cookie_value hdr -> exists tok, fst (fetchCsrfToken s) = Returned (pair_of_token tok))
  /\ (set_cookie r = Some "csrf-token=abc123; Path=/" ->
        fst (fetchCsrfToken s) = Returned (mkPair "abc123" "csrf-token=abc123")).
Proof.
  intros Hans hdr. rewrite fetchCsrfToken_run, Hans.
  cbn [fst]. rewrite token_of_answer_returned. fold hdr.
  destruct (csrf_regex_exec hdr) as [tok |] eqn:Hexec.
  - pose proof (csrf_regex_exec_Some _ _ Hexec) as Hparsed.
    pose proof (parsed_token_has_value _ _ Hparsed) as Hhas.
    split; [| split; [| split]].
    + split; [intros (msg & H); discriminate H |].
      intros [Hnone | Hno]; [| contradiction].
      subst hdr. rewrite Hnone in Hexec. discriminate Hexec.
    + intros [tok' ck']. cbn [token cookie]. split.
      * intros [= <- <-]. split; [exact Hparsed | reflexivity].
      * intros [Htok ->]. rewrite (parsed_token_unique _ _ _ Htok Hparsed). reflexivity.
    + intros _. exists tok. reflexivity.
    + intros Hcookie. subst hdr. rewrite Hcookie in Hexec.
      vm_compute in Hexec. injection Hexec as <-. reflexivity.
  - pose proof (proj1 (csrf_regex_exec_None _) Hexec) as Hno.
    split; [| split; [| split]].
    + split; [intros _; right; exact Hno | intros _; eauto].
    + intros p. split; [intros H; discriminate H |].
      intros [Htok _]. exfalso. exact (Hno (parsed_token_has_value _ _ Htok)).
    + intros Hhas. contradiction.
    + intros Hcookie. subst hdr. rewrite Hcookie in Hexec.
      vm_compute in Hexec. discriminate Hexec.
Qed.

(** The path through [graphqlRequest] once the pair is there and the
    first POST is answered. *)
Lemma graphqlRequest_first_post q vars extra (s s1 : State) p0 r1 g2 :
  getCsrfToken s = (Returned p0, s1) ->
  respond (gateway s1) (post_request p0 q vars extra) = (Returned r1, g2) ->
  let s2 := after_fetch s1 (post_request p0 q vars extra) in
  graphqlRequest q vars extra s
  = if (status r1 =? 403)%Z then
      match json_body r1 with
      | None => (Thrown SyntaxError, s2)
      | Some b =>
          match message_includes_CSRF b with
          | Thrown e => (Thrown e, s2)
          | Returned false => (Returned b, s2)
          | Returned true =>
              match getCsrfToken (cleared s2) with
              | (Thrown e, s3) => (Thrown e, s3)
              | (Returned p1, s3) =>
                  (body_of (fst (respond (gateway s3) (post_request p1 q vars extra))),
                   after_fetch s3 (post_request p1 q vars extra))
              end
          end
      end
    else (body_of (Returned r1), s2).
Proof.
  intros Hpair Hans s2.
  unfold TestContext.graphqlRequest.
  rewrite (bind_returned _ _ _ _ _ Hpair).
  assert (Hfetch : fetch (post_request p0 q vars extra) s1 = (Returned r1, s2)).
  { rewrite fetch_run, Hans. reflexivity. }
  rewrite (bind_returned _ _ _ _ _ Hfetch).
  destruct (status r1 =? 403)%Z; [| apply json_run].
  unfold bind at 1. rewrite json_run. unfold body_of at 1.
  destruct (json_body r1) as [b |]; [| reflexivity].
  unfold bind at 1, lift.
  destruct (message_includes_CSRF b) as [[|] | e]; [| reflexivity | reflexivity].
  unfold bind at 1, clearCsrfToken, modify.
  unfold bind at 1.
  destruct (getCsrfToken (cleared s2)) as [[p1 | e] s3]; [| reflexivity].
  unfold bind. rewrite fetch_run.
  destruct (fst (respond (gateway s3) (post_request p1 q vars extra))) as [r2 | e] eqn:E2;
    [apply json_run | reflexivity].
Qed.

End GatewayFacts.

(** ** [graphqlRequest] against the mocked gateway *)

Section MockFacts.

Import Js TestContext.
Local Open Scope string_scope.

Variable env : Env.

Local Abbreviation getCsrfToken := (getCsrfToken Mock mock_respond env).
Local Abbreviation graphqlRequest := (graphqlRequest Mock mock_respond env).
Local Abbreviation after_fetch := (after_fetch Mock mock_respond).
Local Abbreviation bootstrap_request := (bootstrap_request env).
Local Abbreviation post_request := (post_request env).

Lemma mock_post (g : Mock) a rest p q vars extra :
  post_script g = a :: rest ->
  mock_respond g (post_request p q vars extra) = (a, mkMock (get_script g) rest).
Proof. intros H. unfold mock_respond. simpl. rewrite H. reflexivity. Qed.

Lemma mock_get (g : Mock) a rest :
  get_script g = a :: rest ->
  mock_respond g bootstrap_request = (a, mkMock rest (post_script g)).
Proof. intros H. unfold mock_respond. simpl. rewrite H. reflexivity. Qed.

Lemma mock_get_exhausted (g : Mock) :
  get_script g = [] ->
  mock_respond g bootstrap_request = (Thrown (NetworkError "no scripted answer"), g).
Proof. intros H. unfold mock_respond. simpl. rewrite H. reflexivity. Qed.

Lemma bootstraps_ok_S n script :
  bootstraps_ok (S n) script = true ->
  exists a rest p,
    script = a :: rest /\ token_of_answer a = Returned p /\ bootstraps_ok n rest = true.
Proof.
  unfold bootstraps_ok. destruct script as [| a rest]; [discriminate |].
  cbn [length take forallb]. intros H.
  apply andb_prop in H as [Hlen H]. apply andb_prop in H as [Ha Hrest].
  unfold good_bootstrap in Ha. destruct (token_of_answer a) as [p |] eqn:Hp; [| discriminate].
  exists a, rest, p. split; [reflexivity |]. split; [exact Hp |].
  rewrite Hrest, andb_true_r.
  apply Nat.leb_le. apply Nat.leb_le in Hlen. lia.
Qed.

Lemma methods_bootstraps boot :
  Forall (is_bootstrap env) boot -> methods boot = repeat GET (length boot).
Proof.
  induction 1 as [| x boot Hx _ IH]; [reflexivity |].
  unfold methods in *. simpl. rewrite Hx, IH. reflexivity.
Qed.

Lemma new_calls_app {A : Type} (s : State Mock) (run : Outcome A * State Mock) new :
  calls (snd run) = (calls s ++ new)%list -> new_calls s run = new.
Proof. intros H. unfold new_calls. rewrite H. apply drop_app_length. Qed.

(** Acquiring the pair at the start of a call, when the script provides
    for the bootstrap that may be needed. *)
Lemma mock_acquire (s : State Mock) n :
  bootstraps_ok (first_bootstraps s + n) (get_script (gateway s)) = true ->
  exists p0 s1 boot,
    getCsrfToken s = (Returned p0, s1)
    /\ calls s1 = (calls s ++ boot)%list
    /\ Forall (is_bootstrap env) boot
    /\ length boot = first_bootstraps s
    /\ post_script (gateway s1) = post_script (gateway s)
    /\ bootstraps_ok n (get_script (gateway s1)) = true.
Proof.
  unfold first_bootstraps. destruct (is_cached s) eqn:Hc; intros Hok.
  - apply is_cached_true in Hc as (c & t & d & u & Ht & Hk).
    exists (mkPair (String c t) (String d u)), s, [].
    rewrite app_nil_r. repeat split; [| constructor | exact Hok].
    apply getCsrfToken_hit; assumption.
  - apply bootstraps_ok_S in Hok as (a & rest & p & Hscript & Hp & Hrest).
    exists p, (set_cache p (after_fetch s bootstrap_request)),
      [mkExchange bootstrap_request a].
    rewrite (getCsrfToken_miss _ _ _ s Hc).
    rewrite (mock_get _ _ _ Hscript). cbn [fst snd]. rewrite Hp.
    unfold set_cache, TestContext.after_fetch. cbn [calls gateway].
    rewrite (mock_get _ _ _ Hscript).
    repeat split; [repeat constructor | exact Hrest].
Qed.

(** A call up to the answer to its first POST. *)
Lemma mock_first_post q vars extra (s : State Mock) r1 more n :
  post_script (gateway s) = Returned r1 :: more ->
  bootstraps_ok (first_bootstraps s + n) (get_script (gateway s)) = true ->
  exists p0 boot s2,
    Forall (is_bootstrap env) boot
    /\ length boot = first_bootstraps s
    /\ calls s2 = (calls s ++ boot
                     ++ [mkExchange (post_request p0 q vars extra) (Returned r1)])%list
    /\ post_script (gateway s2) = more
    /\ bootstraps_ok n (get_script (gateway s2)) = true
    /\ graphqlRequest q vars extra s
       = if (status r1 =? 403)%Z then
           match json_body r1 with
           | None => (Thrown SyntaxError, s2)
           | Some b =>
               match message_includes_CSRF b with
               | Thrown e => (Thrown e, s2)
               | Returned false => (Returned b, s2)
               | Returned true =>
                   match getCsrfToken (cleared s2) with
                   | (Thrown e, s3) => (Thrown e, s3)
                   | (Returned p1, s3) =>
                       (body_of (fst (mock_respond (gateway s3)
                                        (post_request p1 q vars extra))),
                        after_fetch s3 (post_request p1 q vars extra))
                   end
               end
           end
         else (body_of (Returned r1), s2).
Proof.
  intros Hposts Hok.
  destruct (mock_acquire s n Hok) as (p0 & s1 & boot & Hpair & Hcalls & Hboot & Hlen & Hp & Hg).
  rewrite Hposts in Hp.
  pose proof (mock_post (gateway s1) _ _ p0 q vars extra Hp) as Hans.
  exists p0, boot, (after_fetch s1 (post_request p0 q vars extra)).
  unfold TestContext.after_fetch at 1 2 3. cbn [calls gateway].
  rewrite Hans, Hcalls, <- app_assoc.
  repeat split; try assumption.
  exact (graphqlRequest_first_post _ _ env q vars extra s s1 p0 r1 _ Hpair Hans).
Qed.

(** The bootstrap for the fresh pair, from a state whose cache is empty. *)
Lemma mock_fresh_pair (s2 : State Mock) :
  bootstraps_ok 1 (get_script (gateway s2)) = true ->
  exists a rest p1,
    get_script (gateway s2) = a :: rest
    /\ token_of_answer a = Returned p1
    /\ getCsrfToken (cleared s2)
       = (Returned p1,
          mkState (Some (token p1)) (Some (cookie p1))
            (mkMock rest (post_script (gateway s2)))
            (calls s2 ++ [mkExchange bootstrap_request a])%list).
Proof.
  intros Hok. apply bootstraps_ok_S in Hok as (a & rest & p1 & Hscript & Hp & _).
  exists a, rest, p1. split; [exact Hscript |]. split; [exact Hp |].
  rewrite (getCsrfToken_miss _ _ _ (cleared s2) eq_refl).
  change (gateway (cleared s2)) with (gateway s2).
  rewrite (mock_get _ _ _ Hscript). cbn [fst]. rewrite Hp.
  unfold set_cache, TestContext.after_fetch. cbn [calls gateway cleared].
  rewrite (mock_get _ _ _ Hscript). reflexivity.
Qed.

(** From a state whose cache is empty, [getCsrfToken] always talks to the
    gateway once. *)
Lemma getCsrfToken_cleared_calls (s2 : State Mock) :
  exists x, calls (snd (getCsrfToken (cleared s2))) = (calls s2 ++ [x])%list.
Proof.
  rewrite (getCsrfToken_miss _ _ _ (cleared s2) eq_refl).
  destruct (token_of_answer _); eexists; reflexivity.
Qed.

Lemma message_includes_CSRF_string fields m :
  assoc "message" fields = Some (JStr m) ->
  message_includes_CSRF (JObj fields) = Returned (includes "CSRF" m).
Proof. intros H. unfold message_includes_CSRF. rewrite H. reflexivity. Qed.

(** C1, as amended.  The mocked gateway answers the first POST with a
    403 whose JSON body has a [message] containing [CSRF], the second
    POST with a response that carries a JSON body (whatever its status),
    and its bootstrap GETs with a [csrf-token] cookie.  Then one call of
    [graphqlRequest] returns the body of the second POST and performs
    exactly two POSTs, with one bootstrap GET between them for the fresh
    pair and one more bootstrap GET at the start when no pair was cached:
    three or four HTTP calls in all.  The second POST carries the fresh
    pair, which is also what the cache holds afterwards. *)
Theorem graphqlRequest_csrf_403_retried_once q vars extra (s : State Mock)
    (r1 r2 : Response) (fields : list (string * Json)) (m : string) (b2 : Json)
    (more : list (Outcome Response)) :
  post_script (gateway s) = Returned r1 :: Returned r2 :: more ->
  status r1 = 403%Z ->
  json_body r1 = Some (JObj fields) ->
  assoc "message" fields = Some (JStr m) ->
  includes "CSRF" m = true ->
  json_body r2 = Some b2 ->
  bootstraps_ok (first_bootstraps s + 1) (get_script (gateway s)) = true ->
  let run := graphqlRequest q vars extra s in
  let new := new_calls s run in
  fst run = Returned b2
  /\ calls (snd run) = (calls s ++ new)%list
  /\ methods new = (repeat GET (first_bootstraps s) ++ [POST; GET; POST])%list
  /\ map answer (posts new) = [Returned r1; Returned r2]
  /\ length new = (first_bootstraps s + 3)%nat
  /\ exists a p1,
       new !! (first_bootstraps s + 1)%nat = Some (mkExchange bootstrap_request a)
       /\ token_of_answer a = Returned p1
       /\ sent <$> last new = Some (post_request p1 q vars extra)
       /\ csrfToken (snd run) = Some (token p1)
       /\ csrfCookie (snd run) = Some (cookie p1).
Proof.
  intros Hposts H403 Hbody Hmsg Hcsrf Hbody2 Hok run new.
  destruct (mock_first_post q vars extra s r1 _ 1 Hposts Hok)
    as (p0 & boot & s2 & Hboot & Hlen & Hcalls2 & Hposts2 & Hok2 & Hrun).
  rewrite H403, Hbody, (message_includes_CSRF_string _ _ Hmsg), Hcsrf in Hrun.
  cbn [Z.eqb Pos.eqb] in Hrun.
  destruct (mock_fresh_pair s2 Hok2) as (a & rest & p1 & Hgets & Hp1 & Hfresh).
  rewrite Hfresh in Hrun. cbn [gateway] in Hrun.
  assert (Hans2 : mock_respond (mkMock rest (post_script (gateway s2)))
                    (post_request p1 q vars extra)
                  = (Returned r2, mkMock rest more)).
  { apply (mock_post (mkMock rest (post_script (gateway s2)))). exact Hposts2. }
  rewrite Hans2 in Hrun. cbn [fst] in Hrun.
  unfold TestContext.after_fetch in Hrun. cbn [gateway calls csrfToken csrfCookie] in Hrun.
  rewrite Hans2 in Hrun. cbn [fst snd] in Hrun.
  unfold body_of in Hrun. rewrite Hbody2 in Hrun.
  set (x1 := mkExchange (post_request p0 q vars extra) (Returned r1)) in *.
  set (xg := mkExchange bootstrap_request a) in *.
  set (x2 := mkExchange (post_request p1 q vars extra) (Returned r2)) in *.
  assert (Hnew : new = (boot ++ [x1; xg; x2])%list).
  { apply new_calls_app. fold run in Hrun. rewrite Hrun. cbn [snd calls].
    rewrite Hcalls2, <- !app_assoc. reflexivity. }
  fold run in Hrun. rewrite Hnew, Hrun. cbn [fst snd calls csrfToken csrfCookie].
  split; [reflexivity |].
  split; [rewrite Hcalls2, <- !app_assoc; reflexivity |].
  split.
  { unfold methods. rewrite map_app. fold (methods boot).
    rewrite (methods_bootstraps boot Hboot), Hlen. reflexivity. }
  split.
  { rewrite posts_app, (posts_bootstraps env boot Hboot). reflexivity. }
  split; [rewrite length_app, Hlen; simpl; lia |].
  exists a, p1. repeat split.
  - rewrite lookup_app_r by lia. rewrite Hlen.
    replace (first_bootstraps s + 1 - first_bootstraps s)%nat with 1%nat by lia.
    reflexivity.
  - exact Hp1.
  - change (boot ++ [x1; xg; x2])%list with (boot ++ ([x1; xg] ++ [x2]))%list.
    rewrite app_assoc, last_snoc. reflexivity.
Qed.

(** C4, as amended.  The mocked gateway answers the first POST with a
    403 whose JSON body is an object, and its bootstrap GET (needed only
    when no pair is cached) with a [csrf-token] cookie.  If the body has
    no [message], or a [message] string without [CSRF], the call returns
    that body after exactly one POST, preceded by the bootstrap GET when
    no pair was cached: one or two HTTP calls.  And for a [message]
    string, further HTTP calls follow the first POST (the retry) exactly
    when the string contains [CSRF]. *)
Theorem graphqlRequest_other_403_not_retried q vars extra (s : State Mock)
    (r1 : Response) (fields : list (string * Json)) (more : list (Outcome Response)) :
  post_script (gateway s) = Returned r1 :: more ->
  status r1 = 403%Z ->
  json_body r1 = Some (JObj fields) ->
  bootstraps_ok (first_bootstraps s) (get_script (gateway s)) = true ->
  let run := graphqlRequest q vars extra s in
  let new := new_calls s run in
  calls (snd run) = (calls s ++ new)%list
  /\ (assoc "message" fields = None
      \/ (exists m, assoc "message" fields = Some (JStr m) /\ includes "CSRF" m = false) ->
      fst run = Returned (JObj fields)
      /\ methods new = (repeat GET (first_bootstraps s) ++ [POST])%list
      /\ map answer (posts new) = [Returned r1]
      /\ length new = (first_bootstraps s + 1)%nat)
  /\ (forall m, assoc "message" fields = Some (JStr m) ->
        ((first_bootstraps s + 1 < length new)%nat <-> includes "CSRF" m = true)).
Proof.
  intros Hposts H403 Hbody Hok run new.
  rewrite <- (Nat.add_0_r (first_bootstraps s)) in Hok.
  destruct (mock_first_post q vars extra s r1 _ 0 Hposts Hok)
    as (p0 & boot & s2 & Hboot & Hlen & Hcalls2 & _ & _ & Hrun).
  rewrite H403, Hbody in Hrun. cbn [Z.eqb Pos.eqb] in Hrun. fold run in Hrun.
  set (x1 := mkExchange (post_request p0 q vars extra) (Returned r1)) in *.
  assert (Hgrow : calls (snd run) = (calls s ++ new)%list).
  { destruct (graphqlRequest_run Mock mock_respond env q vars extra s) as (new' & Hnew' & _).
    fold run in Hnew'. unfold new. rewrite (new_calls_app s run new' Hnew'). exact Hnew'. }
  assert (Hstop : message_includes_CSRF (JObj fields) = Returned false ->
                  fst run = Returned (JObj fields) /\ new = (boot ++ [x1])%list).
  { intros Hno. rewrite Hno in Hrun. rewrite Hrun. split; [reflexivity |].
    apply new_calls_app. rewrite Hrun. cbn [snd]. rewrite Hcalls2. reflexivity. }
  assert (Hshape : forall X, new = (boot ++ [x1])%list ->
             X = Returned (JObj fields) ->
             X = Returned (JObj fields)
             /\ methods new = (repeat GET (first_bootstraps s) ++ [POST])%list
             /\ map answer (posts new) = [Returned r1]
             /\ length new = (first_bootstraps s + 1)%nat).
  { intros X -> ->. split; [reflexivity |]. split; [| split].
    - unfold methods. rewrite map_app. fold (methods boot).
      rewrite (methods_bootstraps boot Hboot), Hlen. reflexivity.
    - rewrite posts_app, (posts_bootstraps env boot Hboot). reflexivity.
    - rewrite length_app, Hlen. reflexivity. }
  split; [exact Hgrow |]. split.
  - intros [Hnone | (m & Hm & Hno)].
    + destruct Hstop as [Hout Hnew].
      { unfold message_includes_CSRF. rewrite Hnone. reflexivity. }
      apply Hshape; assumption.
    + destruct Hstop as [Hout Hnew].
      { rewrite (message_includes_CSRF_string _ _ Hm), Hno. reflexivity. }
      apply Hshape; assumption.
  - intros m Hm. rewrite (message_includes_CSRF_string _ _ Hm) in Hrun, Hstop.
    destruct (includes "CSRF" m) eqn:Hinc.
    + split; [reflexivity | intros _].
      destruct (getCsrfToken_cleared_calls s2) as (xg & Hxg).
      destruct (getCsrfToken (cleared s2)) as [[p1 | e] s3] eqn:E3; cbn [snd] in Hxg.
      * assert (Hnew : new = (boot ++ [x1; xg;
                   mkExchange (post_request p1 q vars extra)
                     (fst (mock_respond (gateway s3) (post_request p1 q vars extra)))])%list).
        { apply new_calls_app. rewrite Hrun. cbn [snd].
          unfold TestContext.after_fetch. cbn [calls].
          rewrite Hxg, Hcalls2, <- !app_assoc. reflexivity. }
        rewrite Hnew, length_app, Hlen. simpl. lia.
      * assert (Hnew : new = (boot ++ [x1; xg])%list).
        { apply new_calls_app. rewrite Hrun. cbn [snd].
          rewrite Hxg, Hcalls2, <- !app_assoc. reflexivity. }
        rewrite Hnew, length_app, Hlen. simpl. lia.
    + split; [| discriminate]. intros Hlt.
      destruct Hstop as [_ Hnew]; [reflexivity |].
      rewrite Hnew, length_app, Hlen in Hlt. simpl in Hlt. lia.
Qed.

End MockFacts.

(** ** The statements above at the sample gateways *)

Section Samples.

Import Js TestContext.
Local Open Scope string_scope.

(** A cold process against the retrying gateway: bootstrap, POST (403),
    bootstrap for the fresh pair, POST (200). *)
Example run_cold_retry :
  fst (run_sample (cold retry_gateway)) = body_of (Returned ok_200)
  /\ methods (calls (snd (run_sample (cold retry_gateway)))) = [GET; POST; GET; POST]
  /\ csrfToken (snd (run_sample (cold retry_gateway))) = Some "def456".
Proof. vm_compute. auto. Qed.

(** The retry is not retried, even when it meets a CSRF-class 403 again. *)
Example run_stubborn :
  fst (run_sample (cold stubborn_gateway)) = body_of (Returned csrf_403)
  /\ methods (calls (snd (run_sample (cold stubborn_gateway)))) = [GET; POST; GET; POST]
  /\ post_script (gateway (snd (run_sample (cold stubborn_gateway)))) = [Returned ok_200].
Proof. vm_compute. auto. Qed.

(** The retry condition on bodies whose [message] is not a string: an
    array is searched for the element [CSRF], a number has no [includes]
    to call, and [null] for a body cannot be read. *)
Example message_includes_CSRF_other_shapes :
  message_includes_CSRF (JObj [("message", JArr [JStr "CSRF"])]) = Returned true
  /\ message_includes_CSRF (JObj [("message", JArr [JStr "Invalid CSRF token"])])
     = Returned false
  /\ message_includes_CSRF (JObj [("message", JNum 403)]) = Thrown TypeError
  /\ message_includes_CSRF (JObj [("error", JStr "CSRF")]) = Returned false
  /\ message_includes_CSRF (JStr "CSRF") = Returned false
  /\ message_includes_CSRF JNull = Thrown TypeError.
Proof. repeat split. Qed.

(** C1 as stated fails: the gateway answers the first POST with a
    CSRF-class 403 and the second with 200, the pair is cached, and the
    call makes three HTTP calls, not two (four from a cold cache). *)
Lemma graphqlRequest_csrf_retry_takes_three_calls :
  post_script retry_gateway = [Returned csrf_403; Returned ok_200]
  /\ csrf_class_403 (Returned csrf_403) = true
  /\ status ok_200 = 200%Z
  /\ fst (run_sample (warm retry_gateway)) = body_of (Returned ok_200)
  /\ methods (calls (snd (run_sample (warm retry_gateway)))) = [POST; GET; POST]
  /\ length (calls (snd (run_sample (warm retry_gateway)))) <> 2%nat.
Proof. vm_compute. repeat split; discriminate. Qed.

Lemma graphqlRequest_csrf_403_retried_once_witness :
  fst (run_sample (cold retry_gateway)) = Returned (JObj [("data", JObj [("ping", JStr "pong")])])
  /\ methods (new_calls (cold retry_gateway) (run_sample (cold retry_gateway)))
     = [GET; POST; GET; POST]
  /\ length (new_calls (cold retry_gateway) (run_sample (cold retry_gateway))) = 4%nat.
Proof.
  destruct (graphqlRequest_csrf_403_retried_once sample_env sample_query None None
              (cold retry_gateway) csrf_403 ok_200
              [("statusCode", JNum 403); ("message", JStr "Invalid CSRF token")]
              "Invalid CSRF token" (JObj [("data", JObj [("ping", JStr "pong")])]) []
              eq_refl eq_refl eq_refl eq_refl eq_refl eq_refl eq_refl)
    as (Hout & _ & Hmethods & _ & Hlen & _).
  split; [exact Hout |]. split; [exact Hmethods | exact Hlen].
Defined.

(** C4 as stated fails: the first call of a process meets a 403 that does
    not mention CSRF; it is not retried, yet two HTTP calls were made,
    the bootstrap GET and the POST. *)
Lemma graphqlRequest_cold_403_takes_two_calls :
  post_script forbidden_gateway = [Returned forbidden_403; Returned ok_200]
  /\ status forbidden_403 = 403%Z
  /\ message_includes_CSRF (JObj [("statusCode", JNum 403); ("message", JStr "Forbidden resource")])
     = Returned false
  /\ fst (run_sample (cold forbidden_gateway)) = body_of (Returned forbidden_403)
  /\ methods (calls (snd (run_sample (cold forbidden_gateway)))) = [GET; POST]
  /\ length (calls (snd (run_sample (cold forbidden_gateway)))) <> 1%nat.
Proof. vm_compute. repeat split; discriminate. Qed.

Lemma graphqlRequest_other_403_not_retried_witness :
  fst (run_sample (cold forbidden_gateway))
  = Returned (JObj [("statusCode", JNum 403); ("message", JStr "Forbidden resource")])
  /\ methods (new_calls (cold forbidden_gateway) (run_sample (cold forbidden_gateway)))
     = [GET; POST]
  /\ methods (new_calls (warm forbidden_gateway) (run_sample (warm forbidden_gateway)))
     = [POST].
Proof.
  destruct (graphqlRequest_other_403_not_retried sample_env sample_query None None
              (cold forbidden_gateway) forbidden_403
              [("statusCode", JNum 403); ("message", JStr "Forbidden resource")]
              [Returned ok_200] eq_refl eq_refl eq_refl eq_refl)
    as (_ & Hcold & _).
  destruct (graphqlRequest_other_403_not_retried sample_env sample_query None None
              (warm forbidden_gateway) forbidden_403
              [("statusCode", JNum 403); ("message", JStr "Forbidden resource")]
              [Returned ok_200] eq_refl eq_refl eq_refl eq_refl)
    as (_ & Hwarm & _).
  destruct Hcold as (Hout & Hmethods & _).
  { right. exists "Forbidden resource". split; reflexivity. }
  destruct Hwarm as (_ & Hmethods' & _).
  { right. exists "Forbidden resource". split; reflexivity. }
  split; [exact Hout |]. split; [exact Hmethods | exact Hmethods'].
Defined.

(** C7 as stated fails: the response carries a [Set-Cookie] header, the
    name [csrf-token] is in it, and the bootstrap fails all the same,
    because the value is empty. *)
Lemma fetchCsrfToken_fails_on_empty_cookie_value :
  fst (mock_respond empty_cookie_gateway (bootstrap_request sample_env)) = empty_cookie_answer
  /\ empty_cookie_answer
     = Returned (mkResponse 200 (Some "csrf-token=; Path=/") None)
  /\ cookie_name_located "csrf-token=; Path=/" = true
  /\ fst (fetchCsrfToken Mock mock_respond sample_env (cold empty_cookie_gateway))
     = Thrown (Error "csrf-token cookie not found in response").
Proof. vm_compute. repeat split. Qed.

Lemma fetchCsrfToken_outcome_witness :
  fst (fetchCsrfToken Mock mock_respond sample_env (cold retry_gateway))
  = Returned (mkPair "abc123" "csrf-token=abc123").
Proof.
  refine (proj2 (proj2 (proj2
            (fetchCsrfToken_outcome Mock mock_respond sample_env (cold retry_gateway)
               (mkResponse 200 (Some "csrf-token=abc123; Path=/") None)
               (mkMock [fresh_cookie_answer] [Returned csrf_403; Returned ok_200])
               eq_refl))) eq_refl).
Defined.

Example getCsrfToken_first_call :
  getCsrfToken Mock mock_respond sample_env (cold retry_gateway)
  = (Returned (mkPair "abc123" "csrf-token=abc123"),
     mkState (Some "abc123") (Some "csrf-token=abc123")
       (mkMock [fresh_cookie_answer] [Returned csrf_403; Returned ok_200])
       [mkExchange (bootstrap_request sample_env) cookie_answer]).
Proof. vm_compute. reflexivity. Qed.


End Samples.

(** * Further properties of the sources *)

(** ** The CSRF cache and the request functions, against any gateway *)

Section RequestFacts.

Import Js TestContext Requests.
Local Open Scope string_scope.

Variable G : Type.
Variable respond : G -> Request -> Outcome Response * G.
Variable env : Env.

Local Abbreviation State := (State G).
Local Abbreviation fetch := (fetch G respond).
Local Abbreviation getCsrfToken := (getCsrfToken G respond env).
Local Abbreviation graphqlRequest := (graphqlRequest G respond env).
Local Abbreviation authenticatedGraphqlRequest := (authenticatedGraphqlRequest G respond env).
Local Abbreviation directServiceRequest := (directServiceRequest G respond env).
Local Abbreviation after_fetch := (after_fetch G respond).
Local Abbreviation bootstrap_request := (bootstrap_request env).
Local Abbreviation post_request := (post_request env).

Lemma is_cached_cleared (s : State) : is_cached (cleared s) = false.
Proof. reflexivity. Qed.

Lemma is_cached_after_fetch (s : State) req :
  is_cached (after_fetch s req) = is_cached s.
Proof. reflexivity. Qed.

(** X1.  A bootstrap that fails is not remembered: when [getCsrfToken]
    throws, it has made exactly one bootstrap GET, the two cache
    variables are as before and do not hold a pair, and the next call
    goes to the gateway again. *)
Theorem getCsrfToken_failure_not_cached (s s1 : State) (e : Exn) :
  getCsrfToken s = (Thrown e, s1) ->
  is_cached s1 = false
  /\ csrfToken s1 = csrfToken s
  /\ csrfCookie s1 = csrfCookie s
  /\ (exists a, calls s1 = (calls s ++ [mkExchange bootstrap_request a])%list
                /\ token_of_answer a = Thrown e)
  /\ exists a', calls (snd (getCsrfToken s1))
                = (calls s1 ++ [mkExchange bootstrap_request a'])%list.
Proof.
  intros Hfail.
  destruct (is_cached s) eqn:Hc.
  - apply is_cached_true in Hc as (c & t & d & u & Ht & Hk).
    rewrite (getCsrfToken_hit _ _ _ s c t d u Ht Hk) in Hfail. discriminate Hfail.
  - rewrite (getCsrfToken_miss _ _ _ s Hc) in Hfail.
    destruct (token_of_answer _) as [p | e'] eqn:Htok; [discriminate Hfail |].
    injection Hfail as <- <-.
    split; [exact Hc |]. split; [reflexivity |]. split; [reflexivity |].
    split; [eexists; split; [reflexivity | exact Htok] |].
    rewrite (getCsrfToken_miss _ _ _ (after_fetch s bootstrap_request) Hc).
    destruct (token_of_answer
                (fst (respond (gateway (after_fetch s bootstrap_request)) bootstrap_request)));
      eexists; reflexivity.
Qed.

(** X2.  Clearing is idempotent, and after [clearCsrfToken] the next
    [getCsrfToken] never answers from the old pair: it makes exactly one
    bootstrap GET, its outcome is what that answer yields, and on success
    the cache holds the new pair. *)
Theorem clearCsrfToken_forces_bootstrap (s : State) :
  cleared (cleared s) = cleared s
  /\ clearCsrfToken G s = (Returned tt, cleared s)
  /\ exists a,
       calls (snd (getCsrfToken (cleared s)))
       = (calls s ++ [mkExchange bootstrap_request a])%list
       /\ a = fst (respond (gateway s) bootstrap_request)
       /\ fst (getCsrfToken (cleared s)) = token_of_answer a
       /\ forall p, token_of_answer a = Returned p ->
            csrfToken (snd (getCsrfToken (cleared s))) = Some (token p)
            /\ csrfCookie (snd (getCsrfToken (cleared s))) = Some (cookie p).
Proof.
  split; [reflexivity |]. split; [reflexivity |].
  exists (fst (respond (gateway s) bootstrap_request)).
  rewrite (getCsrfToken_miss _ _ _ (cleared s) eq_refl).
  change (gateway (cleared s)) with (gateway s).
  destruct (token_of_answer _) as [p | e] eqn:Htok; cbn [fst snd].
  - split; [reflexivity |]. split; [reflexivity |]. split; [reflexivity |].
    intros p' [= <-]. split; reflexivity.
  - split; [reflexivity |]. split; [reflexivity |]. split; [reflexivity |].
    intros p' H. discriminate H.
Qed.

Lemma token_of_answer_double_submit a p :
  token_of_answer a = Returned p -> double_submit p.
Proof.
  unfold token_of_answer. destruct a as [r | e]; [| discriminate].
  destruct (negb (truthy (set_cookie r))); [discriminate |].
  destruct (csrf_regex_exec _); [| discriminate].
  intros [= <-]. reflexivity.
Qed.

Lemma consistent_cleared (s : State) : consistent (cleared s).
Proof. intros c t d u H. discriminate H. Qed.

Lemma consistent_after_fetch (s : State) req :
  consistent s -> consistent (after_fetch s req).
Proof. intros H. exact H. Qed.

(** Acquiring the pair keeps the cache consistent and yields a pair in
    double-submit shape. *)
Lemma getCsrfToken_double_submit (s s1 : State) o :
  consistent s ->
  getCsrfToken s = (o, s1) ->
  consistent s1
  /\ (forall p, o = Returned p -> double_submit p)
  /\ exists gs, calls s1 = (calls s ++ gs)%list /\ Forall (is_bootstrap env) gs.
Proof.
  intros Hs Hrun.
  destruct (getCsrfToken_trace _ _ _ _ _ _ Hrun) as (gs & Hcalls & Hgs & _).
  assert (Htrace : exists gs, calls s1 = (calls s ++ gs)%list /\ Forall (is_bootstrap env) gs)
    by eauto.
  destruct (is_cached s) eqn:Hc.
  - apply is_cached_true in Hc as (c & t & d & u & Ht & Hk).
    rewrite (getCsrfToken_hit _ _ _ s c t d u Ht Hk) in Hrun.
    injection Hrun as <- <-. split; [exact Hs |]. split; [| exact Htrace].
    intros p [= <-]. exact (Hs c t d u Ht Hk).
  - rewrite (getCsrfToken_miss _ _ _ s Hc) in Hrun.
    destruct (token_of_answer _) as [p | e] eqn:Htok; injection Hrun as <- <-.
    + pose proof (token_of_answer_double_submit _ _ Htok) as Hp.
      split; [| split; [| exact Htrace]].
      * intros c t d u Ht Hk. cbn in Ht, Hk.
        injection Ht as Ht. injection Hk as Hk. rewrite <- Ht, <- Hk. exact Hp.
      * intros p' [= <-]. exact Hp.
    + split; [exact Hs |]. split; [| exact Htrace]. intros p H. discriminate H.
Qed.

Lemma call_of_bootstraps q vars extra gs :
  Forall (is_bootstrap env) gs -> Forall (call_of env q vars extra) gs.
Proof. intros H. eapply Forall_impl; [exact H |]. intros x Hx. left. exact Hx. Qed.

Lemma call_of_post q vars extra p a :
  double_submit p -> call_of env q vars extra (mkExchange (post_request p q vars extra) a).
Proof. intros Hp. right. exists p. split; [reflexivity | exact Hp]. Qed.

(** What a call of [graphqlRequest] adds to the log, from a consistent
    cache: bootstrap GETs and POSTs of the query with a pair in
    double-submit shape; and the cache stays consistent. *)
Lemma graphqlRequest_calls q vars extra (s : State) :
  consistent s ->
  consistent (snd (graphqlRequest q vars extra s))
  /\ exists new,
       calls (snd (graphqlRequest q vars extra s)) = (calls s ++ new)%list
       /\ Forall (call_of env q vars extra) new.
Proof.
  intros Hs.
  destruct (getCsrfToken s) as [[p0 | e] s1] eqn:E1.
  2: { unfold TestContext.graphqlRequest. rewrite (bind_thrown _ _ _ _ _ E1). cbn [snd].
       destruct (getCsrfToken_double_submit s s1 _ Hs E1) as (Hs1 & _ & gs & Hc & Hgs).
       split; [exact Hs1 |]. exists gs. split; [exact Hc | apply call_of_bootstraps, Hgs]. }
  destruct (getCsrfToken_double_submit s s1 _ Hs E1) as (Hs1 & Hp0 & gs & Hc1 & Hgs).
  specialize (Hp0 p0 eq_refl).
  set (req1 := post_request p0 q vars extra).
  destruct (respond (gateway s1) req1) as [a1 g2] eqn:Ea.
  set (s2 := after_fetch s1 req1).
  assert (Hc2 : calls s2 = (calls s ++ gs ++ [mkExchange req1 a1])%list).
  { unfold s2, TestContext.after_fetch. cbn [calls]. rewrite Ea, Hc1, <- app_assoc. reflexivity. }
  assert (Hs2 : consistent s2) by exact Hs1.
  assert (Hnew2 : Forall (call_of env q vars extra) (gs ++ [mkExchange req1 a1])).
  { apply Forall_app. split; [apply call_of_bootstraps, Hgs |].
    constructor; [apply call_of_post, Hp0 | constructor]. }
  assert (Hstop : forall out,
             consistent (snd (out, s2))
             /\ exists new, calls (snd (out : Outcome Json, s2)) = (calls s ++ new)%list
                            /\ Forall (call_of env q vars extra) new).
  { intros out. split; [exact Hs2 |]. exists (gs ++ [mkExchange req1 a1])%list.
    split; [exact Hc2 | exact Hnew2]. }
  destruct a1 as [r1 | e].
  2: { unfold TestContext.graphqlRequest. rewrite (bind_returned _ _ _ _ _ E1).
       assert (Hf : fetch req1 s1 = (Thrown e, s2)).
       { rewrite fetch_run. fold req1. rewrite Ea. reflexivity. }
       fold req1. rewrite (bind_thrown _ _ _ _ _ Hf). apply Hstop. }
  rewrite (graphqlRequest_first_post _ _ env q vars extra s s1 p0 r1 g2 E1 Ea).
  fold req1. fold s2.
  destruct (status r1 =? 403)%Z; [| apply Hstop].
  destruct (json_body r1) as [b |]; [| apply Hstop].
  destruct (message_includes_CSRF b) as [[|] | e]; [| apply Hstop | apply Hstop].
  destruct (getCsrfToken (cleared s2)) as [[p1 | e] s3] eqn:E3;
    destruct (getCsrfToken_double_submit (cleared s2) s3 _ (consistent_cleared s2) E3)
      as (Hs3 & Hp1 & gs2 & Hc3 & Hgs2);
    change (calls (cleared s2)) with (calls s2) in Hc3; rewrite Hc2 in Hc3.
  - specialize (Hp1 p1 eq_refl). cbn [snd].
    split; [exact Hs3 |].
    exists ((gs ++ [mkExchange req1 (Returned r1)]) ++ gs2
              ++ [mkExchange (post_request p1 q vars extra)
                    (fst (respond (gateway s3) (post_request p1 q vars extra)))])%list.
    split.
    + unfold TestContext.after_fetch. cbn [calls]. rewrite Hc3, <- !app_assoc. reflexivity.
    + apply Forall_app. split; [exact Hnew2 |].
      apply Forall_app. split; [apply call_of_bootstraps, Hgs2 |].
      constructor; [apply call_of_post, Hp1 | constructor].
  - cbn [snd]. split; [exact Hs3 |].
    exists ((gs ++ [mkExchange req1 (Returned r1)]) ++ gs2)%list.
    split; [rewrite Hc3, <- !app_assoc; reflexivity |].
    apply Forall_app. split; [exact Hnew2 | apply call_of_bootstraps, Hgs2].
Qed.

Lemma new_calls_general {A : Type} (s : State) (run : Outcome A * State) new :
  calls (snd run) = (calls s ++ new)%list -> new_calls s run = new.
Proof. intros H. unfold new_calls. rewrite H. apply drop_app_length. Qed.

(** The fixed headers of a POST, for a caller who names none of them. *)
Lemma post_headers_fixed p (extra : option (gmap string string)) k :
  default ∅ extra !! k = None ->
  post_headers p extra !! k
  = ({[ "Content-Type" := "application/json";
        "Cookie" := cookie p;
        "x-csrf-token" := token p ]} : gmap string string) !! k.
Proof. intros H. unfold post_headers. apply lookup_union_r. exact H. Qed.

Lemma post_headers_extra p (extra : option (gmap string string)) k v :
  default ∅ extra !! k = Some v -> post_headers p extra !! k = Some v.
Proof. intros H. unfold post_headers. apply lookup_union_Some_l. exact H. Qed.

Lemma post_headers_csrf p extra :
  leaves_csrf_headers extra ->
  post_headers p extra !! "x-csrf-token" = Some (token p)
  /\ post_headers p extra !! "Cookie" = Some (cookie p)
  /\ forall k, is_Some (post_headers p extra !! k) ->
       (toLowerCase k = "cookie" -> k = "Cookie")
       /\ (toLowerCase k = "x-csrf-token" -> k = "x-csrf-token").
Proof.
  intros Hleave. split; [| split].
  - rewrite post_headers_fixed by (apply Hleave; right; reflexivity). reflexivity.
  - rewrite post_headers_fixed by (apply Hleave; left; reflexivity). reflexivity.
  - intros k [v Hk].
    assert (Hfixed : forall (Hlow : toLowerCase k = "cookie" \/ toLowerCase k = "x-csrf-token"),
               k = "Content-Type" \/ k = "Cookie" \/ k = "x-csrf-token").
    { intros Hlow. rewrite post_headers_fixed in Hk by (apply Hleave; exact Hlow).
      destruct (decide (k = "Content-Type")) as [-> | H1]; [auto |].
      destruct (decide (k = "Cookie")) as [-> | H2]; [auto |].
      destruct (decide (k = "x-csrf-token")) as [-> | H3]; [auto |].
      rewrite !lookup_insert_ne, lookup_singleton_ne in Hk by congruence.
      discriminate Hk. }
    split; intros Hlow.
    + destruct (Hfixed (or_introl Hlow)) as [-> | [-> | ->]];
        [discriminate Hlow | reflexivity | discriminate Hlow].
    + destruct (Hfixed (or_intror Hlow)) as [-> | [-> | ->]];
        [discriminate Hlow | discriminate Hlow | reflexivity].
Qed.

(** X3.  Double submit.  From a cache that is empty or holds a pair in
    double-submit shape, and for a caller whose headers name neither the
    cookie nor the token header, [graphqlRequest] keeps the cache in that
    state, and every POST it sends, the retry included, goes to the
    gateway endpoint with the unchanged query and variables, a header
    [x-csrf-token] and a header [Cookie] that is [csrf-token=] followed
    by the same token; no other spelling of the two names is among its
    headers. *)
Theorem graphqlRequest_double_submit q vars extra (s : State) :
  consistent s ->
  leaves_csrf_headers extra ->
  consistent (snd (graphqlRequest q vars extra s))
  /\ forall x, x ∈ new_calls s (graphqlRequest q vars extra s) -> is_post x = true ->
       url (sent x) = endpoint env
       /\ body (sent x) = Some (mkPayload q vars)
       /\ (exists tok,
             headers (sent x) !! "x-csrf-token" = Some tok
             /\ headers (sent x) !! "Cookie" = Some ("csrf-token=" ++ tok))
       /\ forall k, is_Some (headers (sent x) !! k) ->
            (toLowerCase k = "cookie" -> k = "Cookie")
            /\ (toLowerCase k = "x-csrf-token" -> k = "x-csrf-token").
Proof.
  intros Hs Hleave.
  destruct (graphqlRequest_calls q vars extra s Hs) as (Hs' & new & Hcalls & Hnew).
  split; [exact Hs' |].
  rewrite (new_calls_general s _ new Hcalls).
  intros x Hx Hpost.
  rewrite Forall_forall in Hnew. destruct (Hnew x Hx) as [Hboot | (p & Hsent & Hp)].
  - unfold is_post in Hpost. rewrite Hboot in Hpost. discriminate Hpost.
  - rewrite Hsent. cbn [url body headers post_request].
    destruct (post_headers_csrf p extra Hleave) as (Htok & Hcookie & Honly).
    split; [reflexivity |]. split; [reflexivity |]. split; [| exact Honly].
    exists (token p). split; [exact Htok |]. rewrite Hcookie, Hp. reflexivity.
Qed.

Lemma bearer_leaves_csrf_headers accessToken :
  leaves_csrf_headers (Some {[ "Authorization" := "Bearer " ++ accessToken ]}).
Proof.
  intros k Hk. cbn [default].
  apply lookup_singleton_ne. intros <-. destruct Hk as [Hk | Hk]; discriminate Hk.
Qed.

(** *** A session *)

Lemma token_of_answer_both_truthy a p :
  token_of_answer a = Returned p ->
  truthy (Some (token p)) = true /\ truthy (Some (cookie p)) = true.
Proof.
  unfold token_of_answer. destruct a as [r | e]; [| discriminate].
  destruct (negb (truthy (set_cookie r))); [discriminate |].
  destruct (csrf_regex_exec _) as [tok |] eqn:Hexec; [| discriminate].
  intros [= <-]. apply csrf_regex_exec_nonempty in Hexec as (c & r' & ->).
  split; reflexivity.
Qed.

Lemma holds_after_fetch (s : State) req p : holds s p -> holds (after_fetch s req) p.
Proof. intros H. exact H. Qed.

(** A pair that [getCsrfToken] returns is held by the cache. *)
Lemma getCsrfToken_returned_holds (s s1 : State) p :
  getCsrfToken s = (Returned p, s1) -> holds s1 p.
Proof.
  intros Hrun. destruct (is_cached s) eqn:Hc.
  - pose proof Hc as Hc'. apply is_cached_true in Hc' as (c & t & d & u & Ht & Hk).
    rewrite (getCsrfToken_hit _ _ _ s c t d u Ht Hk) in Hrun.
    injection Hrun as <- <-. split; [exact Ht | split; [exact Hk | exact Hc]].
  - rewrite (getCsrfToken_miss _ _ _ s Hc) in Hrun.
    destruct (token_of_answer _) as [p' | e] eqn:Htok; [| discriminate].
    injection Hrun as <- <-.
    destruct (token_of_answer_both_truthy _ _ Htok) as [Ht Hk].
    split; [reflexivity | split; [reflexivity |]].
    unfold is_cached. cbn [csrfToken csrfCookie set_cache]. rewrite Ht, Hk. reflexivity.
Qed.

(** A held pair is what [getCsrfToken] answers, without a request. *)
Lemma getCsrfToken_held (s : State) p : holds s p -> getCsrfToken s = (Returned p, s).
Proof.
  intros (Ht & Hk & Hc). apply is_cached_true in Hc as (c & t & d & u & Ht' & Hk').
  rewrite (getCsrfToken_hit _ _ _ s c t d u Ht' Hk').
  destruct p as [tok ck]. cbn [token cookie] in Ht, Hk. congruence.
Qed.

Lemma last_bootstrap_not_post gs x :
  Forall (is_bootstrap env) gs -> last gs = Some x -> is_post x = false.
Proof.
  intros Hgs Hlast. apply last_Some_elem_of in Hlast.
  rewrite Forall_forall in Hgs. specialize (Hgs x Hlast).
  unfold is_post. rewrite Hgs. reflexivity.
Qed.

(** How a call of [graphqlRequest] ends: thrown out of a bootstrap, the
    last exchange being none or a GET; or after a POST whose pair the
    cache holds. *)
Lemma graphqlRequest_end q vars extra (s : State) :
  exists new,
    calls (snd (graphqlRequest q vars extra s)) = (calls s ++ new)%list
    /\ ((forall x, last new = Some x -> is_post x = false)
        \/ exists p front a,
             new = (front ++ [mkExchange (post_request p q vars extra) a])%list
             /\ holds (snd (graphqlRequest q vars extra s)) p).
Proof.
  destruct (getCsrfToken s) as [[p0 | e] s1] eqn:E1;
    destruct (getCsrfToken_trace _ _ _ _ _ _ E1) as (gs & Hc1 & Hgs & _).
  2: { unfold TestContext.graphqlRequest. rewrite (bind_thrown _ _ _ _ _ E1). cbn [snd].
       exists gs. split; [exact Hc1 |]. left. intros x. apply last_bootstrap_not_post, Hgs. }
  pose proof (getCsrfToken_returned_holds s s1 p0 E1) as Hheld.
  set (req1 := post_request p0 q vars extra).
  destruct (respond (gateway s1) req1) as [a1 g2] eqn:Ea.
  set (s2 := after_fetch s1 req1).
  assert (Hc2 : calls s2 = (calls s ++ gs ++ [mkExchange req1 a1])%list).
  { unfold s2, TestContext.after_fetch. cbn [calls]. rewrite Ea, Hc1, <- app_assoc. reflexivity. }
  assert (Hstop : forall out : Outcome Json,
             exists new,
               calls (snd (out, s2)) = (calls s ++ new)%list
               /\ ((forall x, last new = Some x -> is_post x = false)
                   \/ exists p front a,
                        new = (front ++ [mkExchange (post_request p q vars extra) a])%list
                        /\ holds (snd (out, s2)) p)).
  { intros out. exists (gs ++ [mkExchange req1 a1])%list. split; [exact Hc2 |].
    right. exists p0, gs, a1. split; [reflexivity | exact Hheld]. }
  destruct a1 as [r1 | e].
  2: { unfold TestContext.graphqlRequest. rewrite (bind_returned _ _ _ _ _ E1).
       assert (Hf : fetch req1 s1 = (Thrown e, s2)).
       { rewrite fetch_run. fold req1. rewrite Ea. reflexivity. }
       fold req1. rewrite (bind_thrown _ _ _ _ _ Hf). apply Hstop. }
  rewrite (graphqlRequest_first_post _ _ env q vars extra s s1 p0 r1 g2 E1 Ea).
  fold req1. fold s2.
  destruct (status r1 =? 403)%Z; [| apply Hstop].
  destruct (json_body r1) as [b |]; [| apply Hstop].
  destruct (message_includes_CSRF b) as [[|] | e]; [| apply Hstop | apply Hstop].
  rewrite (getCsrfToken_miss _ _ _ (cleared s2) (is_cached_cleared s2)).
  set (a' := fst (respond (gateway (cleared s2)) bootstrap_request)).
  set (boot := mkExchange bootstrap_request a').
  assert (Hc3 : calls (after_fetch (cleared s2) bootstrap_request)
                = (calls s ++ gs ++ [mkExchange req1 (Returned r1)] ++ [boot])%list).
  { unfold TestContext.after_fetch at 1. cbn [calls cleared]. fold a'. rewrite Hc2.
    rewrite <- !app_assoc. reflexivity. }
  destruct (token_of_answer a') as [p1 | e] eqn:Htok; cbn [snd].
  - set (s3 := set_cache p1 (after_fetch (cleared s2) bootstrap_request)).
    exists (gs ++ [mkExchange req1 (Returned r1)] ++ [boot]
              ++ [mkExchange (post_request p1 q vars extra)
                    (fst (respond (gateway s3) (post_request p1 q vars extra)))])%list.
    split.
    + unfold TestContext.after_fetch at 1. cbn [calls]. fold s3.
      change (calls s3) with (calls (after_fetch (cleared s2) bootstrap_request)).
      rewrite Hc3, <- !app_assoc. reflexivity.
    + right. exists p1, (gs ++ [mkExchange req1 (Returned r1)] ++ [boot])%list,
        (fst (respond (gateway s3) (post_request p1 q vars extra))).
      split; [rewrite <- !app_assoc; reflexivity |].
      destruct (token_of_answer_both_truthy _ _ Htok) as [Ht Hk].
      split; [reflexivity | split; [reflexivity |]].
      unfold is_cached.
      change (csrfToken (after_fetch s3 (post_request p1 q vars extra)))
        with (Some (token p1)).
      change (csrfCookie (after_fetch s3 (post_request p1 q vars extra)))
        with (Some (cookie p1)).
      rewrite Ht, Hk. reflexivity.
  - exists (gs ++ [mkExchange req1 (Returned r1)] ++ [boot])%list.
    split; [exact Hc3 |]. left. intros x Hlast.
    rewrite !app_assoc, last_snoc in Hlast. injection Hlast as <-. reflexivity.
Qed.

(** The first exchange of a call from a cache that holds a pair. *)
Lemma graphqlRequest_from_held q vars extra (s : State) p :
  holds s p ->
  exists rest,
    new_calls s (graphqlRequest q vars extra s)
    = mkExchange (post_request p q vars extra)
        (fst (respond (gateway s) (post_request p q vars extra))) :: rest.
Proof.
  intros Hheld. pose proof (getCsrfToken_held s p Hheld) as E1.
  set (req1 := post_request p q vars extra).
  destruct (respond (gateway s) req1) as [a1 g2] eqn:Ea. cbn [fst].
  set (s2 := after_fetch s req1).
  assert (Hc2 : calls s2 = (calls s ++ [mkExchange req1 a1])%list).
  { unfold s2, TestContext.after_fetch. cbn [calls]. rewrite Ea. reflexivity. }
  assert (Hstop : forall out : Outcome Json,
             exists rest, new_calls s (out, s2) = mkExchange req1 a1 :: rest).
  { intros out. exists []. apply new_calls_general. exact Hc2. }
  destruct a1 as [r1 | e].
  2: { unfold TestContext.graphqlRequest. rewrite (bind_returned _ _ _ _ _ E1).
       assert (Hf : fetch req1 s = (Thrown e, s2)).
       { rewrite fetch_run. fold req1. rewrite Ea. reflexivity. }
       fold req1. rewrite (bind_thrown _ _ _ _ _ Hf). apply Hstop. }
  rewrite (graphqlRequest_first_post _ _ env q vars extra s s p r1 g2 E1 Ea).
  fold req1. fold s2.
  destruct (status r1 =? 403)%Z; [| apply Hstop].
  destruct (json_body r1) as [b |]; [| apply Hstop].
  destruct (message_includes_CSRF b) as [[|] | e]; [| apply Hstop | apply Hstop].
  destruct (getCsrfToken (cleared s2)) as [[p1 | e] s3] eqn:E3;
    destruct (getCsrfToken_trace _ _ _ _ _ _ E3) as (gs2 & Hc3 & _);
    change (calls (cleared s2)) with (calls s2) in Hc3; rewrite Hc2 in Hc3.
  - eexists. apply new_calls_general. unfold TestContext.after_fetch. cbn [snd calls].
    rewrite Hc3, <- !app_assoc. reflexivity.
  - eexists. apply new_calls_general. cbn [snd]. rewrite Hc3, <- !app_assoc. reflexivity.
Qed.

(** X4.  A session reuses the pair.  When a call of [graphqlRequest]
    ends with a POST (as it does whenever it returns a body), the cache
    holds the pair that POST carried, and the next call, for any query
    and headers, starts with a POST that carries the same pair: no
    bootstrap GET comes between. *)
Theorem graphqlRequest_session q vars extra q' vars' extra' (s : State) (x : Exchange) :
  let run := graphqlRequest q vars extra s in
  last (new_calls s run) = Some x ->
  is_post x = true ->
  exists p,
    sent x = post_request p q vars extra
    /\ csrfToken (snd run) = Some (token p)
    /\ csrfCookie (snd run) = Some (cookie p)
    /\ exists rest,
         new_calls (snd run) (graphqlRequest q' vars' extra' (snd run))
         = mkExchange (post_request p q' vars' extra')
             (fst (respond (gateway (snd run)) (post_request p q' vars' extra'))) :: rest.
Proof.
  intros run Hlast Hpost. subst run.
  destruct (graphqlRequest_end q vars extra s) as (new & Hcalls & Hend).
  rewrite (new_calls_general s _ new Hcalls) in Hlast.
  destruct Hend as [Hget | (p & front & a & -> & Hheld)].
  - rewrite (Hget x Hlast) in Hpost. discriminate Hpost.
  - rewrite last_snoc in Hlast. injection Hlast as <-.
    exists p. split; [reflexivity |].
    split; [apply Hheld |]. split; [apply Hheld |].
    apply graphqlRequest_from_held. exact Hheld.
Qed.

(** X5.  [authenticatedGraphqlRequest] sends the bearer token with every
    POST, the retry after a CSRF-class 403 included, next to the
    double-submit pair: each POST has the header [Authorization] equal to
    [Bearer ] followed by the access token, [Content-Type]
    [application/json], and a [Cookie] that is [csrf-token=] followed by
    its [x-csrf-token] (from a cache that is empty or consistent). *)
Theorem authenticatedGraphqlRequest_headers q vars accessToken (s : State) :
  consistent s ->
  forall x, x ∈ new_calls s (authenticatedGraphqlRequest q vars accessToken s) ->
            is_post x = true ->
    headers (sent x) !! "Authorization" = Some ("Bearer " ++ accessToken)
    /\ headers (sent x) !! "Content-Type" = Some "application/json"
    /\ exists tok,
         headers (sent x) !! "x-csrf-token" = Some tok
         /\ headers (sent x) !! "Cookie" = Some ("csrf-token=" ++ tok).
Proof.
  intros Hs x Hx Hpost. unfold Requests.authenticatedGraphqlRequest in Hx.
  set (extra := Some ({[ "Authorization" := "Bearer " ++ accessToken ]} : gmap string string)) in *.
  destruct (graphqlRequest_calls q vars extra s Hs) as (_ & new & Hcalls & Hnew).
  rewrite (new_calls_general s _ new Hcalls) in Hx.
  rewrite Forall_forall in Hnew. destruct (Hnew x Hx) as [Hboot | (p & Hsent & Hp)].
  - unfold is_post in Hpost. rewrite Hboot in Hpost. discriminate Hpost.
  - rewrite Hsent. cbn [headers post_request].
    destruct (post_headers_csrf p extra (bearer_leaves_csrf_headers accessToken))
      as (Htok & Hcookie & _).
    split; [apply post_headers_extra; apply lookup_singleton_eq |].
    split.
    + rewrite post_headers_fixed by (apply lookup_singleton_ne; discriminate).
      reflexivity.
    + exists (token p). split; [exact Htok |]. rewrite Hcookie, Hp. reflexivity.
Qed.

(** X6.  [directServiceRequest] is a single POST to the service's
    [/graphql]: whatever the answer (a CSRF-class 403 as well), there is
    no retry and no bootstrap GET, the CSRF cache is not read or changed,
    and the outcome is the body of that one answer.  Unless the caller
    passes its own, the header [X-HMAC-Auth] is the credential for
    [POST /graphql] with [application/json], the same for every service,
    query and variables. *)
Theorem directServiceRequest_single_post serviceUrl q vars extra (s : State) :
  let req := direct_request env serviceUrl q vars extra in
  let a := fst (respond (gateway s) req) in
  let run := directServiceRequest serviceUrl q vars extra s in
  fst run = body_of a
  /\ calls (snd run) = (calls s ++ [mkExchange req a])%list
  /\ csrfToken (snd run) = csrfToken s
  /\ csrfCookie (snd run) = csrfCookie s
  /\ url req = serviceUrl ++ "/graphql"
  /\ method req = POST
  /\ (default ∅ extra !! "X-HMAC-Auth" = None ->
      headers req !! "X-HMAC-Auth"
      = Some (generateHmacHeader env "POST" "/graphql" (Some "application/json"))).
Proof.
  intros req a run.
  assert (Hrun : run = (body_of a, after_fetch s req)).
  { unfold run, Requests.directServiceRequest, bind. fold req.
    rewrite fetch_run. fold a. destruct a as [r | e]; [apply json_run | reflexivity]. }
  rewrite Hrun. cbn [fst snd].
  repeat split.
  intros Hno. unfold req, direct_request, direct_headers. cbn [headers].
  rewrite lookup_union_r by exact Hno.
  rewrite lookup_insert_ne by discriminate. rewrite lookup_singleton_eq. reflexivity.
Qed.

End RequestFacts.

(** *** The properties on the mocked gateway *)

Section RequestWitnesses.

Import Js TestContext Requests.
Local Open Scope string_scope.

Lemma getCsrfToken_failure_not_cached_witness :
  is_cached (snd (getCsrfToken Mock mock_respond sample_env (cold empty_cookie_gateway)))
  = false
  /\ length (calls (snd (getCsrfToken Mock mock_respond sample_env
                           (cold empty_cookie_gateway)))) = 1%nat.
Proof.
  destruct (getCsrfToken_failure_not_cached Mock mock_respond sample_env
              (cold empty_cookie_gateway)
              (snd (getCsrfToken Mock mock_respond sample_env (cold empty_cookie_gateway)))
              (Error "csrf-token cookie not found in response") eq_refl)
    as (Hcache & _ & _ & (a & Hcalls & _) & _).
  split; [exact Hcache |]. rewrite Hcalls. reflexivity.
Defined.

Lemma graphqlRequest_double_submit_witness :
  consistent (snd (run_sample (warm retry_gateway)))
  /\ forall x, x ∈ new_calls (warm retry_gateway) (run_sample (warm retry_gateway)) ->
       is_post x = true ->
       url (sent x) = endpoint sample_env
       /\ body (sent x) = Some (mkPayload sample_query None)
       /\ (exists tok,
             headers (sent x) !! "x-csrf-token" = Some tok
             /\ headers (sent x) !! "Cookie" = Some ("csrf-token=" ++ tok))
       /\ forall k, is_Some (headers (sent x) !! k) ->
            (toLowerCase k = "cookie" -> k = "Cookie")
            /\ (toLowerCase k = "x-csrf-token" -> k = "x-csrf-token").
Proof.
  apply (graphqlRequest_double_submit Mock mock_respond sample_env sample_query None None
           (warm retry_gateway)).
  - intros c t d u Ht Hk. injection Ht as <- <-. injection Hk as <- <-. reflexivity.
  - intros k _. reflexivity.
Defined.

Lemma graphqlRequest_session_witness :
  exists p,
    token p = "def456"
    /\ csrfToken (snd (run_sample (cold retry_gateway))) = Some (token p)
    /\ exists rest,
         new_calls (snd (run_sample (cold retry_gateway)))
           (graphqlRequest Mock mock_respond sample_env "query { me { id } }" None None
              (snd (run_sample (cold retry_gateway))))
         = mkExchange (post_request sample_env p "query { me { id } }" None None)
             (fst (mock_respond (gateway (snd (run_sample (cold retry_gateway))))
                     (post_request sample_env p "query { me { id } }" None None))) :: rest.
Proof.
  destruct (graphqlRequest_session Mock mock_respond sample_env sample_query None None
              "query { me { id } }" None None (cold retry_gateway)
              (mkExchange
                 (post_request sample_env (pair_of_token "def456") sample_query None None)
                 (Returned ok_200))
              eq_refl eq_refl)
    as (p & Hsent & Htoken & _ & Hnext).
  exists p. split; [| split; [exact Htoken | exact Hnext]].
  pose proof Htoken as Hvalue. vm_compute in Hvalue. injection Hvalue as Hvalue.
  symmetry. exact Hvalue.
Defined.

Lemma authenticatedGraphqlRequest_headers_witness :
  let x := mkExchange
             (post_request sample_env (pair_of_token "abc123") sample_query None
                (Some {[ "Authorization" := "Bearer jwt-1" ]}))
             (Returned csrf_403) in
  headers (sent x) !! "Authorization" = Some "Bearer jwt-1"
  /\ headers (sent x) !! "Content-Type" = Some "application/json"
  /\ exists tok,
       headers (sent x) !! "x-csrf-token" = Some tok
       /\ headers (sent x) !! "Cookie" = Some ("csrf-token=" ++ tok).
Proof.
  apply (authenticatedGraphqlRequest_headers Mock mock_respond sample_env sample_query None
           "jwt-1" (warm retry_gateway)).
  - intros c t d u Ht Hk. injection Ht as <- <-. injection Hk as <- <-. reflexivity.
  - vm_compute. apply list_elem_of_here.
  - reflexivity.
Defined.

End RequestWitnesses.

(** ** The assertion helpers *)

Section AssertionFacts.

Import Js TestContext Requests.
Local Open Scope string_scope.

Lemma assertNoErrors_returns result :
  assertNoErrors result = Returned tt <-> ~ has_errors result.
Proof.
  unfold assertNoErrors, has_errors.
  destruct (errors result) as [[| e0 es0] |].
  - split; [| reflexivity]. intros _ (e & es & H). discriminate H.
  - split; [discriminate |]. intros H. exfalso. apply H. eauto.
  - split; [| reflexivity]. intros _ (e & es & H). discriminate H.
Qed.

Lemma assertHasError_returns result expected :
  assertHasError result expected = Returned tt
  <-> exists e es, errors result = Some es /\ e ∈ es /\ matches expected e = true.
Proof.
  unfold assertHasError.
  destruct (errors result) as [[| e0 es] |].
  - split; [discriminate |]. intros (e & es & [= <-] & Hin & _). inversion Hin.
  - destruct (existsb (matches expected) (e0 :: es)) eqn:Hex.
    + split; [intros _ | reflexivity].
      apply existsb_exists in Hex as (e & Hin & He).
      exists e, (e0 :: es). split; [reflexivity |]. split; [| exact He].
      apply list_elem_of_In. exact Hin.
    + split; [discriminate |]. intros (e & es' & [= <-] & Hin & He).
      assert (existsb (matches expected) (e0 :: es) = true) as Htrue.
      { apply existsb_exists. exists e. split; [apply list_elem_of_In; exact Hin | exact He]. }
      congruence.
  - split; [discriminate |]. intros (e & es & H & _). discriminate H.
Qed.

Lemma includes_empty hay : includes EmptyString hay = true.
Proof. destruct hay; reflexivity. Qed.

(** X7.  The two assertions exclude each other: on no result and for no
    expected text or pattern do [assertNoErrors] and [assertHasError]
    both return.  With the empty text as expectation they are exact
    complements: [assertHasError(result, '')] returns exactly when
    [assertNoErrors(result)] throws, which is when [errors] is present
    and not empty. *)
Theorem assertions_exclusive (result : Result) (expected : Expected) :
  ~ (assertNoErrors result = Returned tt /\ assertHasError result expected = Returned tt)
  /\ (assertHasError result (ExpectString EmptyString) = Returned tt
      <-> assertNoErrors result <> Returned tt)
  /\ (assertNoErrors result <> Returned tt
      <-> exists e es, errors result = Some (e :: es)).
Proof.
  split; [| split].
  - intros [Hno Hhas]. apply assertNoErrors_returns in Hno.
    apply assertHasError_returns in Hhas as (e & es & Hes & Hin & _).
    apply Hno. destruct es as [| e0 es]; [inversion Hin |]. exists e0, es. exact Hes.
  - rewrite assertHasError_returns, assertNoErrors_returns. split.
    + intros (e & es & Hes & Hin & _) Hno. apply Hno.
      destruct es as [| e0 es]; [inversion Hin |]. exists e0, es. exact Hes.
    + intros Hnn.
      destruct (errors result) as [[| e0 es] |] eqn:E.
      * exfalso. apply Hnn. intros (e & es & H). unfold has_errors in *. congruence.
      * exists e0, (e0 :: es). split; [reflexivity |]. split; [left |].
        apply includes_empty.
      * exfalso. apply Hnn. intros (e & es & H). congruence.
  - rewrite assertNoErrors_returns. unfold has_errors. split.
    + intros Hnn. destruct (errors result) as [[| e0 es] |] eqn:E.
      * exfalso. apply Hnn. intros (e & es & H). discriminate H.
      * eauto.
      * exfalso. apply Hnn. intros (e & es & H). discriminate H.
    + intros H Hno. exact (Hno H).
Qed.

Lemma includes_trans a b c :
  includes a b = true -> includes b c = true -> includes a c = true.
Proof.
  rewrite !includes_spec. intros (p1 & r1 & ->) (p2 & r2 & ->).
  exists (p2 ++ p1), (r1 ++ r2). rewrite !append_assoc. reflexivity.
Qed.

(** X8.  Expecting less is easier, and more errors do not hurt: when
    [assertHasError] returns for an expected text, it also returns for
    every text contained in that one, and for every result whose
    [errors] extend the list at either end. *)
Theorem assertHasError_monotone (result : Result) (expected shorter : string)
    (before after : list GraphQLError) (es : list GraphQLError) :
  errors result = Some es ->
  assertHasError result (ExpectString expected) = Returned tt ->
  includes shorter expected = true ->
  assertHasError result (ExpectString shorter) = Returned tt
  /\ assertHasError (mkResult (data result) (Some (before ++ es ++ after)%list))
       (ExpectString expected) = Returned tt.
Proof.
  intros Hes Hhas Hshort.
  apply assertHasError_returns in Hhas as (e & es' & Hes' & Hin & He).
  rewrite Hes in Hes'. injection Hes' as <-.
  split; apply assertHasError_returns.
  - exists e, es. split; [exact Hes |]. split; [exact Hin |].
    simpl in *. exact (includes_trans _ _ _ Hshort He).
  - exists e, (before ++ es ++ after)%list. split; [reflexivity |]. split; [| exact He].
    rewrite !elem_of_app. auto.
Qed.

End AssertionFacts.

Section AssertionWitnesses.

Import Js TestContext Requests.
Local Open Scope string_scope.

Lemma assertHasError_monotone_witness :
  assertHasError (mkResult None (Some [mkError "Not authorized: token expired"]))
    (ExpectString "expired") = Returned tt
  /\ assertHasError
       (mkResult None
          (Some ([mkError "Rate limited"] ++ [mkError "Not authorized: token expired"] ++ [])%list))
       (ExpectString "token expired") = Returned tt.
Proof.
  apply (assertHasError_monotone
           (mkResult None (Some [mkError "Not authorized: token expired"]))
           "token expired" "expired" [mkError "Rate limited"] []
           [mkError "Not authorized: token expired"]);
    reflexivity.
Defined.

End AssertionWitnesses.

(** ** The interceptor: what else [willSendRequest] does and does not do *)

Section InterceptorFacts.

Import Js DataSource DataSourceNotions.
Local Open Scope string_scope.

Lemma put_header_query name stored request :
  query (put_header name stored request) = query request.
Proof. unfold put_header. destruct (http request); reflexivity. Qed.

Lemma put_header_method name stored request :
  method <$> http (put_header name stored request) = method <$> http request.
Proof.
  unfold put_header. destruct (http request) as [h |] eqn:E; simpl; [reflexivity |].
  rewrite E. reflexivity.
Qed.

(** Putting a header twice is putting it once; two different headers
    can be put in either order. *)
Lemma put_header_twice name stored request :
  put_header name stored (put_header name stored request) = put_header name stored request.
Proof.
  unfold put_header. destruct (http request) as [h |] eqn:E; cbn; [| rewrite E; reflexivity].
  unfold with_headers. cbn. rewrite insert_insert_eq. reflexivity.
Qed.

Lemma put_header_swap n1 v1 n2 v2 request :
  toLowerCase n1 <> toLowerCase n2 ->
  put_header n1 v1 (put_header n2 v2 request) = put_header n2 v2 (put_header n1 v1 request).
Proof.
  intros Hne. unfold put_header. destruct (http request) as [h |] eqn:E; cbn;
    [| rewrite E; reflexivity].
  unfold with_headers. cbn. rewrite insert_insert_ne by exact Hne. reflexivity.
Qed.

Lemma header_of_put_spelling name name' stored request h :
  toLowerCase name' = toLowerCase name ->
  http request = Some h ->
  header_of name' (put_header name stored request) = Some stored.
Proof.
  intros Hname E. unfold header_of, put_header, headers_get.
  rewrite E. simpl. rewrite Hname. apply lookup_insert_eq.
Qed.

Variable accepts : string -> option string.

Local Abbreviation set_header := (set_header accepts).
Local Abbreviation after_user := (after_user accepts).
Local Abbreviation signing := (signing accepts).
Local Abbreviation willSendRequest := (willSendRequest accepts).

(** The signing statement returns with the request as it was or with
    the header put, or throws with the request as it was. *)
Lemma signing_cases signer request :
  signing signer request = (Returned tt, request)
  \/ (exists stored, signing signer request
                     = (Returned tt, put_header "X-HMAC-Auth" stored request))
  \/ signing signer request = (Thrown TypeError, request).
Proof.
  destruct (isEnabled signer && truthy (http_url request)
            && truthy (signGraphQLRequest signer (default EmptyString (http_url request))))
    eqn:Hguard.
  - rewrite (signing_signed accepts _ _ Hguard).
    destruct (set_header_cases accepts "X-HMAC-Auth"
                (default EmptyString
                   (signGraphQLRequest signer (default EmptyString (http_url request))))
                request)
      as [[H _] | [(stored & _ & H) | (_ & _ & H)]]; eauto.
  - left. apply signing_unsigned, Hguard.
Qed.

(** The request the interceptor leaves, returned or thrown: the request
    it got, with its own two headers put or not. *)
Lemma willSendRequest_shapes signer context request :
  exists r1,
    (r1 = request \/ exists stored, r1 = put_header "user" stored request)
    /\ (snd (willSendRequest signer context request) = r1
        \/ exists stored, snd (willSendRequest signer context request)
                          = put_header "X-HMAC-Auth" stored r1).
Proof.
  rewrite willSendRequest_steps. unfold bind.
  destruct (after_user_cases accepts context request) as [H | [(stored & H) | H]];
    rewrite H.
  - exists request. split; [left; reflexivity |].
    destruct (signing_cases signer request) as [S | [(c & S) | S]]; rewrite S; eauto.
  - exists (put_header "user" stored request). split; [right; eauto |].
    destruct (signing_cases signer (put_header "user" stored request))
      as [S | [(c & S) | S]]; rewrite S; eauto.
  - exists request. split; [left; reflexivity | left; reflexivity].
Qed.

(** X9.  The interceptor changes headers only, and only its own two,
    whether it returns or [Headers.set] throws: the query, the URL, the
    method and the presence of the HTTP part are as before, and so is
    every header whose name is, in any spelling, neither [user] nor
    [X-HMAC-Auth]. *)
Theorem willSendRequest_frame (signer : HmacSignerService)
    (request : GraphQLRequest) (context : option GatewayContext) :
  let sent := snd (willSendRequest signer context request) in
  query sent = query request
  /\ http_url sent = http_url request
  /\ method <$> http sent = method <$> http request
  /\ (is_Some (http sent) <-> is_Some (http request))
  /\ forall name, other_header name -> header_of name sent = header_of name request.
Proof.
  intros sent. subst sent.
  assert (Hframe : forall name value r,
             query (put_header name value r) = query r
             /\ http_url (put_header name value r) = http_url r
             /\ method <$> http (put_header name value r) = method <$> http r
             /\ (is_Some (http (put_header name value r)) <-> is_Some (http r))).
  { intros. split; [apply put_header_query |]. split; [apply put_header_url |].
    split; [apply put_header_method | apply put_header_is_Some]. }
  assert (Huser : forall u name, other_header name ->
             header_of name (put_header "user" u request) = header_of name request).
  { intros u name [H1 _]. apply header_of_put_other. intros H. apply H1. rewrite <- H. reflexivity. }
  assert (Hhmac : forall c r name, other_header name ->
             header_of name (put_header "X-HMAC-Auth" c r) = header_of name r).
  { intros c r name [_ H2]. apply header_of_put_other. intros H. apply H2. rewrite <- H. reflexivity. }
  destruct (willSendRequest_shapes signer context request)
    as (r1 & [-> | (u & ->)] & [-> | (c & ->)]).
  - repeat split; auto.
  - destruct (Hframe "X-HMAC-Auth" c request) as (Q & U & M & S).
    split; [exact Q |]. split; [exact U |]. split; [exact M |]. split; [exact S |].
    intros name Hname. apply Hhmac, Hname.
  - destruct (Hframe "user" u request) as (Q & U & M & S).
    split; [exact Q |]. split; [exact U |]. split; [exact M |]. split; [exact S |].
    intros name Hname. apply Huser, Hname.
  - destruct (Hframe "user" u request) as (Q1 & U1 & M1 & S1).
    destruct (Hframe "X-HMAC-Auth" c (put_header "user" u request)) as (Q2 & U2 & M2 & S2).
    split; [congruence |]. split; [congruence |]. split; [congruence |].
    split; [rewrite S2; exact S1 |].
    intros name Hname. rewrite Hhmac, Huser by exact Hname. reflexivity.
Qed.

(** The user statement on a request with an HTTP part: it returns when
    the identity is accepted, and throws otherwise. *)
Lemma after_user_accepted context request :
  user_accepted accepts context ->
  exists r1,
    after_user context request = (Returned tt, r1)
    /\ (r1 = request \/ exists stored, r1 = put_header "user" stored request).
Proof.
  intros Hok. unfold user_accepted in Hok.
  destruct (truthy (context_user context)) eqn:Hu.
  - destruct (Hok eq_refl) as [stored Hstored].
    exists (put_header "user" stored request). split; [| right; eauto].
    unfold DataSource.after_user. rewrite Hu. apply set_header_stored, Hstored.
  - exists request. split; [apply after_user_none, Hu | left; reflexivity].
Qed.

Lemma after_user_refused context request h :
  http request = Some h ->
  ~ user_accepted accepts context ->
  after_user context request = (Thrown TypeError, request).
Proof.
  intros Hh Hno. unfold user_accepted in Hno.
  destruct (truthy (context_user context)) eqn:Hu.
  - unfold DataSource.after_user. rewrite Hu.
    destruct (accepts (default EmptyString (context_user context))) as [stored |] eqn:Hv.
    + exfalso. apply Hno. intros _. eauto.
    + eapply set_header_rejected; eassumption.
  - exfalso. apply Hno. intros H. discriminate H.
Qed.

(** X10.  With an enabled signer, a request that has a non-empty URL and
    for which the signer returns a non-empty credential goes out with
    that credential, as the container stores it, as [X-HMAC-Auth],
    readable under any spelling of the name, a value the request
    arrived with being replaced: provided the container accepts the
    identity of the context, if there is one, and the credential.  When
    it rejects the credential the interceptor throws its [TypeError] and
    [X-HMAC-Auth] is as before; when it rejects the identity the
    interceptor throws before it signs, and the request is as before. *)
Theorem willSendRequest_signs_when_enabled (signer : HmacSignerService)
    (request : GraphQLRequest) (context : option GatewayContext)
    (h : Http) (credential name : string) :
  isEnabled signer = true ->
  http request = Some h ->
  url h <> EmptyString ->
  signGraphQLRequest signer (url h) = Some credential ->
  credential <> EmptyString ->
  toLowerCase name = "x-hmac-auth" ->
  let run := willSendRequest signer context request in
  (user_accepted accepts context ->
     forall stored, accepts credential = Some stored ->
       fst run = Returned tt /\ header_of name (snd run) = Some stored)
  /\ (user_accepted accepts context -> accepts credential = None ->
        fst run = Thrown TypeError
        /\ header_of name (snd run) = header_of name request)
  /\ (~ user_accepted accepts context -> run = (Thrown TypeError, request)).
Proof.
  intros Hon Hh Hurl Hsign Hcred Hname run. subst run.
  assert (Hsigned : forall r1,
             (r1 = request \/ exists stored, r1 = put_header "user" stored request) ->
             signing signer r1 = set_header "X-HMAC-Auth" credential r1
             /\ is_Some (http r1)
             /\ header_of name r1 = header_of name request).
  { intros r1 Hr1.
    assert (Hu1 : http_url r1 = Some (url h)).
    { destruct Hr1 as [-> | (stored & ->)]; rewrite ?put_header_url;
        unfold http_url; rewrite Hh; reflexivity. }
    split; [| split].
    - assert (Hguard : isEnabled signer && truthy (http_url r1)
                       && truthy (signGraphQLRequest signer
                                    (default EmptyString (http_url r1))) = true).
      { rewrite Hu1, Hon. change (default EmptyString (Some (url h))) with (url h).
        rewrite Hsign. destruct (url h); [congruence |].
        destruct credential; [congruence |]. reflexivity. }
      rewrite (signing_signed accepts _ _ Hguard), Hu1.
      change (default EmptyString (Some (url h))) with (url h). rewrite Hsign.
      reflexivity.
    - destruct Hr1 as [-> | (stored & ->)]; rewrite ?put_header_is_Some; rewrite Hh; eauto.
    - destruct Hr1 as [-> | (stored & ->)]; [reflexivity |].
      apply header_of_put_other. rewrite Hname. vm_compute. discriminate. }
  split; [| split].
  - intros Hok stored Hstored.
    destruct (after_user_accepted context request Hok) as (r1 & Hrun & Hr1).
    destruct (Hsigned r1 Hr1) as (Hs & [h1 Hh1] & _).
    rewrite willSendRequest_steps, (bind_returned _ _ _ _ _ Hrun), Hs.
    rewrite (set_header_stored accepts _ _ stored _ Hstored). cbn [fst snd].
    split; [reflexivity |].
    eapply header_of_put_spelling; [| exact Hh1]. rewrite Hname. reflexivity.
  - intros Hok Hno.
    destruct (after_user_accepted context request Hok) as (r1 & Hrun & Hr1).
    destruct (Hsigned r1 Hr1) as (Hs & [h1 Hh1] & Hsame).
    rewrite willSendRequest_steps, (bind_returned _ _ _ _ _ Hrun), Hs.
    rewrite (set_header_rejected accepts _ _ _ h1 Hh1 Hno). cbn [fst snd].
    split; [reflexivity | exact Hsame].
  - intros Hno. rewrite willSendRequest_steps.
    apply bind_thrown. eapply after_user_refused; eassumption.
Qed.

(** Run again on the request it left, each statement does what it did. *)
Lemma after_user_again context request r1 r' :
  after_user context request = (Returned tt, r1) ->
  r' = r1 \/ (exists stored, r' = put_header "X-HMAC-Auth" stored r1) ->
  after_user context r' = (Returned tt, r').
Proof.
  intros Hrun Hr'. unfold DataSource.after_user in *.
  destruct (truthy (context_user context)); [| reflexivity].
  destruct (set_header_cases accepts "user"
              (default EmptyString (context_user context)) request)
    as [[H Hnone] | [(stored & Hstored & H) | (_ & _ & H)]];
    rewrite H in Hrun; [| | discriminate Hrun]; injection Hrun as <-.
  - apply set_header_http_None.
    destruct Hr' as [-> | (c & ->)]; [exact Hnone |].
    rewrite put_header_http_None; exact Hnone.
  - rewrite (set_header_stored accepts _ _ stored _ Hstored). f_equal.
    destruct Hr' as [-> | (c & ->)].
    + apply put_header_twice.
    + rewrite (put_header_swap "user" _ "X-HMAC-Auth") by (vm_compute; discriminate).
      rewrite put_header_twice. reflexivity.
Qed.

Lemma signing_again signer request o r2 :
  signing signer request = (o, r2) ->
  signing signer r2 = (o, r2)
  /\ (r2 = request \/ exists stored, r2 = put_header "X-HMAC-Auth" stored request).
Proof.
  intros Hrun.
  destruct (isEnabled signer && truthy (http_url request)
            && truthy (signGraphQLRequest signer (default EmptyString (http_url request))))
    eqn:Hguard.
  - rewrite (signing_signed accepts _ _ Hguard) in Hrun.
    destruct (set_header_cases accepts "X-HMAC-Auth"
                (default EmptyString
                   (signGraphQLRequest signer (default EmptyString (http_url request))))
                request)
      as [[H Hnone] | [(stored & Hstored & H) | (Hno & [h Hh] & H)]];
      rewrite H in Hrun; injection Hrun as <- <-.
    + split; [| left; reflexivity].
      rewrite (signing_signed accepts _ _ Hguard). exact H.
    + split; [| right; eauto].
      rewrite signing_signed by (rewrite put_header_url; exact Hguard).
      rewrite put_header_url.
      rewrite (set_header_stored accepts _ _ stored _ Hstored), put_header_twice.
      reflexivity.
    + split; [| left; reflexivity].
      rewrite (signing_signed accepts _ _ Hguard). exact H.
  - rewrite (signing_unsigned accepts _ _ Hguard) in Hrun. injection Hrun as <- <-.
    split; [apply signing_unsigned, Hguard | left; reflexivity].
Qed.

(** X11.  The interceptor is idempotent: running it again on the request
    it has left, with the same signer and context, ends as the first
    run did (returning, or throwing the same error) and changes
    nothing. *)
Theorem willSendRequest_idempotent (signer : HmacSignerService)
    (request : GraphQLRequest) (context : option GatewayContext) :
  willSendRequest signer context (snd (willSendRequest signer context request))
  = willSendRequest signer context request.
Proof.
  rewrite (willSendRequest_steps accepts signer context request). unfold bind.
  destruct (after_user context request) as [[[] | e] r1] eqn:Huser.
  - destruct (signing signer r1) as [o r2] eqn:Hsign. cbn [snd].
    destruct (signing_again signer r1 o r2 Hsign) as [Hagain Hr2].
    rewrite willSendRequest_steps.
    rewrite (bind_returned _ _ _ _ _ (after_user_again context request r1 r2 Huser Hr2)).
    exact Hagain.
  - cbn [snd].
    assert (Hr1 : r1 = request).
    { destruct (after_user_cases accepts context request) as [H | [(stored & H) | H]];
        rewrite H in Huser; [discriminate Huser | discriminate Huser |].
      injection Huser as _ <-. reflexivity. }
    subst r1. rewrite willSendRequest_steps. apply bind_thrown. exact Huser.
Qed.

End InterceptorFacts.

Section InterceptorWitnesses.

Import Js DataSource DataSourceNotions.
Local Open Scope string_scope.

Lemma willSendRequest_signs_when_enabled_witness :
  fst (willSendRequest single_line sample_signer context_u1 request_with_inbound_hmac)
  = Returned tt
  /\ header_of "X-HMAC-Auth"
       (snd (willSendRequest single_line sample_signer context_u1 request_with_inbound_hmac))
     = Some "HMAC signed http://users:3001/graphql".
Proof.
  eapply (proj1 (willSendRequest_signs_when_enabled single_line sample_signer
                   request_with_inbound_hmac context_u1 _
                   "HMAC signed http://users:3001/graphql" "X-HMAC-Auth"
                   eq_refl eq_refl _ eq_refl _ eq_refl)).
  - intros _. eexists. reflexivity.
  - reflexivity.
  Unshelve.
  + discriminate.
  + discriminate.
Defined.

(** An identity with a line break stops the interceptor before it
    signs. *)
Example willSendRequest_two_lines_not_signed :
  willSendRequest single_line sample_signer context_two_lines request_with_inbound_hmac
  = (Thrown TypeError, request_with_inbound_hmac).
Proof. vm_compute. reflexivity. Qed.

End InterceptorWitnesses.

(** ** Region: the paginated queries *)

Section PaginationFacts.

Import Js RegionQueries.

Lemma slice_to_length {A : Type} (l : list A) (take : Z) :
  0 <= take -> length (slice_to l take) = Nat.min (Z.to_nat take) (length l).
Proof.
  intros Htake. unfold slice_to.
  destruct (Z.ltb_spec take 0) as [Hneg | _]; [lia |]. apply length_firstn.
Qed.

Lemma firstn_then_firstn {A : Type} (n m : nat) : forall l : list A,
  (firstn n l ++ firstn m (skipn n l))%list = firstn (n + m) l.
Proof.
  induction n as [| n IH]; intros l; [reflexivity |].
  destruct l as [| x l]; [simpl; rewrite firstn_nil; reflexivity |].
  simpl. f_equal. apply IH.
Qed.

(** The page cut out of what the repository returned. *)
Lemma page_of_rows {E : Type} (rows : list E) (count : nat) (take : Z) :
  0 <= take ->
  let page := mkPaginated (slice_to rows take) count (take <? Z.of_nat (length rows)) in
  page_within take page
  /\ (hasMore page = false -> items page = rows)
  /\ total page = count.
Proof.
  intros Htake page. unfold page_within, page. cbn [items hasMore total].
  rewrite slice_to_length by exact Htake.
  split; [split |]; [lia | | split; [| reflexivity]].
  - intros Hmore. apply Z.ltb_lt in Hmore. lia.
  - intros Hless. apply Z.ltb_ge in Hless. unfold slice_to.
    destruct (Z.ltb_spec take 0) as [Hneg | _]; [lia |].
    apply firstn_all2. lia.
Qed.

Variable W : Type.
Variables PropositionEntity MeetingEntity RepresentativeEntity : Type.
Variable proposition_findAndCount : Z -> Z -> M W (list PropositionEntity * nat).
Variable meeting_findAndCount : Z -> Z -> M W (list MeetingEntity * nat).
Variable representative_getCount : option string -> M W nat.
Variable representative_getMany : option string -> Z -> Z -> M W (list RepresentativeEntity).

Local Abbreviation getPropositions :=
  (getPropositions W PropositionEntity proposition_findAndCount).
Local Abbreviation getMeetings := (getMeetings W MeetingEntity meeting_findAndCount).
Local Abbreviation getRepresentatives :=
  (getRepresentatives W RepresentativeEntity representative_getCount representative_getMany).

(** X12.  Whatever the repositories return, a page of [getPropositions],
    [getMeetings] or [getRepresentatives] for a [take] that is not
    negative (10 when left out) holds at most [take] rows, and holds
    exactly [take] rows whenever it says [hasMore]. *)
Theorem pages_within_take (skip take : option Z) (chamber : option string) (w : W) :
  0 <= default 10 take ->
  (forall page w', getPropositions skip take w = (Returned page, w') ->
                   page_within (default 10 take) page)
  /\ (forall page w', getMeetings skip take w = (Returned page, w') ->
                      page_within (default 10 take) page)
  /\ (forall page w', getRepresentatives skip take chamber w = (Returned page, w') ->
                      page_within (default 10 take) page).
Proof.
  intros Htake. split; [| split]; intros page w' Hrun.
  - unfold RegionQueries.getPropositions in Hrun.
    apply bind_inv in Hrun as (found & w1 & _ & Hret). injection Hret as <- _.
    rewrite map_id. apply page_of_rows. exact Htake.
  - unfold RegionQueries.getMeetings in Hrun.
    apply bind_inv in Hrun as (found & w1 & _ & Hret). injection Hret as <- _.
    apply page_of_rows. exact Htake.
  - unfold RegionQueries.getRepresentatives in Hrun.
    apply bind_inv in Hrun as (count & w1 & _ & Hrun).
    apply bind_inv in Hrun as (rows & w2 & _ & Hret). injection Hret as <- _.
    apply page_of_rows. exact Htake.
Qed.

(** X13.  Against a repository that serves an ordered table,
    [getPropositions(skip, take)] returns the rows [skip] to
    [skip + take] of the table with the table's size as [total], says
    [hasMore] exactly when rows remain after the page, and the page at
    [skip] followed by the page at [skip + take] is the page of double
    size at [skip]: walking the pages loses and repeats nothing. *)
Theorem getPropositions_walks_table (table : list PropositionEntity) (skip take : Z) (w : W) :
  serves proposition_findAndCount table ->
  0 <= skip -> 0 <= take ->
  let rows_from a n := firstn (Z.to_nat n) (skipn (Z.to_nat a) table) in
  (exists w',
     getPropositions (Some skip) (Some take) w
     = (Returned (mkPaginated (rows_from skip take) (length table)
                    (skip + take <? Z.of_nat (length table))), w'))
  /\ (rows_from skip take ++ rows_from (skip + take) take)%list = rows_from skip (take + take).
Proof.
  intros Hserves Hskip Htake rows_from. split.
  - destruct (Hserves skip (take + 1) w Hskip ltac:(lia)) as (w' & Hfound).
    exists w'. unfold RegionQueries.getPropositions.
    change (default 0 (Some skip)) with skip. change (default 10 (Some take)) with take.
    rewrite (bind_returned _ _ _ _ _ Hfound). unfold ret. cbn [fst snd].
    rewrite map_id.
    assert (Hitems : slice_to (firstn (Z.to_nat (take + 1)) (skipn (Z.to_nat skip) table)) take
                     = rows_from skip take).
    { unfold slice_to. destruct (Z.ltb_spec take 0) as [Hneg | _]; [lia |].
      unfold rows_from. rewrite firstn_firstn. f_equal. lia. }
    assert (Hmore : (take <? Z.of_nat (length (firstn (Z.to_nat (take + 1))
                                                 (skipn (Z.to_nat skip) table))))
                    = (skip + take <? Z.of_nat (length table))).
    { rewrite length_firstn, length_skipn.
      destruct (Z.ltb_spec (skip + take) (Z.of_nat (length table)));
        [apply Z.ltb_lt | apply Z.ltb_ge]; lia. }
    rewrite Hitems, Hmore. reflexivity.
  - unfold rows_from.
    replace (Z.to_nat (skip + take)) with (Z.to_nat take + Z.to_nat skip)%nat by lia.
    replace (Z.to_nat (take + take)) with (Z.to_nat take + Z.to_nat take)%nat by lia.
    rewrite <- skipn_skipn.
    apply firstn_then_firstn.
Qed.

End PaginationFacts.

Section PaginationWitnesses.

Import Js RegionQueries.

Lemma serves_five_rows : serves five_rows_repo five_rows.
Proof. intros skip take w _ _. exists w. reflexivity. Qed.

Lemma pages_within_take_witness :
  page_within 2 (mkPaginated ["b"; "c"]%string 5 true).
Proof.
  destruct (pages_within_take unit string string string five_rows_repo five_rows_repo
              (fun _ => ret 5%nat) (fun _ _ _ => ret five_rows)
              (Some 1) (Some 2) None tt) as [Hpage _].
  - vm_compute. intros H. discriminate H.
  - exact (Hpage (mkPaginated ["b"; "c"]%string 5 true) tt eq_refl).
Defined.

Lemma getPropositions_walks_table_witness :
  exists w',
    getPropositions unit string five_rows_repo (Some 1) (Some 2) tt
    = (Returned (mkPaginated ["b"; "c"]%string 5 true), w').
Proof.
  destruct (getPropositions_walks_table unit string five_rows_repo five_rows 1 2 tt
              serves_five_rows) as [Hpage _]; [lia | lia |].
  exact Hpage.
Defined.

End PaginationWitnesses.

(** ** Region: more on the sync *)

Section SyncFacts.

Import Js Region RegionNotions.

Variable W : Type.
Variable getSupportedDataTypes : list CivicDataType.
Variable fetchPropositions : M W (list Proposition).
Variable fetchMeetings : M W (list Meeting).
Variable fetchRepresentatives : M W (list Representative).
Variable propositionRepo : Repository W Proposition.
Variable meetingRepo : Repository W Meeting.
Variable representativeRepo : Repository W Representative.
Variable clock : W -> Z * W.

Local Abbreviation syncDataType :=
  (syncDataType W fetchPropositions fetchMeetings fetchRepresentatives
     propositionRepo meetingRepo representativeRepo clock).
Local Abbreviation syncAll :=
  (syncAll W getSupportedDataTypes fetchPropositions fetchMeetings fetchRepresentatives
     propositionRepo meetingRepo representativeRepo clock).
Local Abbreviation syncAll_loop :=
  (syncAll_loop W fetchPropositions fetchMeetings fetchRepresentatives
     propositionRepo meetingRepo representativeRepo clock).

Lemma syncAll_turn_record dataType w :
  exists r w',
    try_catch (syncDataType dataType)
      (fun error =>
         bind (now W clock)
           (fun date => ret (mkSyncResult dataType 0 0 0 [message_of error] date))) w
    = (Returned r, w')
    /\ Region.dataType r = dataType
    /\ clean_or_failed r.
Proof.
  unfold try_catch.
  destruct (syncDataType dataType w) as [[r | e] w1] eqn:E.
  - exists r, w1. split; [reflexivity |].
    apply syncDataType_result in E as (Herr & _ & Hty).
    split; [exact Hty | left; exact Herr].
  - destruct (now_returns W clock w1) as (t & w2 & Ht).
    exists (mkSyncResult dataType 0 0 0 [message_of e] t), w2.
    split; [erewrite bind_returned by exact Ht; reflexivity |].
    split; [reflexivity |]. right. exists (message_of e). repeat split.
Qed.

Lemma syncAll_loop_records types : forall acc w,
  exists rs w',
    syncAll_loop types acc w = (Returned (acc ++ rs)%list, w')
    /\ map Region.dataType rs = types
    /\ Forall clean_or_failed rs.
Proof.
  induction types as [| dataType types IH]; intros acc w.
  - exists [], w. rewrite app_nil_r. repeat split. constructor.
  - destruct (syncAll_turn_record dataType w) as (r & w1 & Hr & Hty & Hshape).
    destruct (IH (acc ++ [r])%list w1) as (rs & w2 & Hrs & Htys & Hall).
    exists (r :: rs), w2. split; [| split].
    + simpl. erewrite bind_returned by exact Hr. rewrite Hrs, <- app_assoc. reflexivity.
    + simpl. rewrite Hty, Htys. reflexivity.
    + constructor; assumption.
Qed.

(** X14.  [syncAll] always returns, with exactly one record per
    supported data type, in the provider's order; a handler that throws
    does not stop the loop: each record either has no error, or has
    exactly one error message and all counts zero. *)
Theorem syncAll_one_record_per_type (w : W) :
  exists rs w',
    syncAll w = (Returned rs, w')
    /\ map Region.dataType rs = getSupportedDataTypes
    /\ Forall clean_or_failed rs.
Proof.
  destruct (syncAll_loop_records getSupportedDataTypes [] w) as (rs & w' & H & Hty & Hall).
  exists rs, w'. split; [exact H |]. split; assumption.
Qed.

Lemma bulk_sync_nothing_to_do {I : Type} (fetchItems : M W (list I)) externalId entity
    (repo : Repository W I) w w1 :
  fetchItems w = (Returned [], w1) ->
  bulk_sync W fetchItems externalId entity repo w = (Returned (mkCounts 0 0 0), w1).
Proof.
  intros H. unfold bulk_sync. rewrite (bind_returned _ _ _ _ _ H). reflexivity.
Qed.


(** *** Against a table *)

Local Abbreviation syncHandlers :=
  (syncHandlers W fetchPropositions fetchMeetings fetchRepresentatives
     propositionRepo meetingRepo representativeRepo).

Lemma count_if_map {I : Type} (externalId : I -> string) (f g : string -> bool) items :
  (forall p, p ∈ items -> f (externalId p) = g (externalId p)) ->
  length (List.filter (fun p => f (externalId p)) items)
  = count_if g (map externalId items).
Proof.
  unfold count_if. induction items as [| p items IH]; intros Hfg; [reflexivity |].
  cbn [List.filter map]. rewrite <- (Hfg p) by apply list_elem_of_here.
  destruct (f (externalId p)); cbn [length]; rewrite IH; try reflexivity;
    intros p' Hp'; apply Hfg, list_elem_of_further, Hp'.
Qed.

(** The shared body against a table: the report counts the fetched
    ids against the table as it was, and the table gains them. *)
Lemma bulk_sync_table {I : Type} (fetchItems : M W (list I)) (externalId : I -> string)
    (entity : I -> I) (repo : Repository W I) (rows : W -> gset string) w w1 items :
  keeps_table rows externalId repo ->
  (forall i, externalId (entity i) = externalId i) ->
  fetchItems w = (Returned items, w1) ->
  exists w2,
    bulk_sync W fetchItems externalId entity repo w
    = (Returned (counts_against (rows w1) (map externalId items)), w2)
    /\ rows w2 = rows w1 ∪ list_to_set (map externalId items).
Proof.
  intros [Hget Hup] Hentity Hfetch. unfold bulk_sync.
  rewrite (bind_returned _ _ _ _ _ Hfetch).
  destruct items as [| i items].
  { exists w1. split; [reflexivity |]. cbn [map list_to_set].
    rewrite (right_id_L ∅ (∪)). reflexivity. }
  set (all := i :: items).
  change (length all =? 0)%nat with false. cbv iota.
  destruct (Hget (map externalId all) w1) as (found & Hg & Hfound).
  rewrite (bind_returned _ _ _ _ _ Hg).
  destruct (Hup (map entity all) w1) as (w2 & Hu & Hrows).
  rewrite (bind_returned _ _ _ _ _ Hu).
  exists w2. split.
  - assert (Hknown : forall p, p ∈ all ->
               has (id_set found) (externalId p) = bool_decide (externalId p ∈ rows w1)).
    { intros p Hp. unfold has, id_set. apply bool_decide_ext.
      rewrite elem_of_list_to_set, Hfound. split; [intros [H _]; exact H |].
      intros H. split; [exact H |]. apply (list_elem_of_fmap_2 externalId), Hp. }
    assert (Hcreated :
              length (List.filter (fun p => negb (has (id_set found) (externalId p))) all)
              = count_if (fun id => negb (bool_decide (id ∈ rows w1))) (map externalId all)).
    { apply (count_if_map externalId (fun id => negb (has (id_set found) id))).
      intros p Hp. f_equal. apply Hknown, Hp. }
    assert (Hupdated :
              length (List.filter (fun p => has (id_set found) (externalId p)) all)
              = count_if (fun id => bool_decide (id ∈ rows w1)) (map externalId all)).
    { apply (count_if_map externalId (fun id => has (id_set found) id)).
      intros p Hp. apply Hknown, Hp. }
    unfold ret, counts_against. rewrite Hcreated, Hupdated, length_map. reflexivity.
  - rewrite Hrows. f_equal. f_equal. rewrite map_map. apply map_ext. exact Hentity.
Qed.

Lemma counts_against_known table ids :
  (forall id, id ∈ ids -> id ∈ table) ->
  counts_against table ids = mkCounts (length ids) 0 (length ids).
Proof.
  intros Hknown. unfold counts_against, count_if. f_equal.
  - induction ids as [| id ids IH]; [reflexivity |].
    cbn [List.filter]. rewrite bool_decide_eq_true_2 by apply Hknown, list_elem_of_here.
    cbn [negb]. apply IH. intros id' H. apply Hknown, list_elem_of_further, H.
  - induction ids as [| id ids IH]; [reflexivity |].
    cbn [List.filter]. rewrite bool_decide_eq_true_2 by apply Hknown, list_elem_of_here.
    cbn [length]. f_equal. apply IH. intros id' H. apply Hknown, list_elem_of_further, H.
Qed.

Local Abbreviation sync_of :=
  (sync_of W fetchPropositions fetchMeetings fetchRepresentatives
     propositionRepo meetingRepo representativeRepo).

Lemma syncHandlers_table rows dataType ids w w1 :
  sync_of rows dataType ids w w1 ->
  exists w2,
    syncHandlers dataType w = (Returned (counts_against (rows w1) ids), w2)
    /\ rows w2 = rows w1 ∪ list_to_set ids.
Proof.
  destruct dataType; intros (Hkeeps & items & Hfetch & <-);
    eapply bulk_sync_table; try eassumption; reflexivity.
Qed.

(** X16.  Against a repository that keeps a table, a handler reports
    every fetched item as processed, as created when its id was not in
    the table before the upsert and as updated when it was, an id that
    the provider lists twice being counted twice; afterwards the table
    holds the old ids and the fetched ones. *)
Theorem syncHandlers_counts_against_table (rows : W -> gset string)
    (dataType : CivicDataType) (ids : list string) (w w1 : W) :
  sync_of rows dataType ids w w1 ->
  exists w2,
    syncHandlers dataType w
    = (Returned (mkCounts (length ids)
                   (count_if (fun id => negb (bool_decide (id ∈ rows w1))) ids)
                   (count_if (fun id => bool_decide (id ∈ rows w1)) ids)), w2)
    /\ rows w2 = rows w1 ∪ list_to_set ids.
Proof.
  intros Hsync.
  destruct dataType; destruct Hsync as (Hkeeps & items & Hfetch & <-);
    unfold Region.syncHandlers, Region.syncPropositions, Region.syncMeetings,
      Region.syncRepresentatives.
  - eapply bulk_sync_table; [exact Hkeeps | intros i; reflexivity | exact Hfetch].
  - eapply bulk_sync_table; [exact Hkeeps | intros i; reflexivity | exact Hfetch].
  - eapply bulk_sync_table; [exact Hkeeps | intros i; reflexivity | exact Hfetch].
Qed.

(** X17.  A sync is idempotent on the table: when the provider offers
    the same ids again and has left the table alone, the second run
    creates nothing, reports every item as updated, and the table is as
    the first run left it. *)
Theorem syncHandlers_second_run (rows : W -> gset string)
    (dataType : CivicDataType) (ids : list string) (w w1 w2 w3 : W) (c : Counts) :
  sync_of rows dataType ids w w1 ->
  syncHandlers dataType w = (Returned c, w2) ->
  sync_of rows dataType ids w2 w3 ->
  rows w3 = rows w2 ->
  exists w4,
    syncHandlers dataType w2 = (Returned (mkCounts (length ids) 0 (length ids)), w4)
    /\ rows w4 = rows w2.
Proof.
  intros Hfirst Hrun Hsecond Hsame.
  destruct (syncHandlers_table rows dataType ids w w1 Hfirst) as (w2' & Hrun' & Hrows2).
  rewrite Hrun in Hrun'. injection Hrun' as _ <-.
  destruct (syncHandlers_table rows dataType ids w2 w3 Hsecond) as (w4 & Hrun4 & Hrows4).
  exists w4. split.
  - rewrite Hrun4. f_equal. f_equal. apply counts_against_known.
    intros id Hid. rewrite Hsame, Hrows2. apply elem_of_union_r, elem_of_list_to_set, Hid.
  - rewrite Hrows4, Hsame, Hrows2.
    rewrite <- (assoc_L (∪)), (idemp_L (∪) (list_to_set ids)). reflexivity.
Qed.

End SyncFacts.

Section SyncWitnesses.

Import Js Region RegionNotions.
Local Open Scope string_scope.


Lemma table_repo_keeps_table {E : Type} (externalId : E -> string) :
  keeps_table (fun w : gset string => w) externalId (table_repo externalId).
Proof.
  split.
  - intros ids w. eexists. split; [reflexivity |]. intros id.
    rewrite !list_elem_of_In, filter_In, bool_decide_eq_true. tauto.
  - intros es w. eexists. split; reflexivity.
Qed.

Local Abbreviation table_handlers :=
  (syncHandlers (gset string) (ret demo_propositions) (ret []) (ret [])
     (table_repo p_externalId) (table_repo m_externalId) (table_repo r_externalId)).

Local Abbreviation table_sync_of :=
  (sync_of (gset string) (ret demo_propositions) (ret []) (ret [])
     (table_repo p_externalId) (table_repo m_externalId) (table_repo r_externalId)
     (fun w => w) PROPOSITIONS ["prop-1"; "prop-2"; "prop-3"]).

Lemma table_sync_of_demo (w : gset string) : table_sync_of w w.
Proof.
  split; [apply table_repo_keeps_table |].
  exists demo_propositions. split; reflexivity.
Qed.

Lemma syncHandlers_counts_against_table_witness :
  exists w2 : gset string,
    table_handlers PROPOSITIONS {[ "prop-2" ]}
    = (Returned (mkCounts 3
                   (count_if (fun id => negb (bool_decide (id ∈ ({[ "prop-2" ]} : gset string))))
                      ["prop-1"; "prop-2"; "prop-3"])
                   (count_if (fun id => bool_decide (id ∈ ({[ "prop-2" ]} : gset string)))
                      ["prop-1"; "prop-2"; "prop-3"])), w2)
    /\ w2 = {[ "prop-2" ]} ∪ list_to_set ["prop-1"; "prop-2"; "prop-3"].
Proof.
  exact (syncHandlers_counts_against_table (gset string) (ret demo_propositions) (ret [])
           (ret []) (table_repo p_externalId) (table_repo m_externalId)
           (table_repo r_externalId) (fun w => w) PROPOSITIONS
           ["prop-1"; "prop-2"; "prop-3"] {[ "prop-2" ]} {[ "prop-2" ]}
           (table_sync_of_demo _)).
Defined.

Lemma syncHandlers_second_run_witness :
  exists w4 : gset string,
    table_handlers PROPOSITIONS ({[ "prop-2" ]} ∪ list_to_set ["prop-1"; "prop-2"; "prop-3"])
    = (Returned (mkCounts 3 0 3), w4)
    /\ w4 = {[ "prop-2" ]} ∪ list_to_set ["prop-1"; "prop-2"; "prop-3"].
Proof.
  assert (Hfirst : table_handlers PROPOSITIONS {[ "prop-2" ]}
                   = (Returned (mkCounts 3 2 1),
                      {[ "prop-2" ]} ∪ list_to_set ["prop-1"; "prop-2"; "prop-3"]))
    by (vm_compute; reflexivity).
  exact (syncHandlers_second_run (gset string) (ret demo_propositions) (ret [])
           (ret []) (table_repo p_externalId) (table_repo m_externalId)
           (table_repo r_externalId) (fun w => w) PROPOSITIONS
           ["prop-1"; "prop-2"; "prop-3"] {[ "prop-2" ]} {[ "prop-2" ]} _ _
           (mkCounts 3 2 1) (table_sync_of_demo _) Hfirst (table_sync_of_demo _) eq_refl).
Defined.

End SyncWitnesses.

(** ** The secrets configuration *)

Section SecretsConfigFacts.

Import Js JsNumbers SecretsConfig.
Local Open Scope string_scope.

Lemma is_digit_digit_char d : (d < 10)%N -> is_digit (digit_char d) = true.
Proof.
  intros Hd.
  assert (Hall : forallb (fun k => is_digit (digit_char (N.of_nat k))) (seq 0 10) = true)
    by reflexivity.
  rewrite forallb_forall in Hall. specialize (Hall (N.to_nat d)).
  rewrite N2Nat.id in Hall. apply Hall, in_seq. lia.
Qed.

Lemma code_digit_char d : (d < 10)%N -> code (digit_char d) = (48 + Z.of_N d)%Z.
Proof.
  intros Hd. unfold code, digit_char. rewrite N_ascii_embedding by lia. lia.
Qed.

(** A digit is neither white space nor a sign. *)
Lemma digit_is_plain c :
  is_digit c = true -> is_space c = false /\ c <> "-"%char /\ c <> "+"%char.
Proof.
  destruct c as [[] [] [] [] [] [] [] []]; vm_compute; intros H;
    try discriminate H; repeat split; discriminate.
Qed.

Lemma numeral_fuel_tail fuel : forall n rest,
  numeral_fuel fuel n rest = numeral_fuel fuel n EmptyString ++ rest.
Proof.
  induction fuel as [| f IH]; intros n rest; [reflexivity |].
  cbn [numeral_fuel]. destruct (n <? 10)%N; [reflexivity |].
  rewrite (IH (n / 10)%N (String _ rest)), (IH (n / 10)%N (String _ EmptyString)).
  rewrite append_assoc. reflexivity.
Qed.

Lemma digits_value_app ds : forall acc tail,
  all_digits ds ->
  digits_value acc (ds ++ tail) = digits_value (digits_value acc ds) tail.
Proof.
  induction ds as [| c ds IH]; intros acc tail Hds; [reflexivity |].
  destruct Hds as [Hc Hds]. rewrite append_cons. cbn [digits_value]. rewrite Hc.
  apply IH. exact Hds.
Qed.

Lemma all_digits_app a b : all_digits a -> all_digits b -> all_digits (a ++ b).
Proof.
  induction a as [| c a IH]; intros Ha Hb; [exact Hb |].
  destruct Ha as [Hc Ha]. rewrite append_cons. split; [exact Hc | apply IH; assumption].
Qed.

Lemma log2_tenth n : (10 <= n)%N -> (N.log2 (n / 10) < N.log2 n)%N.
Proof.
  intros Hn.
  assert (Hhalf : (n / 10 <= N.shiftr n 1)%N).
  { rewrite N.shiftr_div_pow2. change (2 ^ 1)%N with 2%N.
    apply N.div_le_compat_l. lia. }
  apply N.log2_le_mono in Hhalf. rewrite N.log2_shiftr in Hhalf.
  assert (3 <= N.log2 n)%N; [| lia].
  apply N.log2_le_pow2; [lia |]. change (2 ^ 3)%N with 8%N. lia.
Qed.

(** A numeral consists of digits, at least one, and reads back as its
    number. *)
Lemma numeral_fuel_value fuel : forall n,
  (N.log2 n < N.of_nat fuel)%N ->
  all_digits (numeral_fuel fuel n EmptyString)
  /\ numeral_fuel fuel n EmptyString <> EmptyString
  /\ digits_value 0 (numeral_fuel fuel n EmptyString) = Z.of_N n.
Proof.
  induction fuel as [| f IH]; intros n Hfuel; [lia |].
  cbn [numeral_fuel].
  assert (Hmod : (n mod 10 < 10)%N) by (apply N.mod_lt; lia).
  destruct (N.ltb_spec n 10) as [Hsmall | Hbig].
  - split; [split; [apply is_digit_digit_char, Hmod | exact I] |].
    split; [discriminate |].
    cbn [digits_value]. rewrite is_digit_digit_char, code_digit_char by exact Hmod.
    rewrite N.mod_small by exact Hsmall. lia.
  - rewrite numeral_fuel_tail.
    destruct (IH (n / 10)%N) as (Hds & Hne & Hval).
    { pose proof (log2_tenth n Hbig). lia. }
    split; [| split].
    + apply all_digits_app; [exact Hds |].
      split; [apply is_digit_digit_char, Hmod | exact I].
    + destruct (numeral_fuel f (n / 10) EmptyString); [congruence | discriminate].
    + rewrite digits_value_app by exact Hds. rewrite Hval.
      cbn [digits_value]. rewrite is_digit_digit_char, code_digit_char by exact Hmod.
      pose proof (N.div_mod n 10 ltac:(lia)) as Hdm. lia.
Qed.

Lemma digits_value_stops acc s :
  starts_with_digit s = false -> digits_value acc s = acc.
Proof. destruct s as [| c r]; [reflexivity |]. simpl. intros ->. reflexivity. Qed.

Lemma parseInt10_numeral n suffix :
  starts_with_digit suffix = false ->
  parseInt10 (numeral n ++ suffix) = Some (Z.of_N n).
Proof.
  intros Hsuffix. unfold numeral.
  destruct (numeral_fuel_value (S (N.to_nat (N.log2 n))) n ltac:(lia)) as (Hds & Hne & Hval).
  set (ds := numeral_fuel (S (N.to_nat (N.log2 n))) n EmptyString) in *.
  assert (Hread : digits_value 0 (ds ++ suffix) = Z.of_N n).
  { rewrite digits_value_app by exact Hds. rewrite Hval. apply digits_value_stops, Hsuffix. }
  destruct ds as [| c r]; [congruence |].
  destruct Hds as [Hc _]. destruct (digit_is_plain c Hc) as (Hsp & Hminus & Hplus).
  unfold parseInt10. rewrite append_cons in *. cbn [trim_start]. rewrite Hsp.
  assert (Hsign : match String c (r ++ suffix) with
                  | String "-" r' => (-1, r')
                  | String "+" r' => (1, r')
                  | _ => (1, String c (r ++ suffix))
                  end%Z = (1%Z, String c (r ++ suffix))).
  { destruct c as [[] [] [] [] [] [] [] []]; try reflexivity; congruence. }
  rewrite Hsign. cbn [starts_with_digit]. rewrite Hc, Hread. f_equal. lia.
Qed.

(** X18.  The cache lifetime of the secrets configuration is what
    [SECRETS_CACHE_TTL] starts with: 300 when the variable is unset or
    empty; the number [n] when it is the decimal numeral of [n], also
    when followed by anything that does not go on with a digit (a unit,
    a fraction, an exponent), which is ignored; and not a number when it
    starts with an ASCII character that is neither white space, a sign
    nor a digit.  The provider is [env] unless one is named. *)
Theorem secrets_cacheTTLSeconds (env : Env) :
  (env_SECRETS_CACHE_TTL env = None \/ env_SECRETS_CACHE_TTL env = Some EmptyString ->
     cacheTTLSeconds (secrets env) = Some 300%Z)
  /\ (forall n suffix,
        (Z.of_N n < 2 ^ 53)%Z ->
        starts_with_digit suffix = false ->
        env_SECRETS_CACHE_TTL env = Some (numeral n ++ suffix) ->
        cacheTTLSeconds (secrets env) = Some (Z.of_N n))
  /\ (forall c rest,
        env_SECRETS_CACHE_TTL env = Some (String c rest) ->
        (code c < 128)%Z ->
        is_space c = false -> is_digit c = false -> c <> "-"%char -> c <> "+"%char ->
        cacheTTLSeconds (secrets env) = None)
  /\ (truthy (env_SECRETS_PROVIDER env) = false -> provider (secrets env) = "env").
Proof.
  unfold secrets. cbn [cacheTTLSeconds provider].
  split; [| split; [| split]].
  - intros [-> | ->]; reflexivity.
  - intros n suffix _ Hsuffix Henv. rewrite Henv.
    destruct (numeral_fuel_value (S (N.to_nat (N.log2 n))) n ltac:(lia)) as (_ & Hne & _).
    fold (numeral n) in Hne.
    destruct (numeral n ++ suffix) as [| c r] eqn:E.
    + destruct (numeral n); [congruence | discriminate E].
    + cbn [or_default]. rewrite <- E. apply parseInt10_numeral, Hsuffix.
  - intros c rest Henv _ Hsp Hdig Hminus Hplus. rewrite Henv. cbn [or_default].
    unfold parseInt10. cbn [trim_start]. rewrite Hsp.
    assert (Hsign : match String c rest with
                    | String "-" r' => (-1, r')
                    | String "+" r' => (1, r')
                    | _ => (1, String c rest)
                    end%Z = (1%Z, String c rest)).
    { destruct c as [[] [] [] [] [] [] [] []]; try reflexivity; congruence. }
    rewrite Hsign. cbn [starts_with_digit]. rewrite Hdig. reflexivity.
  - intros Hno. destruct (env_SECRETS_PROVIDER env) as [[| c r] |];
      [reflexivity | discriminate Hno | reflexivity].
Qed.

Example secrets_cache_ttl_samples :
  cacheTTLSeconds (secrets (mkEnv None None (Some "600"))) = Some 600%Z
  /\ cacheTTLSeconds (secrets (mkEnv None None (Some " 90s"))) = Some 90%Z
  /\ cacheTTLSeconds (secrets (mkEnv None None (Some "-5"))) = Some (-5)%Z
  /\ cacheTTLSeconds (secrets (mkEnv None None (Some "1e3"))) = Some 1%Z
  /\ cacheTTLSeconds (secrets (mkEnv None None (Some "five"))) = None
  /\ numeral 9007199254740991 = "9007199254740991".
Proof. vm_compute. repeat split. Qed.

End SecretsConfigFacts.

Section SecretsConfigWitnesses.

Import Js JsNumbers SecretsConfig.
Local Open Scope string_scope.

Lemma secrets_cacheTTLSeconds_witness :
  cacheTTLSeconds (secrets (mkEnv None None None)) = Some 300%Z
  /\ cacheTTLSeconds (secrets (mkEnv None None (Some "90s"))) = Some 90%Z
  /\ cacheTTLSeconds (secrets (mkEnv None None (Some "five"))) = None.
Proof.
  split; [| split].
  - apply (proj1 (secrets_cacheTTLSeconds (mkEnv None None None))). left. reflexivity.
  - apply (proj1 (proj2 (secrets_cacheTTLSeconds (mkEnv None None (Some "90s")))) 90%N "s");
      [reflexivity | reflexivity | reflexivity].
  - apply (proj1 (proj2 (proj2 (secrets_cacheTTLSeconds (mkEnv None None (Some "five")))))
             "f"%char "ive");
      [reflexivity | reflexivity | reflexivity | reflexivity | discriminate | discriminate].
Defined.

End SecretsConfigWitnesses.

(** ** Polling *)

Section WaitForFacts.

Import Js JsNumbers TestUtils.

Variable W : Type.
Variable Date_now : W -> Z.
Variable setTimeout : Z -> W -> W.
Variable condition : M W bool.

Local Abbreviation waitFor_loop := (waitFor_loop W Date_now setTimeout condition).
Local Abbreviation waitFor := (waitFor W Date_now setTimeout condition).

(** Where the loop ends: right after the condition held, with the
    condition's exception, or past the deadline. *)
Lemma waitFor_loop_outcome fuel : forall startTime timeout interval w r w',
  waitFor_loop fuel startTime timeout interval w = Some (r, w') ->
  match r with
  | Returned _ => exists w0, condition w0 = (Returned true, w')
  | Thrown e =>
      (exists w0, condition w0 = (Thrown e, w'))
      \/ (e = not_met timeout /\ timeout <= Date_now w' - startTime)
  end.
Proof.
  induction fuel as [| f IH]; intros startTime timeout interval w r w' Hrun; [discriminate |].
  cbn [TestUtils.waitFor_loop] in Hrun.
  destruct (Z.ltb_spec (Date_now w - startTime) timeout) as [Hin | Hout].
  - destruct (condition w) as [[[|] | e] w1] eqn:Hc.
    + injection Hrun as <- <-. exists w. exact Hc.
    + eapply IH. exact Hrun.
    + injection Hrun as <- <-. left. exists w. exact Hc.
  - injection Hrun as <- <-. right. split; [reflexivity | exact Hout].
Qed.

(** Erasing the counter from a counted run gives the plain run. *)
Lemma waitFor_loop_counted fuel : forall startTime timeout interval w k,
  TestUtils.waitFor_loop (W * nat) (fun s => Date_now (fst s))
    (fun ms s => (setTimeout ms (fst s), snd s)) (counted condition)
    fuel startTime timeout interval (w, k)
  = match waitFor_loop fuel startTime timeout interval w with
    | Some (r, w') =>
        match TestUtils.waitFor_loop (W * nat) (fun s => Date_now (fst s))
                (fun ms s => (setTimeout ms (fst s), snd s)) (counted condition)
                fuel startTime timeout interval (w, k) with
        | Some (_, (_, k')) => Some (r, (w', k'))
        | None => None
        end
    | None => None
    end.
Proof.
  induction fuel as [| f IH]; intros startTime timeout interval w k; [reflexivity |].
  cbn [TestUtils.waitFor_loop fst snd]. unfold counted at 1 3. cbn [fst snd].
  destruct (Date_now w - startTime <? timeout); [| reflexivity].
  destruct (condition w) as [[[|] | e] w1]; try reflexivity.
  cbn [fst snd]. apply IH.
Qed.

(** With a clock that advances, the loop ends within the polls that
    fit. *)
Lemma waitFor_loop_ends fuel : forall startTime timeout interval w k,
  clock_advances Date_now setTimeout condition ->
  0 < interval ->
  startTime + Z.of_nat k * interval <= Date_now w ->
  Z.max 0 ((timeout + interval - 1) / interval - Z.of_nat k) < Z.of_nat fuel ->
  exists r w' k',
    TestUtils.waitFor_loop (W * nat) (fun s => Date_now (fst s))
      (fun ms s => (setTimeout ms (fst s), snd s)) (counted condition)
      fuel startTime timeout interval (w, k) = Some (r, (w', k'))
    /\ Z.of_nat k' <= Z.max (Z.of_nat k) ((timeout + interval - 1) / interval).
Proof.
  induction fuel as [| f IH]; intros startTime timeout interval w k Hclock Hpos Hnow Hfuel;
    [lia |].
  destruct Hclock as [Hcond Hsleep].
  cbn [TestUtils.waitFor_loop fst snd]. unfold counted at 1. cbn [fst snd].
  destruct (Z.ltb_spec (Date_now w - startTime) timeout) as [Hin | Hout].
  - assert (Hfit : Z.of_nat k + 1 <= (timeout + interval - 1) / interval).
    { apply Z.div_le_lower_bound; [exact Hpos | nia]. }
    pose proof (Hcond w) as Hc.
    destruct (condition w) as [[[|] | e] w1]; cbn [snd] in Hc.
    + exists (Returned tt), w1, (S k). split; [reflexivity | lia].
    + destruct (IH startTime timeout interval (setTimeout interval w1) (S k))
        as (r & w' & k' & Hrun & Hk').
      * split; assumption.
      * exact Hpos.
      * pose proof (Hsleep interval w1). nia.
      * lia.
      * exists r, w', k'. split; [exact Hrun | lia].
    + exists (Thrown e), w1, (S k). split; [reflexivity | lia].
  - exists (Thrown (not_met timeout)), w, k. split; [reflexivity | lia].
Qed.

(** X19.  For a [timeoutMs] that is a safe integer (10000 when left
    out), [waitFor] returns only right after the condition answered
    [true]; it throws either what the condition threw, or, once the
    clock is at least [timeoutMs] past the start, the error
    [Condition not met within <timeoutMs>ms], the timeout printed in
    decimal digits. *)
Theorem waitFor_outcome (fuel : nat) (options : Options) (w w' : W) (r : Outcome unit) :
  safe_integer (default 10000 (timeoutMs options)) ->
  waitFor fuel options w = Some (r, w') ->
  match r with
  | Returned _ => exists w0, condition w0 = (Returned true, w')
  | Thrown e =>
      (exists w0, condition w0 = (Thrown e, w'))
      \/ (e = not_met (default 10000 (timeoutMs options))
          /\ default 10000 (timeoutMs options) <= Date_now w' - Date_now w)
  end.
Proof. intros _. unfold TestUtils.waitFor. apply waitFor_loop_outcome. Qed.

(** X20.  With a clock that does not run backwards and a timer that does
    not fire early, [waitFor] with a positive interval (500 when left
    out) ends: it asks the condition at most [timeoutMs / intervalMs]
    times, rounded up (20 times with the defaults), and a loop of one
    turn more than that completes.  Counting the polls does not change
    the run. *)
Theorem waitFor_polls_bounded (fuel : nat) (options : Options) (w : W) :
  clock_advances Date_now setTimeout condition ->
  0 < default 500 (intervalMs options) ->
  polls_that_fit options < Z.of_nat fuel ->
  exists r w' polls,
    waitFor_counted Date_now setTimeout condition fuel options w = Some (r, (w', polls))
    /\ waitFor fuel options w = Some (r, w')
    /\ Z.of_nat polls <= polls_that_fit options.
Proof.
  intros Hclock Hpos Hfuel. unfold polls_that_fit in *.
  unfold waitFor_counted, TestUtils.waitFor. cbn [fst].
  set (timeout := default 10000 (timeoutMs options)) in *.
  set (interval := default 500 (intervalMs options)) in *.
  destruct (waitFor_loop_ends fuel (Date_now w) timeout interval w O Hclock Hpos)
    as (r & w' & k' & Hrun & Hk'); [lia | lia |].
  exists r, w', k'. split; [exact Hrun |]. split; [| lia].
  rewrite waitFor_loop_counted in Hrun.
  destruct (waitFor_loop fuel (Date_now w) timeout interval w) as [[r0 w0] |];
    [| discriminate].
  destruct (TestUtils.waitFor_loop _ _ _ _ fuel (Date_now w) timeout interval (w, O))
    as [[r1 [w1 k1]] |]; [| discriminate].
  injection Hrun as -> -> _. reflexivity.
Qed.

(** X21.  A timeout that is a safe integer and not positive gives up at
    once: the condition is not asked and no timer is set; the world is
    as before and the error names the timeout, in decimal digits with
    its minus sign. *)
Theorem waitFor_gives_up_at_once (fuel : nat) (timeout : Z) (interval : option Z) (w : W) :
  safe_integer timeout ->
  timeout <= 0 ->
  waitFor (S fuel) (mkOptions (Some timeout) interval) w
  = Some (Thrown (not_met timeout), w).
Proof.
  intros _ Hno. unfold TestUtils.waitFor. cbn [TestUtils.waitFor_loop timeoutMs].
  change (default 10000 (Some timeout)) with timeout.
  destruct (Z.ltb_spec (Date_now w - Date_now w) timeout) as [Hin | _]; [lia | reflexivity].
Qed.

End WaitForFacts.

Section WaitForWitnesses.

Import Js JsNumbers TestUtils.
Local Open Scope string_scope.

Example waitFor_defaults_poll_twenty_times :
  waitFor_counted (fun w => w) sleep never 21 (mkOptions None None) 0
  = Some (Thrown (Error "Condition not met within 10000ms"), (10000, 20%nat)).
Proof. vm_compute. reflexivity. Qed.

Lemma sleep_clock_advances (condition : M Z bool) :
  (forall w, w <= snd (condition w)) ->
  clock_advances (fun w : Z => w) sleep condition.
Proof. intros H. split; [exact H |]. intros ms w. unfold sleep. lia. Qed.

Lemma waitFor_outcome_witness :
  (exists w0, after_one_second w0 = (Returned true, 1000))
  /\ ((exists w0, never w0 = (Thrown (Error "Condition not met within 250ms"), 500))
      \/ (Error "Condition not met within 250ms" = not_met 250 /\ 250 <= 500 - 0)).
Proof.
  split.
  - exact (waitFor_outcome Z (fun w => w) sleep after_one_second 21 (mkOptions None None)
             0 1000 (Returned tt) (conj eq_refl eq_refl) eq_refl).
  - exact (waitFor_outcome Z (fun w => w) sleep never 3 (mkOptions (Some 250) None)
             0 500 (Thrown (Error "Condition not met within 250ms"))
             (conj eq_refl eq_refl) eq_refl).
Defined.

Lemma waitFor_polls_bounded_witness :
  exists r w' polls,
    waitFor_counted (fun w => w) sleep never 21 (mkOptions None None) 0
    = Some (r, (w', polls))
    /\ waitFor Z (fun w => w) sleep never 21 (mkOptions None None) 0 = Some (r, w')
    /\ Z.of_nat polls <= polls_that_fit (mkOptions None None).
Proof.
  apply (waitFor_polls_bounded Z (fun w => w) sleep never 21 (mkOptions None None) 0).
  - apply sleep_clock_advances. intros w. apply Z.le_refl.
  - reflexivity.
  - reflexivity.
Defined.

Lemma waitFor_gives_up_at_once_witness :
  waitFor Z (fun w => w) sleep after_one_second 1 (mkOptions (Some (-5)) None) 5
  = Some (Thrown (Error "Condition not met within -5ms"), 5).
Proof.
  exact (waitFor_gives_up_at_once Z (fun w => w) sleep after_one_second 0 (-5) None 5
           (conj eq_refl eq_refl) ltac:(discriminate)).
Defined.

End WaitForWitnesses.
